(** * Purview utility console: selection set, storage hierarchy, curation handlers

    A shallow embedding of the client-side logic of the Microsoft Purview
    utility (React/TypeScript), under [Microsoft_Purview_Utility/src]:

    - [contexts/SelectedAssetsContext.tsx]: the selection set ([addAsset],
      [removeAsset], [clearAll], [isSelected], [getGuids]);
    - [components/catalog/AssetCard.tsx]: the card's [handleSelect] (lines
      58-69);
    - [pages/Dashboard.tsx], component [Dashboard]: the recent assets shown
      (lines 46-51), the recently clicked list ([handleAssetClick], 54-70),
      [parseArray] (73-78); [pages/BrowseAssets.tsx] has the second writer
      of that list (lines 158-179);
    - [pages/Dashboard.tsx], component [BrowseByAssetType]: [getAssetType]
      and the mapping to [allAssets] (lines 352-381), grouping by asset type
      and the order of the groups (390-403), [toggleType], [expandAll],
      [toggleNode] (405-435), [buildStorageHierarchy] (438-468),
      [renderStorageNode] and its [handleSelect] (471-651), the sections of
      the page (719-856);
    - [pages/Dashboard.tsx], component [Curate]: [fetchSchema] (1127-1177),
      [applyColumnClassifications] (1179-1225), [handleAddTag] (1321-1387),
      [handleRemoveTag] (1389-1457), [handleRemoveAllTags] (1459-1518),
      [handleRemoveSpecificOwner] (1593-1646), [handleRemoveOwner]
      (1648-1706), [handleRemoveSpecificExpert] (1708-1761),
      [handleRemoveExpert] (1836-1894), [toggleClassificationSelection]
      (2083-2089), [handleAutoClassify] (2091-2180), the remove button of
      the contacts tab (3461-3470).

    JavaScript strings are modelled by [string] (lists of 8-bit characters:
    the qualified names the code cuts are ASCII), arrays by [list], objects
    used as dictionaries ([Record<string, T[]>]) by [gmap string], and objects
    whose key order is observed ([Object.entries]) by association lists.
    React state setters are the state transformers they are given; a handler
    of the curation page is a computation over the requests sent, the notices
    shown and the page state, with exceptions. The object literals that the
    browse page uses as dictionaries inherit the members of
    [Object.prototype]: module [Render] has the pass over them with the
    TypeError this brings, and the order of [Object.entries]. *)

From Stdlib Require Import String Ascii ZArith List Lia Bool.
From stdpp Require Import gmap strings list fin_maps sorting pretty.
Set Warnings "-register-all,-clear-no-such-hyp".
Import ListNotations.
Local Open Scope string_scope.
Local Open Scope list_scope.

(** ** JavaScript string primitives used by the code *)

Module JsString.

(** [s.startsWith(p)] *)
Fixpoint startsWith (s p : string) : bool :=
  match p, s with
  | EmptyString, _ => true
  | String _ _, EmptyString => false
  | String a p', String b s' => if Ascii.eqb a b then startsWith s' p' else false
  end.

Fixpoint skip (n : nat) (s : string) : string :=
  match n, s with
  | O, _ => s
  | S _, EmptyString => EmptyString
  | S n', String _ s' => skip n' s'
  end.

Fixpoint keep (n : nat) (s : string) : string :=
  match n, s with
  | O, _ => EmptyString
  | S _, EmptyString => EmptyString
  | S n', String c s' => String c (keep n' s')
  end.

(** [s.includes(sub)] *)
Fixpoint includes (s sub : string) : bool :=
  startsWith s sub ||
  match s with
  | EmptyString => false
  | String _ s' => includes s' sub
  end.

(** [s.replace(pat, rep)] with a string pattern: only the first occurrence
    is replaced ([rep] holds no [$] pattern in the code). *)
Fixpoint replace (s pat rep : string) : string :=
  if startsWith s pat then String.append rep (skip (String.length pat) s)
  else match s with
       | EmptyString => EmptyString
       | String c s' => String c (replace s' pat rep)
       end.

(** Index of the last occurrence of the character [c] at or after position
    [i] of the whole string, [s] being the part from [i] on. *)
Fixpoint lastIndexFrom (i : nat) (s : string) (c : ascii) : option nat :=
  match s with
  | EmptyString => None
  | String a s' =>
      match lastIndexFrom (S i) s' c with
      | Some j => Some j
      | None => if Ascii.eqb a c then Some i else None
      end
  end.

(** [s.lastIndexOf(c)]: [-1] when [c] does not occur. *)
Definition lastIndexOf (s : string) (c : ascii) : Z :=
  match lastIndexFrom 0 s c with
  | Some j => Z.of_nat j
  | None => (-1)%Z
  end.

(** [s.substring(start, end)]: both indices are clamped to
    [0 .. s.length] and swapped when [start > end]. *)
Definition substring (s : string) (start end_ : Z) : string :=
  let len := Z.of_nat (String.length s) in
  let clamp i := Z.max 0 (Z.min i len) in
  let a := clamp start in
  let b := clamp end_ in
  let lo := Z.min a b in
  let hi := Z.max a b in
  keep (Z.to_nat (hi - lo)) (skip (Z.to_nat lo) s).

End JsString.

(** ** Assets as the browse page normalises them *)

(** The fields of an element of [allAssets] that the hierarchy and the
    selection read; the display-only fields (description, tags, owner, ...)
    take no part in either. *)
Record Asset : Type := mkAsset {
  id : string;
  name : string;
  type : string;
  assetType : string;
  connection : string
}.

#[global] Instance Asset_eq_dec : EqDecision Asset.
Proof. solve_decision. Defined.

(** ** [buildStorageHierarchy] *)

Record StorageHierarchy : Type := mkHierarchy {
  accounts : list Asset;
  accountChildren : gmap string (list Asset);
  blobStorageChildren : gmap string (list Asset);
  containerChildren : gmap string (list Asset)
}.

Definition emptyHierarchy : StorageHierarchy :=
  mkHierarchy [] ∅ ∅ ∅.

(** The three child maps are object literals keyed by qualified path; this
    section gives what the statements of the loop store, as finite maps of
    the keys the object owns. On a key that names a member of
    [Object.prototype] the guard [if (!m[k])] reads the inherited member and
    the statement throws instead: [Render.pushChild] and
    [Render.buildStorageHierarchy] below are the same statements with that
    outcome, and say when the loop completes. *)

(** [m[k] || []]: the array stored under [k], or the empty array. *)
Definition childrenAt (m : gmap string (list Asset)) (k : string) : list Asset :=
  default [] (m !! k).

(** [if (!m[k]) m[k] = []; m[k].push(a)] *)
Definition pushChild (m : gmap string (list Asset)) (k : string) (a : Asset)
  : gmap string (list Asset) :=
  <[k := childrenAt m k ++ [a]]> m.

Definition slash : ascii := "/"%char.

(** [c.substring(0, c.lastIndexOf('/'))] *)
Definition parentUrl (c : string) : string :=
  JsString.substring c 0 (JsString.lastIndexOf c slash).

(** [c.replace('.blob.core.windows.net', '.core.windows.net')] *)
Definition accountUrlOf (c : string) : string :=
  JsString.replace c ".blob.core.windows.net" ".core.windows.net".

(** The body of [storageAssets.forEach(asset => ...)]. *)
Definition placeAsset (h : StorageHierarchy) (asset : Asset) : StorageHierarchy :=
  if String.eqb (assetType asset) "Azure Storage Account" then
    mkHierarchy (accounts h ++ [asset])
                (<[connection asset := []]> (accountChildren h))
                (blobStorageChildren h)
                (containerChildren h)
  else if String.eqb (assetType asset) "Azure Blob Storage" then
    let accountUrl := accountUrlOf (connection asset) in
    mkHierarchy (accounts h)
                (pushChild (accountChildren h) accountUrl asset)
                (<[connection asset := []]> (blobStorageChildren h))
                (containerChildren h)
  else if String.eqb (assetType asset) "Azure Blob Container" then
    let blobStorageUrl := parentUrl (connection asset) in
    mkHierarchy (accounts h)
                (accountChildren h)
                (pushChild (blobStorageChildren h) blobStorageUrl asset)
                (<[connection asset := []]> (containerChildren h))
  else if JsString.includes (assetType asset) "File"
          || String.eqb (assetType asset) "Azure Blob" then
    (* Level 4: files are children of containers *)
    let containerUrl := parentUrl (connection asset) in
    mkHierarchy (accounts h)
                (accountChildren h)
                (blobStorageChildren h)
                (pushChild (containerChildren h) containerUrl asset)
  else h.

Definition buildStorageHierarchy (storageAssets : list Asset) : StorageHierarchy :=
  fold_left placeAsset storageAssets emptyHierarchy.

(** ** Grouping by type and the list handed to [buildStorageHierarchy] *)

(** [assetsByType]: an object from asset type to the assets of that type,
    as the association list of the keys it owns, in first-seen order. This
    is what the reduction stores; [Render.assetsByType] below adds the
    failure of its guard on a type named like a member of
    [Object.prototype], and [Render.objectEntries] the order in which
    [Object.entries] lists the keys. *)
Fixpoint groupPush (acc : list (string * list Asset)) (t : string) (a : Asset)
  : list (string * list Asset) :=
  match acc with
  | [] => [(t, [a])]
  | (t', g) :: acc' =>
      if String.eqb t' t then (t', g ++ [a]) :: acc'
      else (t', g) :: groupPush acc' t a
  end.

Definition assetsByType (filteredAssets : list Asset) : list (string * list Asset) :=
  fold_left (fun acc asset => groupPush acc (assetType asset) asset) filteredAssets [].

(** [assetsByType[t] || []] *)
Fixpoint groupOf (groups : list (string * list Asset)) (t : string) : list Asset :=
  match groups with
  | [] => []
  | (t', g) :: groups' => if String.eqb t' t then g else groupOf groups' t
  end.

Definition hasGroup (groups : list (string * list Asset)) (t : string) : bool :=
  existsb (fun tg => String.eqb (fst tg) t) groups.

Definition namedFileTypes : list string :=
  ["CSV File"; "JSON File"; "PARQUET File"; "TXT File"; "XML File"].

(** The filter on [Object.entries(assetsByType)] for the remaining file
    types. *)
Definition otherFileType (t : string) : bool :=
  JsString.includes t "File" && negb (existsb (String.eqb t) namedFileTypes).

(** [allStorageAssets] *)
Definition allStorageAssets (groups : list (string * list Asset)) : list Asset :=
  groupOf groups "Azure Storage Account" ++
  groupOf groups "Azure Blob Storage" ++
  groupOf groups "Azure Blob Container" ++
  groupOf groups "Azure Blob" ++
  groupOf groups "CSV File" ++
  groupOf groups "JSON File" ++
  groupOf groups "PARQUET File" ++
  groupOf groups "TXT File" ++
  groupOf groups "XML File" ++
  (filter (fun tg => otherFileType (fst tg) = true) groups ≫= snd).

(** ** [renderStorageNode]: the tree that is drawn *)

(** A drawn node: the asset and the nodes drawn below it when it is
    expanded. *)
Inductive Node : Type :=
| mkNode (asset : Asset) (children : list Node).

Definition nodeAsset (n : Node) : Asset :=
  match n with mkNode a _ => a end.

Definition nodeChildren (n : Node) : list Node :=
  match n with mkNode _ c => c end.

(** The [childChildren] chosen for a child inside [children.map]. *)
Definition childChildrenOf (h : StorageHierarchy) (child : Asset) : list Asset :=
  if String.eqb (assetType child) "Azure Storage Account"
  then childrenAt (accountChildren h) (connection child)
  else if String.eqb (assetType child) "Azure Blob Storage"
  then childrenAt (blobStorageChildren h) (connection child)
  else if String.eqb (assetType child) "Azure Blob Container"
  then childrenAt (containerChildren h) (connection child)
  else [].

(** [renderStorageNode(asset, children, level, childrenMap)] with every node
    expanded. The source recurses on the children found in the maps; [depth]
    bounds that recursion ([forestAt_depth] shows that three levels below a
    root are all there is). *)
Fixpoint renderStorageNode (depth : nat) (h : StorageHierarchy)
    (asset : Asset) (children : list Asset) : Node :=
  mkNode asset
    (match depth with
     | O => []
     | S d => (fun child => renderStorageNode d h child (childChildrenOf h child)) <$> children
     end).

(** [accounts.map(account => renderStorageNode(account,
    accountChildren[account.connection] || [], 0, ...))] *)
Definition forestAt (depth : nat) (h : StorageHierarchy) : list Node :=
  (fun account =>
     renderStorageNode depth h account
       (childrenAt (accountChildren h) (connection account)))
  <$> accounts h.

Definition storageForest (storageAssets : list Asset) : list Node :=
  forestAt 3 (buildStorageHierarchy storageAssets).

(** The assets of a tree, node by node (a node before its children). *)
Fixpoint nodeAssets (n : Node) : list Asset :=
  match n with
  | mkNode a cs => a :: (cs ≫= nodeAssets)
  end.

Definition forestAssets (f : list Node) : list Asset :=
  f ≫= nodeAssets.

(** *** Vocabulary for the statements about the hierarchy *)

(** Which branch of the [forEach] body of [buildStorageHierarchy] an asset
    takes. *)
Inductive Level : Type :=
| LAccount | LBlobStorage | LContainer | LFile | LOther.

#[global] Instance Level_eq_dec : EqDecision Level.
Proof. solve_decision. Defined.

Definition levelOf (a : Asset) : Level :=
  if String.eqb (assetType a) "Azure Storage Account" then LAccount
  else if String.eqb (assetType a) "Azure Blob Storage" then LBlobStorage
  else if String.eqb (assetType a) "Azure Blob Container" then LContainer
  else if JsString.includes (assetType a) "File" || String.eqb (assetType a) "Azure Blob"
       then LFile
  else LOther.

Definition levelRank (lv : Level) : nat :=
  match lv with
  | LAccount => 0 | LBlobStorage => 1 | LContainer => 2 | LFile => 3 | LOther => 4
  end.

(** Parents before children: accounts, then blob storages, then containers,
    then files, the order in which [allStorageAssets] lists them. *)
Definition kindOrdered (l : list Asset) : Prop :=
  StronglySorted (fun a b => levelRank (levelOf a) <= levelRank (levelOf b)) l.

Definition ofLevel (lv : Level) (l : list Asset) : list Asset :=
  filter (fun a => levelOf a = lv) l.

(** No two accounts, no two blob storages and no two containers share a
    qualified path. *)
Definition distinctParentPaths (l : list Asset) : Prop :=
  NoDup (connection <$> ofLevel LAccount l) /\
  NoDup (connection <$> ofLevel LBlobStorage l) /\
  NoDup (connection <$> ofLevel LContainer l).

(** The path under which [placeAsset] files a non-account asset. *)
Definition parentPathOf (a : Asset) : option string :=
  match levelOf a with
  | LBlobStorage => Some (accountUrlOf (connection a))
  | LContainer | LFile => Some (parentUrl (connection a))
  | LAccount | LOther => None
  end.

(** [p] is an asset of [l] under whose path the asset [e] of [l] is filed:
    [p] is one level above [e] and its path is [e]'s parent path. *)
Definition parentIn (l : list Asset) (p e : Asset) : Prop :=
  p ∈ l /\ e ∈ l /\
  parentPathOf e = Some (connection p) /\
  levelRank (levelOf e) = S (levelRank (levelOf p)).

(** [e] is [a] or is reached from [a] by going from parent to child. *)
Inductive under (l : list Asset) (a : Asset) : Asset -> Prop :=
| under_self : under l a a
| under_child p e : under l a p -> parentIn l p e -> under l a e.

(** [e]'s chain of parents leads up to a storage account of [l]. *)
Definition attached (l : list Asset) (e : Asset) : Prop :=
  exists a, a ∈ l /\ levelOf a = LAccount /\ under l a e.

(** The level of the assets under which [placeAsset] files [a]. *)
Definition parentLevelOf (a : Asset) : Level :=
  match levelOf a with
  | LBlobStorage => LAccount
  | LContainer => LBlobStorage
  | LFile => LContainer
  | LAccount | LOther => LOther
  end.

(** The map in which the children of the assets of level [lv] are kept. *)
Definition childMapOf (lv : Level) (h : StorageHierarchy) : gmap string (list Asset) :=
  match lv with
  | LAccount => accountChildren h
  | LBlobStorage => blobStorageChildren h
  | LContainer => containerChildren h
  | LFile | LOther => ∅
  end.

(** The assets of [l] one level below [lv] whose parent path is [k], in the
    order of [l]. *)
Definition childrenIn (l : list Asset) (lv : Level) (k : string) : list Asset :=
  filter (fun x => levelRank (levelOf x) = S (levelRank lv) /\
                   parentPathOf x = Some k) l.

(** ** The selection set ([SelectedAssetsContext.tsx]) *)

Module Selection.

Record SelectedAsset : Type := mkSelected {
  id : string;
  name : string;
  type : string;
  qualifiedName : option string
}.

#[global] Instance SelectedAsset_eq_dec : EqDecision SelectedAsset.
Proof. solve_decision. Defined.

(** [prev.some(a => a.id === i)] *)
Definition hasId (i : string) (prev : list SelectedAsset) : bool :=
  existsb (fun a => String.eqb (id a) i) prev.

(** The updater passed to [setSelectedAssets] by [addAsset]. *)
Definition addAsset (asset : SelectedAsset) (prev : list SelectedAsset)
  : list SelectedAsset :=
  if hasId (id asset) prev then prev else prev ++ [asset].

(** The updater passed to [setSelectedAssets] by [removeAsset]. *)
Definition removeAsset (i : string) (prev : list SelectedAsset)
  : list SelectedAsset :=
  filter (fun a => id a <> i) prev.

Definition clearAll (prev : list SelectedAsset) : list SelectedAsset := [].

Definition isSelected (selectedAssets : list SelectedAsset) (i : string) : bool :=
  hasId i selectedAssets.

Definition getGuids (selectedAssets : list SelectedAsset) : list string :=
  id <$> selectedAssets.

End Selection.

(** [handleSelect] inside [renderStorageNode(asset, children, ...)]: the new
    selection after a click on the node's checkbox or label. *)
Definition handleSelect (asset : Asset) (children : list Asset)
    (selectedAssets : list Selection.SelectedAsset) : list Selection.SelectedAsset :=
  let hasChildren := negb (Nat.eqb (length children) 0) in
  let selected := Selection.isSelected selectedAssets (id asset) in
  let isSelectable := negb hasChildren in
  if negb isSelectable then selectedAssets
  else if selected then Selection.removeAsset (id asset) selectedAssets
  else Selection.addAsset
         (Selection.mkSelected (id asset) (name asset) (type asset)
                               (Some (connection asset)))
         selectedAssets.

(** ** The recently clicked assets (component [Dashboard] of [pages/Dashboard.tsx]) *)

(** The content of the local-storage slot [recentAssets] as
    [handleAssetClick] reads it. *)
Inductive StoredRecent : Type :=
| SlotAbsent                        (* getItem returns null *)
| SlotUnparsable                    (* JSON.parse throws: caught, logged *)
| SlotList (ids : list string).     (* JSON.parse returns the array *)

Definition readRecent (stored : StoredRecent) : list string :=
  match stored with
  | SlotList ids => ids
  | SlotAbsent | SlotUnparsable => []
  end.

(** [[assetId, ...recent.filter(id => id !== assetId)].slice(0, 10)] *)
Definition bumpRecent (assetId : string) (recent : list string) : list string :=
  take 10 (assetId :: filter (fun i => i <> assetId) recent).

(** [handleAssetClick] of the dashboard: the value written back to the slot
    (and to the [recentAssetIds] state). *)
Definition handleAssetClick (assetId : string) (stored : StoredRecent) : StoredRecent :=
  SlotList (bumpRecent assetId (readRecent stored)).

(** [handleAssetClick] of the browse page, the other writer of the slot: a
    click on a container filters the view and records nothing, any other
    click is recorded the same way. *)
Definition browseHandleAssetClick (asset : Asset) (stored : StoredRecent) : StoredRecent :=
  if String.eqb (assetType asset) "Azure Blob Container" then stored
  else SlotList (bumpRecent (id asset) (readRecent stored)).

Inductive Click : Type :=
| DashboardClick (assetId : string)
| BrowseClick (asset : Asset).

Definition recordClick (stored : StoredRecent) (c : Click) : StoredRecent :=
  match c with
  | DashboardClick assetId => handleAssetClick assetId stored
  | BrowseClick asset => browseHandleAssetClick asset stored
  end.

(** The slot after a sequence of clicks on either page, starting from an
    empty store. *)
Definition afterClicks (clicks : list Click) : StoredRecent :=
  fold_left recordClick clicks SlotAbsent.

(** ** The curation page (component [Curate] of [pages/Dashboard.tsx]) *)

Module Curate.

(** *** Requests, responses and the page's observable state *)

(** The values the handlers put into a request body. *)
Inductive Json : Type :=
| JString (s : string)
| JStrings (l : list string).

(** [fetch(url, { method: "POST", body: JSON.stringify({...}) })]: the
    body is the object literal, key by key. *)
Record Request : Type := mkRequest {
  url : string;
  body : list (string * Json)
}.

#[global] Instance Json_eq_dec : EqDecision Json.
Proof. solve_decision. Defined.

#[global] Instance Request_eq_dec : EqDecision Request.
Proof. solve_decision. Defined.

(** What [await response.json()] gives when the body parses. *)
Record Data : Type := mkData {
  success : bool;
  error : option string
}.

(** A response: [response.ok] and its body, [inl msg] when
    [response.json()] throws. *)
Record Response : Type := mkResponse {
  ok : bool;
  payload : string + Data
}.

(** [await fetch(...)] returns a response or throws (the transport
    failed). *)
Inductive FetchOutcome : Type :=
| Resolved (r : Response)
| Rejected (msg : string).

(** A notice ([toast({...})]); the display time is left out. *)
Record Toast : Type := mkToast {
  title : string;
  description : string;
  variant : string
}.

#[global] Instance Toast_eq_dec : EqDecision Toast.
Proof. solve_decision. Defined.

(** The world a handler runs in: the server as seen from the page (the
    outcome of a request may depend on the requests sent before it), the
    requests sent so far, the toasts shown, and the page state the handlers
    write. *)
Record World : Type := mkWorld {
  network : list Request -> Request -> FetchOutcome;
  sent : list Request;
  toasts : list Toast;
  isSubmitting : bool;
  lastResult : option (bool * string)
}.

(** *** Handlers as state-and-exception computations *)

Inductive Outcome (A : Type) : Type :=
| Returned (a : A)
| Thrown (msg : string).
Arguments Returned {A} a.
Arguments Thrown {A} msg.

Definition M (A : Type) : Type := World -> Outcome A * World.

Definition ret {A} (a : A) : M A := fun w => (Returned a, w).

Definition bind {A B} (m : M A) (k : A -> M B) : M B :=
  fun w =>
    match m w with
    | (Returned a, w1) => k a w1
    | (Thrown msg, w1) => (Thrown msg, w1)
    end.

Definition throw {A} (msg : string) : M A := fun w => (Thrown msg, w).

(** [try { body } catch (error) { handler(error.message) } finally { last }] *)
Definition tryCatchFinally (body : M unit) (handler : string -> M unit)
    (last : M unit) : M unit :=
  fun w =>
    match body w with
    | (Returned _, w1) => last w1
    | (Thrown msg, w1) =>
        match handler msg w1 with
        | (Returned _, w2) => last w2
        | (Thrown msg2, w2) =>
            match last w2 with
            | (Returned _, w3) => (Thrown msg2, w3)
            | (Thrown msg3, w3) => (Thrown msg3, w3)
            end
        end
    end.

Notation "x <- m ;; k" := (bind m (fun x => k))
  (at level 100, m at next level, right associativity).
Notation "m ;;; k" := (bind m (fun _ => k))
  (at level 100, right associativity).

(** [for (const x of l) { await body(x) }] *)
Fixpoint forOf {A} (l : list A) (body : A -> M unit) : M unit :=
  match l with
  | [] => ret tt
  | x :: l' => body x ;;; forOf l' body
  end.

(** [await fetch(req)] *)
Definition fetch (req : Request) : M Response :=
  fun w =>
    let w1 := mkWorld (network w) (sent w ++ [req]) (toasts w)
                      (isSubmitting w) (lastResult w) in
    match network w (sent w) req with
    | Resolved r => (Returned r, w1)
    | Rejected msg => (Thrown msg, w1)
    end.

(** A request started and not awaited (the refresh functions are called
    without [await]; what they do with the answer happens after the
    handler). *)
Definition fetchDetached (req : Request) : M unit :=
  fun w =>
    (Returned tt,
     mkWorld (network w) (sent w ++ [req]) (toasts w)
             (isSubmitting w) (lastResult w)).

(** [await response.json()] *)
Definition json (r : Response) : M Data :=
  match payload r with
  | inr d => ret d
  | inl msg => throw msg
  end.

Definition toast (t : Toast) : M unit :=
  fun w =>
    (Returned tt,
     mkWorld (network w) (sent w) (toasts w ++ [t])
             (isSubmitting w) (lastResult w)).

Definition setIsSubmitting (b : bool) : M unit :=
  fun w =>
    (Returned tt, mkWorld (network w) (sent w) (toasts w) b (lastResult w)).

Definition setLastResult (r : option (bool * string)) : M unit :=
  fun w =>
    (Returned tt, mkWorld (network w) (sent w) (toasts w) (isSubmitting w) r).

(** [data.error || fallback] *)
Definition errorOr (d : Data) (fallback : string) : string :=
  match error d with
  | Some e => if String.eqb e "" then fallback else e
  | None => fallback
  end.

Definition isEmpty {A} (l : list A) : bool := Nat.eqb (length l) 0.

(** *** The requests *)

Definition removeTagsRequest (guids : list string) (tag : string) : Request :=
  mkRequest "http://localhost:8000/api/curate/remove-tags"
            [("guids", JStrings guids); ("tag", JString tag)].

Definition getTagsRequest (guids : list string) : Request :=
  mkRequest "http://localhost:8000/api/curate/get-tags"
            [("guids", JStrings guids)].

Definition removeContactRequest (guids : list string) (contactType : string) : Request :=
  mkRequest "http://localhost:8000/api/curate/remove-owner"
            [("guids", JStrings guids); ("contactType", JString contactType)].

Definition getContactsRequest (guids : list string) : Request :=
  mkRequest "http://localhost:8000/api/curate/get-contacts"
            [("guids", JStrings guids)].

(** [fetchExistingTags()] and [fetchExistingContacts()], as far as a
    handler that does not await them goes: the request leaves. *)
Definition fetchExistingTags (selectedAssets : list Selection.SelectedAsset) : M unit :=
  fetchDetached (getTagsRequest (Selection.getGuids selectedAssets)).

Definition fetchExistingContacts (selectedAssets : list Selection.SelectedAsset) : M unit :=
  fetchDetached (getContactsRequest (Selection.getGuids selectedAssets)).

(** *** [handleRemoveAllTags] *)

Definition noAssetsToast : Toast :=
  mkToast "No Assets Selected"
          "Please select assets to curate from the Assets page"
          "destructive".

Definition noTagsToast : Toast :=
  mkToast "No Tags to Remove"
          "There are no tags on the selected assets"
          "destructive".

Definition allTagsRemovedToast (nTags nAssets : nat) : Toast :=
  mkToast " All Tags Removed Successfully"
          (String.append "Removed "
             (String.append (pretty nTags)
                (String.append " tag(s) from "
                   (String.append (pretty nAssets) " asset(s)"))))
          "success".

Definition removeTagsErrorToast (errorMessage : string) : Toast :=
  mkToast " Error Removing Tags" errorMessage "destructive".

(** [confirmed] is the user's answer to the [confirm(...)] dialog, should
    the handler get as far as asking. *)
Definition handleRemoveAllTags (selectedAssets : list Selection.SelectedAsset)
    (existingTags : list string) (confirmed : bool) : M unit :=
  if isEmpty selectedAssets then toast noAssetsToast
  else if isEmpty existingTags then toast noTagsToast
  else if negb confirmed then ret tt
  else
    setIsSubmitting true ;;;
    setLastResult None ;;;
    tryCatchFinally
      (forOf existingTags
         (fun tag =>
            _ <- fetch (removeTagsRequest (Selection.getGuids selectedAssets) tag) ;;
            ret tt) ;;;
       toast (allTagsRemovedToast (length existingTags) (length selectedAssets)) ;;;
       fetchExistingTags selectedAssets)
      (fun errorMessage => toast (removeTagsErrorToast errorMessage))
      (setIsSubmitting false).

(** *** Removing owners and experts *)

Definition contactRemovedToast (contactType : string) (who : string) (nAssets : nat) : Toast :=
  mkToast (String.append " " (String.append contactType " Removed Successfully"))
          (String.append who
             (String.append " from "
                (String.append (pretty nAssets) " asset(s)")))
          "success".

Definition contactErrorToast (contactType : string) (errorMessage : string) : Toast :=
  mkToast (String.append " Error Removing " contactType) errorMessage "destructive".

(** The [try]/[catch]/[finally] block shared, letter for letter, by the
    four handlers below: they differ in the contact type sent, in the
    words of the notices and in the guard before it. [lower] is the contact
    type in lower case, [who] the beginning of the success notice. *)
Definition removeContactBlock (selectedAssets : list Selection.SelectedAsset)
    (contactType lower who : string) : M unit :=
  setIsSubmitting true ;;;
  setLastResult None ;;;
  tryCatchFinally
    (response <- fetch (removeContactRequest (Selection.getGuids selectedAssets) contactType) ;;
     data <- json response ;;
     if ok response && success data
     then toast (contactRemovedToast contactType who (length selectedAssets)) ;;;
          fetchExistingContacts selectedAssets
     else throw (errorOr data (String.append "Failed to remove " lower)))
    (fun errorMessage =>
       setLastResult
         (Some (false,
                String.append " Failed to remove "
                  (String.append lower (String.append ": " errorMessage)))) ;;;
       toast (contactErrorToast contactType errorMessage))
    (setIsSubmitting false).

(** The double-quote character of the template strings. *)
Definition dquote : ascii := Ascii.ascii_of_nat 34.

Definition quoted (s : string) : string :=
  String dquote (String.append s (String dquote EmptyString)).

(** [handleRemoveSpecificOwner(ownerId, displayName)] *)
Definition handleRemoveSpecificOwner (ownerId displayName : string)
    (selectedAssets : list Selection.SelectedAsset) (confirmed : bool) : M unit :=
  if isEmpty selectedAssets then ret tt
  else if negb confirmed then ret tt
  else removeContactBlock selectedAssets "Owner" "owner"
         (String.append (quoted displayName) " has been removed as owner").

(** [handleRemoveOwner()]: remove all owners. *)
Definition handleRemoveOwner
    (selectedAssets : list Selection.SelectedAsset) (confirmed : bool) : M unit :=
  if isEmpty selectedAssets then toast noAssetsToast
  else if negb confirmed then ret tt
  else removeContactBlock selectedAssets "Owner" "owner" "Owner has been removed".

(** [handleRemoveSpecificExpert(expertId, displayName)] *)
Definition handleRemoveSpecificExpert (expertId displayName : string)
    (selectedAssets : list Selection.SelectedAsset) (confirmed : bool) : M unit :=
  if isEmpty selectedAssets then ret tt
  else if negb confirmed then ret tt
  else removeContactBlock selectedAssets "Expert" "expert"
         (String.append (quoted displayName) " has been removed as expert").

(** [handleRemoveExpert()]: remove all experts. *)
Definition handleRemoveExpert
    (selectedAssets : list Selection.SelectedAsset) (confirmed : bool) : M unit :=
  if isEmpty selectedAssets then toast noAssetsToast
  else if negb confirmed then ret tt
  else removeContactBlock selectedAssets "Expert" "expert" "Expert has been removed".

(** The refresh request that follows a remove request, by the server's
    answer to it: the contacts are fetched again after a success only. *)
Definition refreshAfter (guids : list string) (answer : FetchOutcome) : list Request :=
  match answer with
  | Resolved r =>
      match payload r with
      | inr d => if ok r && success d then [getContactsRequest guids] else []
      | inl _ => []
      end
  | Rejected _ => []
  end.

(** *** Column classifications: schema, edits and [handleAutoClassify] *)

Module ColumnInfo.
Record t : Type := mk {
  name : string;
  classifications : list string
}.
End ColumnInfo.

Module EntityData.
(** One entry of [AutoClassificationSuggestions]; [classifications] is
    an object keyed by column guid, read with [Object.entries]. *)
Record t : Type := mk {
  has_schema : bool;
  classifications : option (list (string * ColumnInfo.t))
}.
End EntityData.

Module SchemaColumn.
Record t : Type := mk {
  guid : string;
  name : string;
  type : string;
  existing_classifications : option (list string)
}.
End SchemaColumn.


(** The part of the page state the classification tab works on.
    [columnClassifications] is the one map that holds the pending value of
    each column: what [fetchSchema] found, what the user picked, what the
    analysis suggested. *)
Record ClassifyState : Type := mkClassifyState {
  columnClassifications : gmap string (list string);
  showSchemaView : bool;
  autoClassificationSuggestions : option (list (string * EntityData.t))
}.







(** The requests a handler adds to the log, and the notices it adds. *)
Definition requestsOf (m : M unit) (w : World) : list Request :=
  drop (length (sent w)) (sent (snd (m w))).

Definition noticesOf (m : M unit) (w : World) : list Toast :=
  drop (length (toasts w)) (toasts (snd (m w))).

Definition isRemoveTags (r : Request) : bool :=
  String.eqb (url r) "http://localhost:8000/api/curate/remove-tags".

End Curate.

(** ** More of the selection: operation sequences and the asset card *)

(** The three mutations of the selection context. *)
Inductive SelectionOp : Type :=
| OpAdd (asset : Selection.SelectedAsset)
| OpRemove (i : string)
| OpClear.

Definition applyOp (selectedAssets : list Selection.SelectedAsset) (op : SelectionOp)
  : list Selection.SelectedAsset :=
  match op with
  | OpAdd asset => Selection.addAsset asset selectedAssets
  | OpRemove i => Selection.removeAsset i selectedAssets
  | OpClear => Selection.clearAll selectedAssets
  end.

(** The selection after a sequence of mutations of the state [initial] (the
    empty list, or what was restored from local storage). *)
Definition afterOps (initial : list Selection.SelectedAsset) (ops : list SelectionOp)
  : list Selection.SelectedAsset :=
  fold_left applyOp ops initial.

Module AssetCard.

(** The props of [AssetCard] that its [handleSelect] reads
    ([components/catalog/AssetCard.tsx], lines 39-69). *)
Record Props : Type := mkProps {
  id : option string;
  name : string;
  type : string;
  connection : option string
}.

(** [!id]: the id is missing or the empty string. *)
Definition noId (props : Props) : bool :=
  match id props with
  | None => true
  | Some i => String.eqb i ""
  end.

(** [handleSelect] of the card: the new selection after a click on the
    card's select button. *)
Definition handleSelect (props : Props)
    (selectedAssets : list Selection.SelectedAsset) : list Selection.SelectedAsset :=
  match id props with
  | None => selectedAssets
  | Some i =>
      if String.eqb i "" then selectedAssets
      else if Selection.isSelected selectedAssets i
      then Selection.removeAsset i selectedAssets
      else Selection.addAsset
             (Selection.mkSelected i (name props) (type props) (connection props))
             selectedAssets
  end.

End AssetCard.

(** The props a page passes with [<AssetCard {...asset} />]. *)
Definition cardPropsOf (asset : Asset) : AssetCard.Props :=
  AssetCard.mkProps (Some (id asset)) (name asset) (type asset)
                    (Some (connection asset)).

(** ** More of the browse page: sections, sorting, expansion *)

(** [Object.entries(assetsByType).sort(([, a], [, b]) => b.length - a.length)].
    [Array.prototype.sort] is stable and the comparator orders the entries by
    descending count, so the result is the one stable arrangement; it is
    computed here by insertion: an entry goes before the first entry that
    has no more assets than it. *)
Fixpoint insertByCount (e : string * list Asset) (sorted : list (string * list Asset))
  : list (string * list Asset) :=
  match sorted with
  | [] => [e]
  | e' :: rest =>
      if Nat.ltb (length (snd e)) (length (snd e'))
      then e' :: insertByCount e rest
      else e :: e' :: rest
  end.

Definition sortedTypes (groups : list (string * list Asset)) : list (string * list Asset) :=
  foldr insertByCount [] groups.

(** [type.includes('Azure Storage') || type.includes('Azure Blob')] *)
Definition isStorageType (t : string) : bool :=
  JsString.includes t "Azure Storage" || JsString.includes t "Azure Blob".

(** What the page draws for one entry of [sortedTypes]. *)
Inductive PageSection : Type :=
| StorageSection (forest : list Node)             (* the storage hierarchy card *)
| TypeSection (t : string) (typeAssets : list Asset).  (* a card of asset cards *)

(** The body of [sortedTypes.map(([type, typeAssets]) => ...)]: the storage
    card in the slot of the storage accounts, nothing for the other storage
    types, a card of the type's assets otherwise. *)
Definition sectionOf (groups : list (string * list Asset))
    (entry : string * list Asset) : option PageSection :=
  let t := fst entry in
  if isStorageType t && String.eqb t "Azure Storage Account"
  then Some (StorageSection (storageForest (allStorageAssets groups)))
  else if isStorageType t then None
  else Some (TypeSection t (snd entry)).

(** The sections of the page, top to bottom. *)
Definition pageSections (filteredAssets : list Asset) : list PageSection :=
  let groups := assetsByType filteredAssets in
  omap (sectionOf groups) (sortedTypes groups).

(** The assets shown in the type cards of the page. *)
Definition cardAssets (sections : list PageSection) : list Asset :=
  sections ≫= fun s =>
    match s with
    | TypeSection _ typeAssets => typeAssets
    | StorageSection _ => []
    end.

(** [toggleNode] and [toggleType]: the updater of the set of expanded ids. *)
Definition toggleNode (nodeId : string) (prev : gset string) : gset string :=
  if decide (nodeId ∈ prev) then prev ∖ {[nodeId]} else prev ∪ {[nodeId]}.

(** [expandAll]: [new Set(sortedTypes.map(([type]) => type))] *)
Definition expandAll (sorted : list (string * list Asset)) : gset string :=
  list_to_set (fst <$> sorted).

(** [renderStorageNode] with the set [expandedNodes] of expanded asset ids:
    the children of a node are drawn when [isNodeExpanded && hasChildren].
    [visibleForest] is what the open storage card shows. *)
Fixpoint renderVisible (expandedNodes : gset string) (depth : nat)
    (h : StorageHierarchy) (asset : Asset) (children : list Asset) : Node :=
  mkNode asset
    (match depth with
     | O => []
     | S d =>
         if bool_decide (id asset ∈ expandedNodes)
         then (fun child =>
                 renderVisible expandedNodes d h child (childChildrenOf h child))
              <$> children
         else []
     end).

Definition visibleForest (expandedNodes : gset string) (storageAssets : list Asset)
  : list Node :=
  let h := buildStorageHierarchy storageAssets in
  (fun account =>
     renderVisible expandedNodes 3 h account
       (childrenAt (accountChildren h) (connection account)))
  <$> accounts h.

(** The nodes of a tree, a node before the nodes below it. *)
Fixpoint subnodes (n : Node) : list Node :=
  match n with
  | mkNode a cs => mkNode a cs :: (cs ≫= subnodes)
  end.

(** ** The render pass of the browse page, with its failures *)

Module Render.

(** The names every object literal inherits: the own property names of
    [Object.prototype]. *)
Definition objectPrototypeMembers : list string :=
  ["constructor"; "__defineGetter__"; "__defineSetter__"; "hasOwnProperty";
   "__lookupGetter__"; "__lookupSetter__"; "isPrototypeOf";
   "propertyIsEnumerable"; "toString"; "valueOf"; "__proto__";
   "toLocaleString"].

Definition inherited (k : string) : bool :=
  existsb (String.eqb k) objectPrototypeMembers.

(** How a piece of the render pass ends. [PrototypeReplaced]: the statement
    [m[k] = []] ran with [k] equal to [__proto__], which gives the object
    the empty array as prototype and no new key; what the object inherits
    from then on is not followed here, so the run is left at this
    outcome. *)
Inductive Run (A : Type) : Type :=
| Done (a : A)
| TypeError
| PrototypeReplaced.
Arguments Done {A} a.
Arguments TypeError {A}.
Arguments PrototypeReplaced {A}.

Definition andThen {A B : Type} (r : Run A) (k : A -> Run B) : Run B :=
  match r with
  | Done a => k a
  | TypeError => TypeError
  | PrototypeReplaced => PrototypeReplaced
  end.

(** [l.forEach(x => body(x))] over a state. *)
Fixpoint forEach {S A : Type} (body : S -> A -> Run S) (l : list A) (s : S) : Run S :=
  match l with
  | [] => Done s
  | x :: l' => andThen (body s x) (forEach body l')
  end.

(** [l.map(f)] *)
Fixpoint mapRun {A B : Type} (f : A -> Run B) (l : list A) : Run (list B) :=
  match l with
  | [] => Done []
  | x :: l' => andThen (f x) (fun y => andThen (mapRun f l') (fun ys => Done (y :: ys)))
  end.

(** [if (!m[k]) m[k] = []; m[k].push(a)]. An array is truthy, so an own key
    is pushed to. For a key the object does not own, [m[k]] is [undefined]
    and the entry is created, unless [k] names an inherited member: then
    [m[k]] is that member, nothing is stored, and [m[k].push] is not a
    function. *)
Definition pushChild (m : gmap string (list Asset)) (k : string) (a : Asset)
  : Run (gmap string (list Asset)) :=
  match m !! k with
  | Some g => Done (<[k := g ++ [a]]> m)
  | None => if inherited k then TypeError else Done (<[k := [a]]> m)
  end.

(** [m[k] = []] *)
Definition assignEmpty (m : gmap string (list Asset)) (k : string)
  : Run (gmap string (list Asset)) :=
  if String.eqb k "__proto__" then PrototypeReplaced else Done (<[k := []]> m).

(** The body of [storageAssets.forEach(asset => ...)] (lines 445-465). *)
Definition placeAsset (h : StorageHierarchy) (asset : Asset) : Run StorageHierarchy :=
  if String.eqb (assetType asset) "Azure Storage Account" then
    andThen (assignEmpty (accountChildren h) (connection asset)) (fun ac =>
    Done (mkHierarchy (accounts h ++ [asset]) ac
                      (blobStorageChildren h) (containerChildren h)))
  else if String.eqb (assetType asset) "Azure Blob Storage" then
    let accountUrl := accountUrlOf (connection asset) in
    andThen (pushChild (accountChildren h) accountUrl asset) (fun ac =>
    andThen (assignEmpty (blobStorageChildren h) (connection asset)) (fun bc =>
    Done (mkHierarchy (accounts h) ac bc (containerChildren h))))
  else if String.eqb (assetType asset) "Azure Blob Container" then
    let blobStorageUrl := parentUrl (connection asset) in
    andThen (pushChild (blobStorageChildren h) blobStorageUrl asset) (fun bc =>
    andThen (assignEmpty (containerChildren h) (connection asset)) (fun cc =>
    Done (mkHierarchy (accounts h) (accountChildren h) bc cc)))
  else if JsString.includes (assetType asset) "File"
          || String.eqb (assetType asset) "Azure Blob" then
    let containerUrl := parentUrl (connection asset) in
    andThen (pushChild (containerChildren h) containerUrl asset) (fun cc =>
    Done (mkHierarchy (accounts h) (accountChildren h) (blobStorageChildren h) cc))
  else Done h.

Definition buildStorageHierarchy (storageAssets : list Asset) : Run StorageHierarchy :=
  forEach placeAsset storageAssets emptyHierarchy.

(** [acc[type].push(asset)] on a key the object owns. *)
Fixpoint pushOwn (acc : list (string * list Asset)) (t : string) (a : Asset)
  : option (list (string * list Asset)) :=
  match acc with
  | [] => None
  | (t', g) :: acc' =>
      if String.eqb t' t then Some ((t', g ++ [a]) :: acc')
      else cons (t', g) <$> pushOwn acc' t a
  end.

(** The body of the reduction [assetsByType] (lines 391-398):
    [if (!acc[type]) acc[type] = []; acc[type].push(asset)]. *)
Definition groupPush (acc : list (string * list Asset)) (t : string) (a : Asset)
  : Run (list (string * list Asset)) :=
  match pushOwn acc t a with
  | Some acc' => Done acc'
  | None => if inherited t then TypeError else Done (acc ++ [(t, [a])])
  end.

Definition assetsByType (filteredAssets : list Asset) : Run (list (string * list Asset)) :=
  forEach (fun acc asset => groupPush acc (assetType asset) asset) filteredAssets [].

(** The value of a string of decimal digits. *)
Fixpoint digitsValue (s : string) (acc : N) : option N :=
  match s with
  | EmptyString => Some acc
  | String c s' =>
      let n := N_of_ascii c in
      if ((48 <=? n) && (n <=? 57))%N
      then digitsValue s' (10 * acc + (n - 48))%N
      else None
  end.

(** Whether a key is an array index: the canonical decimal form of an
    integer below [2^32 - 1]. *)
Definition arrayIndex (k : string) : option N :=
  match k with
  | EmptyString => None
  | String _ _ =>
      match digitsValue k 0 with
      | Some n => if (n <? 4294967295)%N && String.eqb (pretty n) k then Some n else None
      | None => None
      end
  end.

Fixpoint insertByIndex (i : N) (e : string * list Asset)
    (sorted : list (N * (string * list Asset))) : list (N * (string * list Asset)) :=
  match sorted with
  | [] => [(i, e)]
  | (j, e') :: rest =>
      if (i <? j)%N then (i, e) :: (j, e') :: rest
      else (j, e') :: insertByIndex i e rest
  end.

(** [Object.entries(o)] for the object whose own keys, in the order of their
    creation, are those of [own]: the keys that are array indices first, in
    ascending numeric order, then the other keys in the order of their
    creation. *)
Definition objectEntries (own : list (string * list Asset)) : list (string * list Asset) :=
  (snd <$> foldr (fun e sorted =>
                    match arrayIndex (fst e) with
                    | Some i => insertByIndex i e sorted
                    | None => sorted
                    end) [] own)
  ++ filter (fun e => arrayIndex (fst e) = None) own.

(** The body of [sortedTypes.map(([type, typeAssets]) => ...)] (lines
    719-856): [buildStorageHierarchy] is called in the slot of the storage
    accounts. *)
Definition sectionOf (groups : list (string * list Asset))
    (entry : string * list Asset) : Run (option PageSection) :=
  let t := fst entry in
  if isStorageType t && String.eqb t "Azure Storage Account"
  then andThen (buildStorageHierarchy (allStorageAssets groups)) (fun h =>
       Done (Some (StorageSection (forestAt 3 h))))
  else if isStorageType t then Done None
  else Done (Some (TypeSection t (snd entry))).

(** One render of the sections of the page: what is drawn, or the error that
    leaves the page undrawn. *)
Definition page (filteredAssets : list Asset) : Run (list PageSection) :=
  andThen (assetsByType filteredAssets) (fun groups =>
  andThen (mapRun (sectionOf groups) (sortedTypes (objectEntries groups))) (fun drawn =>
  Done (omap (fun s => s) drawn))).

(** No asset's type names an inherited member. *)
Definition ordinaryTypes (filteredAssets : list Asset) : bool :=
  forallb (fun a => negb (inherited (assetType a))) filteredAssets.

(** The key under which [placeAsset] files the asset names no inherited
    member, and the key [placeAsset] assigns for it is not [__proto__]. *)
Definition ordinaryPath (a : Asset) : bool :=
  match parentPathOf a with
  | Some k => negb (inherited k)
  | None => true
  end
  && (Nat.ltb 2 (levelRank (levelOf a)) || negb (String.eqb (connection a) "__proto__")).

Definition ordinaryPaths (storageAssets : list Asset) : bool :=
  forallb ordinaryPath storageAssets.

End Render.

(** ** More of the dashboard: normalising tags, the recent assets shown *)

(** A raw field of a catalog record, as far as [parseArray] looks at it: a
    string, an array, or any other value with its truthiness ([undefined],
    [null], numbers, booleans, objects). *)
Inductive JsValue : Type :=
| JsStr (s : string)
| JsArr (items : list JsValue)
| JsOther (truthy : bool).

Definition truthy (v : JsValue) : bool :=
  match v with
  | JsStr s => negb (String.eqb s "")
  | JsArr _ => true
  | JsOther b => b
  end.

(** The members kept by [data.filter(t => t && typeof t === 'string')]. *)
Definition keptString (t : JsValue) : option string :=
  match t with
  | JsStr s => if truthy t then Some s else None
  | JsArr _ | JsOther _ => None
  end.

(** [parseArray(data)] ([Dashboard], lines 73-78; the same function is in
    [BrowseByAssetType] and in [BrowseAssets]). *)
Definition parseArray (data : JsValue) : list string :=
  if negb (truthy data) then []
  else match data with
       | JsArr items => omap keptString items
       | JsStr s => [s]
       | JsOther _ => []
       end.

(** [assets.find(a => a.id === i)]: the first asset with that id. *)
Definition findById {A : Type} (idOf : A -> string) (assets : list A) (i : string)
  : option A :=
  List.find (fun a => String.eqb (idOf a) i) assets.

(** [recentAssets] of the dashboard (lines 46-51): the assets of the recent
    ids that are still among the loaded [assets], four at most. [assets] is
    [None] while the assets are not loaded. *)
Definition recentAssets {A : Type} (idOf : A -> string)
    (recentAssetIds : list string) (assets : option (list A)) : list A :=
  match assets with
  | Some loaded =>
      if Nat.ltb 0 (length recentAssetIds)
      then take 4 (omap (findById idOf loaded) recentAssetIds)
      else []
  | None => []
  end.

(** ** From catalog records to the assets of the pages *)

(** The fields of a catalog record that [getAssetType] and the mapping to
    [allAssets] read. A field is a string or is missing. *)
Record RawAsset : Type := mkRawAsset {
  rawId : string;
  rawName : option string;
  rawAssetType : option string;
  rawEntityType : option string;
  rawQualifiedName : option string
}.

(** [x || fallback] for a field that is a string or missing: the empty
    string is falsy. *)
Definition orElse (x : option string) (fallback : string) : string :=
  match x with
  | Some s => if String.eqb s "" then fallback else s
  | None => fallback
  end.

Section GetAssetType.

(** [String.prototype.toLowerCase], taken as given. *)
Variable toLowerCase : string -> string.

(** [getAssetType(asset)] (lines 352-363; the same function is in
    [Dashboard] and in [BrowseAssets]). *)
Definition getAssetType (asset : RawAsset) : string :=
  let assetType := orElse (rawAssetType asset) (orElse (rawEntityType asset) "") in
  let entityType := orElse (toLowerCase <$> rawEntityType asset) "" in
  if JsString.includes assetType "File" || String.eqb assetType "Azure Blob"
  then "file"
  else orElse (Some entityType) "table".

(** The element of [allAssets] made from a catalog record (lines
    365-381). *)
Definition mapAsset (asset : RawAsset) : Asset :=
  mkAsset (rawId asset)
          (orElse (rawName asset) "Unknown")
          (getAssetType asset)
          (orElse (rawAssetType asset) (orElse (rawEntityType asset) "Unknown"))
          (orElse (rawQualifiedName asset) "N/A").

End GetAssetType.

(** ** More of the curation page: single tags, both contacts, column apply *)

Module CuratePage.
Import Curate.

(** [try]/[catch]/[finally] around a body whose result is kept: the new
    value of the form field that the body or the handler leaves. *)
Definition tryCatchFinallyWith {A : Type} (body : M A) (handler : string -> M A)
    (last : M unit) : M A :=
  fun w =>
    match body w with
    | (Returned a, w1) =>
        match last w1 with
        | (Returned _, w2) => (Returned a, w2)
        | (Thrown msg, w2) => (Thrown msg, w2)
        end
    | (Thrown msg, w1) =>
        match handler msg w1 with
        | (Returned a, w2) =>
            match last w2 with
            | (Returned _, w3) => (Returned a, w3)
            | (Thrown msg3, w3) => (Thrown msg3, w3)
            end
        | (Thrown msg2, w2) =>
            match last w2 with
            | (Returned _, w3) => (Thrown msg2, w3)
            | (Thrown msg3, w3) => (Thrown msg3, w3)
            end
        end
    end.

(** The requests and notices a computation adds, whatever it returns. *)
Definition sentBy {A : Type} (m : M A) (w : World) : list Request :=
  drop (length (sent w)) (sent (snd (m w))).

Definition shownBy {A : Type} (m : M A) (w : World) : list Toast :=
  drop (length (toasts w)) (toasts (snd (m w))).

Definition addTagsRequest (guids : list string) (tag : string) : Request :=
  mkRequest "http://localhost:8000/api/curate/add-tags"
            [("guids", JStrings guids); ("tag", JString tag)].

Definition validationToast : Toast :=
  mkToast "Validation Error" "Please enter a tag name" "destructive".

(** [`${verb} "${tag}" ${link} ${n} asset(s)`] *)
Definition tagSentence (verb tag link : string) (nAssets : nat) : string :=
  String.append verb
    (String.append " "
       (String.append (quoted tag)
          (String.append " "
             (String.append link
                (String.append " "
                   (String.append (pretty nAssets) " asset(s)")))))).

Section TagHandlers.

(** [String.prototype.trim], taken as given: the handlers are the same
    whatever it does to a string. *)
Variable trim : string -> string.

(** [handleAddTag] (lines 1321-1387). The result is the content of the
    input field afterwards. *)
Definition handleAddTag (selectedAssets : list Selection.SelectedAsset)
    (addTagInput : string) : M string :=
  if String.eqb (trim addTagInput) "" then
    toast validationToast ;;; ret addTagInput
  else if isEmpty selectedAssets then
    toast noAssetsToast ;;; ret addTagInput
  else
    setIsSubmitting true ;;;
    setLastResult None ;;;
    tryCatchFinallyWith
      (response <- fetch (addTagsRequest (Selection.getGuids selectedAssets)
                                        (trim addTagInput)) ;;
       data <- json response ;;
       if ok response && success data
       then setLastResult
              (Some (true,
                     String.append " "
                       (tagSentence "Successfully added tag" addTagInput "to"
                                    (length selectedAssets)))) ;;;
            toast (mkToast " Tag Added Successfully"
                           (tagSentence "Tag" addTagInput "has been added to"
                                        (length selectedAssets))
                           "success") ;;;
            ret ""
       else throw (errorOr data "Failed to add tag"))
      (fun errorMessage =>
         setLastResult
           (Some (false, String.append " Failed to add tag: " errorMessage)) ;;;
         toast (mkToast " Error Adding Tag" errorMessage "destructive") ;;;
         ret addTagInput)
      (setIsSubmitting false).

(** [handleRemoveTag] (lines 1389-1457). The result is the content of the
    input field afterwards. *)
Definition handleRemoveTag (selectedAssets : list Selection.SelectedAsset)
    (removeTagInput : string) : M string :=
  if String.eqb (trim removeTagInput) "" then
    toast validationToast ;;; ret removeTagInput
  else if isEmpty selectedAssets then
    toast noAssetsToast ;;; ret removeTagInput
  else
    setIsSubmitting true ;;;
    setLastResult None ;;;
    tryCatchFinallyWith
      (response <- fetch (removeTagsRequest (Selection.getGuids selectedAssets)
                                           (trim removeTagInput)) ;;
       data <- json response ;;
       if ok response && success data
       then setLastResult
              (Some (true,
                     String.append " "
                       (tagSentence "Successfully removed tag" removeTagInput "from"
                                    (length selectedAssets)))) ;;;
            toast (mkToast " Tag Removed Successfully"
                           (tagSentence "Tag" removeTagInput "has been removed from"
                                        (length selectedAssets))
                           "success") ;;;
            ret ""
       else throw (errorOr data "Failed to remove tag"))
      (fun errorMessage =>
         setLastResult
           (Some (false, String.append " Failed to remove tag: " errorMessage)) ;;;
         toast (mkToast " Error Removing Tag" errorMessage "destructive") ;;;
         ret removeTagInput)
      (setIsSubmitting false ;;; fetchExistingTags selectedAssets).

End TagHandlers.

(** A handler run that comes to an end without an error escaping it and
    with the submit buttons released. *)
Definition settles {A : Type} (m : M A) (w : World) : Prop :=
  exists a w', m w = (Returned a, w') /\ isSubmitting w' = false.

(** No request of the loop of [handleRemoveAllTags] over [tags] throws:
    each is answered, the requests for the tags before it being in the
    log. *)
Definition noRemovalThrows (w : World) (guids : list string) (tags : list string) : Prop :=
  forall i t, tags !! i = Some t ->
    exists r, network w (sent w ++ (removeTagsRequest guids <$> take i tags))
                        (removeTagsRequest guids t) = Resolved r.

(** Whether the server's answer to a write counts as a success for the
    handlers that read it: [response.ok && data.success], the body parsed. *)
Definition accepted (answer : FetchOutcome) : bool :=
  match answer with
  | Resolved r =>
      match payload r with
      | inr d => ok r && success d
      | inl _ => false
      end
  | Rejected _ => false
  end.

(** The message of the error a handler catches when the answer is not
    accepted: what was thrown by [fetch] or by [response.json()], or
    [data.error || fallback]. *)
Definition failureMessage (answer : FetchOutcome) (fallback : string) : string :=
  match answer with
  | Resolved r =>
      match payload r with
      | inr d => errorOr d fallback
      | inl msg => msg
      end
  | Rejected msg => msg
  end.

(** The contact type picked in the remove form. *)
Inductive ContactChoice : Type :=
| ChoiceOwner | ChoiceExpert | ChoiceBoth.

(** The [onClick] of the remove button of the contacts tab (lines
    3460-3470): with "both", the owners are removed, then the experts; each
    handler asks for its own confirmation. *)
Definition handleRemoveContacts (contactType : ContactChoice)
    (selectedAssets : list Selection.SelectedAsset)
    (confirmedOwner confirmedExpert : bool) : M unit :=
  match contactType with
  | ChoiceBoth =>
      handleRemoveOwner selectedAssets confirmedOwner ;;;
      handleRemoveExpert selectedAssets confirmedExpert
  | ChoiceOwner => handleRemoveOwner selectedAssets confirmedOwner
  | ChoiceExpert => handleRemoveExpert selectedAssets confirmedExpert
  end.

(** [toggleClassificationSelection] (lines 2083-2089): the updater of the
    list of picked classifications. *)
Definition toggleClassificationSelection (classificationName : string)
    (prev : list string) : list string :=
  if bool_decide (classificationName ∈ prev)
  then filter (fun c => c <> classificationName) prev
  else prev ++ [classificationName].

(** *** [applyColumnClassifications] (lines 1179-1225) *)

Definition noClassificationsToast : Toast :=
  mkToast "No Classifications Selected"
          "Please select classifications for columns"
          "destructive".

Definition classificationsAppliedToast (nColumns : nat) : Toast :=
  mkToast " Classifications Applied"
          (String.append "Applied classifications to "
             (String.append (pretty nColumns) " column(s)"))
          "success".

Definition applyErrorToast (errorMessage : string) : Toast :=
  mkToast " Error Applying Classifications" errorMessage "destructive".

(** What one run of [applyColumnClassifications] does: the
    [column_classifications] of the request it sends (if it sends one), the
    notice it shows, the classification state it leaves, and whether it
    starts [fetchExistingClassifications()]. *)
Record ApplyRun : Type := mkApplyRun {
  applySent : option (gmap string (list string));
  applyNotice : Toast;
  applyState : ClassifyState;
  applyRefetches : bool
}.

(** [answer] is the server's answer to the request, should one be sent. *)
Definition applyColumnClassifications (answer : FetchOutcome) (st : ClassifyState)
  : ApplyRun :=
  let pending := columnClassifications st in
  if Nat.eqb (size pending) 0 then
    mkApplyRun None noClassificationsToast st false
  else if accepted answer then
    mkApplyRun (Some pending)
               (classificationsAppliedToast (size pending))
               (mkClassifyState ∅ false (autoClassificationSuggestions st))
               true
  else
    mkApplyRun (Some pending)
               (applyErrorToast (failureMessage answer "Failed to apply classifications"))
               st
               false.

End CuratePage.

(** ** Sample data for the worked cases *)

Module Sample.

Definition account : Asset :=
  mkAsset "guid-1" "acct" "azure_storage_account" "Azure Storage Account"
          "acct.core.windows.net".

Definition blobStorage : Asset :=
  mkAsset "guid-2" "acct" "azure_blob_service" "Azure Blob Storage"
          "acct.blob.core.windows.net".

Definition container : Asset :=
  mkAsset "guid-3" "raw" "azure_blob_container" "Azure Blob Container"
          "acct.blob.core.windows.net/raw".

Definition csvFile : Asset :=
  mkAsset "guid-4" "sales.csv" "file" "CSV File"
          "acct.blob.core.windows.net/raw/sales.csv".

(** A blob storage and a container of an account that is not among the
    assets. *)
Definition strayBlobStorage : Asset :=
  mkAsset "guid-5" "other" "azure_blob_service" "Azure Blob Storage"
          "other.blob.core.windows.net".

Definition strayContainer : Asset :=
  mkAsset "guid-6" "logs" "azure_blob_container" "Azure Blob Container"
          "other.blob.core.windows.net/logs".


Definition selected : Selection.SelectedAsset :=
  Selection.mkSelected "guid-4" "sales.csv" "file"
                       (Some "acct.blob.core.windows.net/raw/sales.csv").

Definition okResponse : Curate.Response :=
  Curate.mkResponse true (inr (Curate.mkData true None)).

(** A server that answers every request. *)
Definition steadyWorld : Curate.World :=
  Curate.mkWorld (fun _ _ => Curate.Resolved okResponse) [] [] false None.

(** A server that refuses the second request with an error status. *)
Definition refusingWorld : Curate.World :=
  Curate.mkWorld
    (fun history _ =>
       if Nat.eqb (length history) 1
       then Curate.Resolved
              (Curate.mkResponse false (inr (Curate.mkData false (Some "Internal Server Error"))))
       else Curate.Resolved okResponse)
    [] [] false None.

(** A server whose second request fails in transit. *)
Definition flakyWorld : Curate.World :=
  Curate.mkWorld
    (fun history _ =>
       if Nat.eqb (length history) 1
       then Curate.Rejected "Failed to fetch"
       else Curate.Resolved okResponse)
    [] [] false None.

End Sample.

(** * Properties *)

(** ** The selection set *)

Section SelectionFacts.
Import Selection.

Lemma hasId_true (i : string) (prev : list SelectedAsset) :
  hasId i prev = true <-> exists a, a ∈ prev /\ id a = i.
Proof.
  unfold hasId. rewrite existsb_exists. split.
  - intros (a & Hin & Heq). exists a. split; [by apply list_elem_of_In|].
    by apply String.eqb_eq.
  - intros (a & Hin & Heq). exists a. split; [by apply list_elem_of_In|].
    by apply String.eqb_eq.
Qed.

Lemma hasId_false (i : string) (prev : list SelectedAsset) :
  hasId i prev = false <-> forall a, a ∈ prev -> id a <> i.
Proof.
  rewrite <- not_true_iff_false, hasId_true. split.
  - intros Hno a Hin Heq. apply Hno. eauto.
  - intros Hall (a & Hin & Heq). by apply (Hall a).
Qed.

Lemma getGuids_elem (i : string) (prev : list SelectedAsset) :
  i ∈ getGuids prev <-> hasId i prev = true.
Proof.
  unfold getGuids. rewrite list_elem_of_fmap, hasId_true.
  split; intros (a & H1 & H2); exists a; by split.
Qed.

Lemma addAsset_guids_NoDup (asset : SelectedAsset) (prev : list SelectedAsset) :
  NoDup (getGuids prev) -> NoDup (getGuids (addAsset asset prev)).
Proof.
  intros Hnd. unfold addAsset. destruct (hasId (id asset) prev) eqn:Hhas; [done|].
  unfold getGuids. rewrite fmap_app. apply NoDup_app. split_and!.
  - done.
  - intros i Hi Hi2. apply list_elem_of_singleton in Hi2 as ->.
    apply getGuids_elem in Hi. congruence.
  - apply NoDup_singleton.
Qed.

End SelectionFacts.

(** C8. For every selection and every entity: [addAsset] with an id that is
    already present returns the selection as it was (so the entry with that
    id stays the only one and stays where it was), and with a new id it
    returns the selection with the entity appended at the end, the earlier
    entries in their order. Adding twice is the same as adding once, and a
    selection without duplicate ids stays so. *)
Theorem addAsset_present_or_appended :
  forall (asset : Selection.SelectedAsset) (prev : list Selection.SelectedAsset),
    ((exists a, a ∈ prev /\ Selection.id a = Selection.id asset) ->
       Selection.addAsset asset prev = prev) /\
    ((forall a, a ∈ prev -> Selection.id a <> Selection.id asset) ->
       Selection.addAsset asset prev = prev ++ [asset]) /\
    Selection.addAsset asset (Selection.addAsset asset prev)
      = Selection.addAsset asset prev /\
    (NoDup (Selection.getGuids prev) ->
       NoDup (Selection.getGuids (Selection.addAsset asset prev))).
Proof.
  intros asset prev. split_and!.
  - intros Hex. apply hasId_true in Hex. unfold Selection.addAsset. by rewrite Hex.
  - intros Hall. apply hasId_false in Hall. unfold Selection.addAsset. by rewrite Hall.
  - unfold Selection.addAsset at 2 3.
    destruct (Selection.hasId (Selection.id asset) prev) eqn:Hhas.
    + unfold Selection.addAsset. by rewrite Hhas.
    + unfold Selection.addAsset.
      assert (Selection.hasId (Selection.id asset) (prev ++ [asset]) = true) as ->; [|done].
      apply hasId_true. exists asset. split; [|done].
      apply elem_of_app. right. by apply list_elem_of_singleton.
  - apply addAsset_guids_NoDup.
Qed.

(** ** Selecting a node of the storage tree *)

Lemma handleSelect_leaf (asset : Asset) (selectedAssets : list Selection.SelectedAsset) :
  handleSelect asset [] selectedAssets =
    if Selection.isSelected selectedAssets (id asset)
    then Selection.removeAsset (id asset) selectedAssets
    else Selection.addAsset
           (Selection.mkSelected (id asset) (name asset) (type asset)
                                 (Some (connection asset)))
           selectedAssets.
Proof. reflexivity. Qed.

(** C7. For every node drawn with at least one child, a click on it
    ([handleSelect]) returns the selection exactly as it was, and the
    function has no failing case; whenever a click does change the selection,
    the node was drawn without children. *)
Theorem handleSelect_nonleaf_unchanged :
  forall (asset : Asset) (children : list Asset)
         (selectedAssets : list Selection.SelectedAsset),
    (children <> [] -> handleSelect asset children selectedAssets = selectedAssets) /\
    (handleSelect asset children selectedAssets <> selectedAssets -> children = []).
Proof.
  intros asset children selectedAssets.
  destruct children as [|child children]; split; try done.
Qed.

(** ** The recently clicked list *)

Lemma bumpRecent_length (assetId : string) (recent : list string) :
  length (bumpRecent assetId recent) <= 10.
Proof. unfold bumpRecent. rewrite length_take. lia. Qed.

Lemma bumpRecent_head (assetId : string) (recent : list string) :
  head (bumpRecent assetId recent) = Some assetId.
Proof. reflexivity. Qed.

Lemma bumpRecent_NoDup (assetId : string) (recent : list string) :
  NoDup recent -> NoDup (bumpRecent assetId recent).
Proof.
  intros Hnd. unfold bumpRecent.
  eapply sublist_NoDup; [|apply sublist_take].
  apply NoDup_cons. split.
  - rewrite list_elem_of_filter. by intros [Hne _].
  - by apply NoDup_filter.
Qed.

Lemma afterClicks_snoc (clicks : list Click) (c : Click) :
  afterClicks (clicks ++ [c]) = recordClick (afterClicks clicks) c.
Proof. unfold afterClicks. by rewrite fold_left_app. Qed.

(** Whatever the clicks, on either page, the slot holds at most ten ids and
    none twice. *)
Lemma afterClicks_invariant (clicks : list Click) :
  length (readRecent (afterClicks clicks)) <= 10 /\
  NoDup (readRecent (afterClicks clicks)).
Proof.
  induction clicks as [|c clicks IH] using rev_ind.
  - simpl. split; [lia | constructor].
  - rewrite afterClicks_snoc.
    assert (forall i,
              length (bumpRecent i (readRecent (afterClicks clicks))) <= 10 /\
              NoDup (bumpRecent i (readRecent (afterClicks clicks)))) as Hbump.
    { intros i. split; [apply bumpRecent_length | apply bumpRecent_NoDup, IH]. }
    destruct c as [assetId|asset]; simpl; [apply Hbump|].
    unfold browseHandleAssetClick.
    destruct (String.eqb (assetType asset) "Azure Blob Container"); [done | apply Hbump].
Qed.

Lemma bumpRecent_once (assetId : string) (recent : list string) :
  length (filter (fun j => j = assetId) (bumpRecent assetId recent)) = 1.
Proof.
  unfold bumpRecent. simpl. rewrite filter_cons_True by done. simpl. f_equal.
  apply length_zero_iff_nil, elem_of_nil_inv.
  intros j [-> Hj]%list_elem_of_filter.
  apply elem_of_take in Hj as (k & Hj & _). apply list_elem_of_lookup_2 in Hj.
  by apply list_elem_of_filter in Hj as [Hne _].
Qed.

(** C9 as the claim states it fails: on the browse page a click on a file
    and then a click on a container. The container is the asset interacted
    with last, but its id is not at the front of the list, nor in it: the
    list still holds the file's id alone. *)
Lemma browse_container_click_not_at_front :
  let clicks := [BrowseClick Sample.csvFile; BrowseClick Sample.container] in
  readRecent (afterClicks clicks) = [id Sample.csvFile] /\
  head (readRecent (afterClicks clicks)) <> Some (id Sample.container) /\
  ~ (id Sample.container ∈ readRecent (afterClicks clicks)).
Proof.
  cbv zeta. split_and!.
  - reflexivity.
  - by vm_compute.
  - intros Hin. vm_compute in Hin. apply list_elem_of_singleton in Hin. discriminate.
Qed.

(** C9, amended. After any sequence of clicks on the dashboard and on the
    browse page, from an empty store, and whichever click comes next: the
    list kept in the slot has at most 10 entries and no id twice. A click on
    the dashboard, and a click on the browse page on an asset that is not a
    container, is recorded: the slot then holds the clicked id followed by
    the earlier ids without it, cut to 10, so the clicked id is at the front
    and is listed once. A click on a container on the browse page is not
    recorded: the slot is left as it was. Whatever list a slot holds, a
    recorded click leaves at most 10 entries with the clicked id first and
    listed once. *)
Theorem recent_capped_front_deduplicated :
  forall (clicks : list Click) (c : Click),
    let before := readRecent (afterClicks clicks) in
    let after := readRecent (afterClicks (clicks ++ [c])) in
    let recorded (i : string) :=
      after = take 10 (i :: filter (fun j => j <> i) before) /\
      head after = Some i /\
      length (filter (fun j => j = i) after) = 1 in
    length after <= 10 /\
    NoDup after /\
    match c with
    | DashboardClick assetId => recorded assetId
    | BrowseClick asset =>
        if String.eqb (assetType asset) "Azure Blob Container"
        then after = before
        else recorded (id asset)
    end /\
    (forall (stored : StoredRecent) (i : string),
       let written := readRecent (handleAssetClick i stored) in
       length written <= 10 /\ head written = Some i /\
       length (filter (fun j => j = i) written) = 1).
Proof.
  intros clicks c before after recorded.
  destruct (afterClicks_invariant (clicks ++ [c])) as [Hlen Hnd].
  split_and!; [done | done | |].
  - subst recorded after before. rewrite afterClicks_snoc.
    destruct c as [assetId|asset]; simpl.
    + split_and!; [done | done | apply bumpRecent_once].
    + unfold browseHandleAssetClick.
      destruct (String.eqb (assetType asset) "Azure Blob Container"); [done|].
      simpl. split_and!; [done | done | apply bumpRecent_once].
  - intros stored i written. subst written. simpl. split_and!.
    + apply bumpRecent_length.
    + done.
    + apply bumpRecent_once.
Qed.

(** ** Removing all tags *)

Section RemoveAllTags.
Import Curate.

Variable selectedAssets : list Selection.SelectedAsset.

Let guids := Selection.getGuids selectedAssets.

Let removeOne (tag : string) : M unit :=
  _ <- fetch (removeTagsRequest guids tag) ;; ret tt.

Lemma forOf_removeTags_step (t : string) (tags : list string) (w : World) :
  forOf (t :: tags) removeOne w =
    let w1 := mkWorld (network w) (sent w ++ [removeTagsRequest guids t])
                      (toasts w) (isSubmitting w) (lastResult w) in
    match network w (sent w) (removeTagsRequest guids t) with
    | Resolved _ => forOf tags removeOne w1
    | Rejected msg => (Thrown msg, w1)
    end.
Proof.
  simpl. unfold removeOne at 1. unfold bind, fetch.
  by destruct (network w (sent w) (removeTagsRequest guids t)).
Qed.

Lemma noRemovalThrows_tail (t : string) (tags : list string) (w : World) :
  CuratePage.noRemovalThrows w guids (t :: tags) ->
  CuratePage.noRemovalThrows
    (mkWorld (network w) (sent w ++ [removeTagsRequest guids t])
             (toasts w) (isSubmitting w) (lastResult w)) guids tags.
Proof.
  intros Hall i t' Hi. destruct (Hall (S i) t' Hi) as (r & Hr).
  exists r. simpl in Hr |- *. by rewrite <- app_assoc.
Qed.

(** When no request throws, the loop sends one request per tag. *)
Lemma forOf_removeTags_all (tags : list string) (w : World) :
  CuratePage.noRemovalThrows w guids tags ->
  forOf tags removeOne w =
    (Returned tt,
     mkWorld (network w) (sent w ++ (removeTagsRequest guids <$> tags))
             (toasts w) (isSubmitting w) (lastResult w)).
Proof.
  revert w. induction tags as [|t tags IH]; intros w Hall.
  - simpl. unfold ret. rewrite app_nil_r. by destruct w.
  - rewrite forOf_removeTags_step. cbv zeta.
    destruct (Hall 0 t eq_refl) as (r & Hr). simpl in Hr. rewrite app_nil_r in Hr.
    rewrite Hr. rewrite IH by by apply noRemovalThrows_tail.
    simpl. by rewrite <- app_assoc.
Qed.

(** The loop stops at the first request that throws. *)
Lemma forOf_removeTags_stops (pre : list string) (t : string) (rest : list string)
    (msg : string) (w : World) :
  CuratePage.noRemovalThrows w guids pre ->
  network w (sent w ++ (removeTagsRequest guids <$> pre))
            (removeTagsRequest guids t) = Rejected msg ->
  forOf (pre ++ t :: rest) removeOne w =
    (Thrown msg,
     mkWorld (network w) (sent w ++ (removeTagsRequest guids <$> pre ++ [t]))
             (toasts w) (isSubmitting w) (lastResult w)).
Proof.
  revert w. induction pre as [|p pre IH]; intros w Hall Hrej.
  - simpl app. rewrite forOf_removeTags_step. cbv zeta.
    simpl in Hrej. rewrite app_nil_r in Hrej. by rewrite Hrej.
  - change ((p :: pre) ++ t :: rest) with (p :: (pre ++ t :: rest)).
    rewrite forOf_removeTags_step. cbv zeta.
    destruct (Hall 0 p eq_refl) as (r & Hr). simpl in Hr. rewrite app_nil_r in Hr.
    rewrite Hr. rewrite IH.
    + simpl. by rewrite <- app_assoc.
    + by apply noRemovalThrows_tail.
    + simpl. rewrite <- app_assoc. exact Hrej.
Qed.

(** Either no request of the loop throws, or there is a first one that
    does. *)
Lemma removal_cases (tags : list string) (w : World) :
  CuratePage.noRemovalThrows w guids tags \/
  exists pre t rest msg,
    tags = pre ++ t :: rest /\
    CuratePage.noRemovalThrows w guids pre /\
    network w (sent w ++ (removeTagsRequest guids <$> pre))
              (removeTagsRequest guids t) = Rejected msg.
Proof.
  induction tags as [|t tags IH] using rev_ind.
  - left. by intros i t Hi.
  - destruct IH as [Hall | (pre & t' & rest & msg & -> & Hpre & Hrej)].
    + destruct (network w (sent w ++ (removeTagsRequest guids <$> tags))
                          (removeTagsRequest guids t)) as [r|msg] eqn:Hnet.
      * left. intros i t' Hi.
        destruct (decide (i < length tags)) as [Hlt|Hge].
        -- rewrite lookup_app_l in Hi by done. rewrite take_app_le by lia.
           by apply Hall.
        -- assert (i = length tags) as ->.
           { apply lookup_lt_Some in Hi. rewrite length_app in Hi. simpl in Hi. lia. }
           rewrite list_lookup_middle in Hi by done. injection Hi as <-.
           rewrite take_app_length. by exists r.
      * right. by exists tags, t, [], msg.
    + right. exists pre, t', (rest ++ [t]), msg. split_and!; [|done..].
      by rewrite <- app_assoc.
Qed.

Lemma requestsOf_appended (m : M unit) (w : World) (added : list Request) :
  sent (snd (m w)) = sent w ++ added -> requestsOf m w = added.
Proof. intros Hs. unfold requestsOf. rewrite Hs. apply drop_app_length. Qed.

Lemma noticesOf_appended (m : M unit) (w : World) (added : list Toast) :
  toasts (snd (m w)) = toasts w ++ added -> noticesOf m w = added.
Proof. intros Hs. unfold noticesOf. rewrite Hs. apply drop_app_length. Qed.

(** Past the guards, the handler runs the loop inside its [try]. *)
Lemma handleRemoveAllTags_run (tags : list string) (w : World) :
  selectedAssets <> [] -> tags <> [] ->
  handleRemoveAllTags selectedAssets tags true w =
    tryCatchFinally
      (forOf tags removeOne ;;;
       toast (allTagsRemovedToast (length tags) (length selectedAssets)) ;;;
       fetchExistingTags selectedAssets)
      (fun errorMessage => toast (removeTagsErrorToast errorMessage))
      (setIsSubmitting false)
      (mkWorld (network w) (sent w) (toasts w) true None).
Proof.
  intros Hsel Htags. unfold handleRemoveAllTags.
  assert (isEmpty selectedAssets = false) as -> by by destruct selectedAssets.
  assert (isEmpty tags = false) as -> by by destruct tags.
  done.
Qed.

(** When no request throws: one request per tag, then the refresh, and the
    success notice. *)
Lemma handleRemoveAllTags_all (tags : list string) (w : World) :
  selectedAssets <> [] -> tags <> [] ->
  CuratePage.noRemovalThrows w guids tags ->
  let m := handleRemoveAllTags selectedAssets tags true in
  requestsOf m w = (removeTagsRequest guids <$> tags) ++ [getTagsRequest guids] /\
  noticesOf m w = [allTagsRemovedToast (length tags) (length selectedAssets)].
Proof.
  intros Hsel Htags Hall m. subst m.
  pose proof (handleRemoveAllTags_run tags w Hsel Htags) as Hrun.
  unfold tryCatchFinally, bind in Hrun.
  rewrite (forOf_removeTags_all tags (mkWorld (network w) (sent w) (toasts w) true None))
    in Hrun by exact Hall.
  split.
  - apply requestsOf_appended. rewrite Hrun. simpl. by rewrite <- app_assoc.
  - apply noticesOf_appended. by rewrite Hrun.
Qed.

(** When a request throws: the requests up to and including it, no refresh,
    and the error notice with the thrown message. *)
Lemma handleRemoveAllTags_stops (pre : list string) (t : string) (rest : list string)
    (msg : string) (w : World) :
  selectedAssets <> [] ->
  CuratePage.noRemovalThrows w guids pre ->
  network w (sent w ++ (removeTagsRequest guids <$> pre))
            (removeTagsRequest guids t) = Rejected msg ->
  let m := handleRemoveAllTags selectedAssets (pre ++ t :: rest) true in
  requestsOf m w = removeTagsRequest guids <$> pre ++ [t] /\
  noticesOf m w = [removeTagsErrorToast msg].
Proof.
  intros Hsel Hpre Hrej m. subst m.
  assert (pre ++ t :: rest <> []) as Htags by by destruct pre.
  pose proof (handleRemoveAllTags_run (pre ++ t :: rest) w Hsel Htags) as Hrun.
  unfold tryCatchFinally, bind in Hrun.
  rewrite (forOf_removeTags_stops pre t rest msg
             (mkWorld (network w) (sent w) (toasts w) true None))
    in Hrun by done.
  split.
  - apply requestsOf_appended. by rewrite Hrun.
  - apply noticesOf_appended. by rewrite Hrun.
Qed.

End RemoveAllTags.


(** The loop does not read the answers: a write that the server refuses with
    an error status does not stop it and is not reported. *)
Example removeAllTags_refused_write_unnoticed :
  let m := Curate.handleRemoveAllTags [Sample.selected] ["A"; "B"; "C"] true in
  Curate.requestsOf m Sample.refusingWorld =
    (Curate.removeTagsRequest ["guid-4"] <$> ["A"; "B"; "C"])
    ++ [Curate.getTagsRequest ["guid-4"]] /\
  Curate.noticesOf m Sample.refusingWorld = [Curate.allTagsRemovedToast 3 1].
Proof. cbv zeta. split; reflexivity. Qed.



Lemma filter_removeTags_requests (guids : list string) (tags : list string)
    (others : list Curate.Request) :
  Forall (fun r => Curate.isRemoveTags r = false) others ->
  filter (fun r => Curate.isRemoveTags r = true)
         ((Curate.removeTagsRequest guids <$> tags) ++ others)
  = Curate.removeTagsRequest guids <$> tags.
Proof.
  intros Hothers. rewrite filter_app.
  assert (filter (fun r => Curate.isRemoveTags r = true) others = []) as ->.
  { induction Hothers as [|r others Hr _ IH]; [done|].
    rewrite filter_cons_False; [done | congruence]. }
  rewrite app_nil_r. induction tags as [|t tags IH]; [done|].
  rewrite fmap_cons, filter_cons_True by done. by rewrite IH.
Qed.

(** C6 as the claim states it fails: three existing tags and a transport
    that fails on the first request. One remove-tag call is issued, not
    three. *)
Lemma removeAllTags_three_tags_one_call :
  let down := Curate.mkWorld (fun _ _ => Curate.Rejected "Failed to fetch")
                             [] [] false None in
  let m := Curate.handleRemoveAllTags [Sample.selected] ["A"; "B"; "C"] true in
  let calls := filter (fun r => Curate.isRemoveTags r = true) (Curate.requestsOf m down) in
  calls = [Curate.removeTagsRequest ["guid-4"] "A"] /\
  length calls = 1 /\
  length calls <> 3.
Proof. cbv zeta. split_and!; by vm_compute. Qed.

(** C6, amended. With a selection and the user's confirmation,
    [handleRemoveAllTags] issues its remove-tag calls one per existing tag,
    in their order, each naming that single tag, never one bulk call. When
    no call throws it issues exactly as many calls as there are tags: n
    calls for n tags. When the call for a tag throws, the calls before it
    not having thrown, that call is the last: the calls are those for the
    tags up to and including it. In every case the calls are the calls for
    a first part of the tags. *)
Theorem removeAllTags_one_request_per_tag :
  forall (selectedAssets : list Selection.SelectedAsset) (existingTags : list string)
         (w : Curate.World),
    selectedAssets <> [] ->
    let guids := Selection.getGuids selectedAssets in
    let m := Curate.handleRemoveAllTags selectedAssets existingTags true in
    let calls := filter (fun r => Curate.isRemoveTags r = true) (Curate.requestsOf m w) in
    (CuratePage.noRemovalThrows w guids existingTags ->
       calls = Curate.removeTagsRequest guids <$> existingTags /\
       length calls = length existingTags) /\
    (forall pre t rest msg,
       existingTags = pre ++ t :: rest ->
       CuratePage.noRemovalThrows w guids pre ->
       Curate.network w (Curate.sent w ++ (Curate.removeTagsRequest guids <$> pre))
                      (Curate.removeTagsRequest guids t) = Curate.Rejected msg ->
       calls = Curate.removeTagsRequest guids <$> pre ++ [t] /\
       length calls = S (length pre)) /\
    (exists attempted rest,
       existingTags = attempted ++ rest /\
       calls = Curate.removeTagsRequest guids <$> attempted).
Proof.
  intros selectedAssets existingTags w Hsel guids m calls.
  assert (Hall : CuratePage.noRemovalThrows w guids existingTags ->
                 calls = Curate.removeTagsRequest guids <$> existingTags).
  { intros Hno. subst calls. destruct existingTags as [|t tags].
    - subst m. unfold Curate.handleRemoveAllTags.
      assert (Curate.isEmpty selectedAssets = false) as -> by by destruct selectedAssets.
      simpl. unfold Curate.requestsOf. simpl. by rewrite drop_all.
    - destruct (handleRemoveAllTags_all selectedAssets (t :: tags) w Hsel) as [Hreq _];
        [done..|].
      subst m guids. rewrite Hreq. apply filter_removeTags_requests.
      by repeat constructor. }
  assert (Hstop : forall pre t rest msg,
            existingTags = pre ++ t :: rest ->
            CuratePage.noRemovalThrows w guids pre ->
            Curate.network w (Curate.sent w ++ (Curate.removeTagsRequest guids <$> pre))
                           (Curate.removeTagsRequest guids t) = Curate.Rejected msg ->
            calls = Curate.removeTagsRequest guids <$> pre ++ [t]).
  { intros pre t rest msg -> Hpre Hrej. subst calls.
    destruct (handleRemoveAllTags_stops selectedAssets pre t rest msg w Hsel Hpre Hrej)
      as [Hreq _].
    subst m guids. rewrite Hreq.
    rewrite <- (app_nil_r (Curate.removeTagsRequest _ <$> pre ++ [t])) at 1.
    by apply filter_removeTags_requests. }
  split_and!.
  - intros Hno. rewrite (Hall Hno). split; [done | by rewrite length_fmap].
  - intros pre t rest msg Htags Hpre Hrej.
    rewrite (Hstop pre t rest msg Htags Hpre Hrej).
    split; [done|]. rewrite length_fmap, length_app. simpl. lia.
  - destruct (removal_cases selectedAssets existingTags w)
      as [Hno | (pre & t & rest & msg & Htags & Hpre & Hrej)].
    + exists existingTags, []. split; [by rewrite app_nil_r | by apply Hall].
    + exists (pre ++ [t]), rest. split; [by rewrite <- app_assoc | by eapply Hstop].
Qed.

Lemma removeAllTags_one_request_per_tag_witness :
  let m := Curate.handleRemoveAllTags [Sample.selected] ["A"; "B"; "C"] true in
  let calls := filter (fun r => Curate.isRemoveTags r = true)
                      (Curate.requestsOf m Sample.steadyWorld) in
  calls = Curate.removeTagsRequest ["guid-4"] <$> ["A"; "B"; "C"] /\
  length calls = 3.
Proof.
  destruct (removeAllTags_one_request_per_tag [Sample.selected] ["A"; "B"; "C"]
              Sample.steadyWorld) as (Hall & _); [discriminate|].
  apply Hall. intros i t _. by eexists.
Defined.

(** ** Removing one owner or one expert *)

Section RemoveContact.
Import Curate.

Variable selectedAssets : list Selection.SelectedAsset.

Let guids := Selection.getGuids selectedAssets.



End RemoveContact.


(** ** Ingesting the suggested classifications *)


Section Suggestions.
Import Curate.


End Suggestions.


(** ** The storage hierarchy *)

Section HierarchyMaps.

Lemma childrenAt_empty (k : string) : childrenAt ∅ k = [].
Proof. unfold childrenAt. by rewrite lookup_empty. Qed.

Lemma childrenAt_insert (m : gmap string (list Asset)) (k k' : string)
    (v : list Asset) :
  childrenAt (<[k := v]> m) k' = if decide (k = k') then v else childrenAt m k'.
Proof. unfold childrenAt. rewrite lookup_insert. by case_decide. Qed.

Lemma childrenAt_pushChild (m : gmap string (list Asset)) (k k' : string)
    (a : Asset) :
  childrenAt (pushChild m k a) k' =
    if decide (k = k') then childrenAt m k ++ [a] else childrenAt m k'.
Proof. unfold pushChild. apply childrenAt_insert. Qed.

Lemma levelRank_inj (lv lv' : Level) : levelRank lv = levelRank lv' -> lv = lv'.
Proof. by destruct lv, lv'. Qed.

(** The three tests of [renderStorageNode] pick the map of the child's
    level. *)
Lemma childChildrenOf_level (h : StorageHierarchy) (child : Asset) :
  childChildrenOf h child =
    childrenAt (childMapOf (levelOf child) h) (connection child).
Proof.
  unfold childChildrenOf, levelOf.
  destruct (String.eqb (assetType child) "Azure Storage Account"); [done|].
  destruct (String.eqb (assetType child) "Azure Blob Storage"); [done|].
  destruct (String.eqb (assetType child) "Azure Blob Container"); [done|].
  destruct (JsString.includes (assetType child) "File"
            || String.eqb (assetType child) "Azure Blob");
    simpl; by rewrite childrenAt_empty.
Qed.

(** [placeAsset] by the level of the asset. *)
Lemma placeAsset_level (h : StorageHierarchy) (asset : Asset) :
  placeAsset h asset =
    match levelOf asset with
    | LAccount =>
        mkHierarchy (accounts h ++ [asset])
                    (<[connection asset := []]> (accountChildren h))
                    (blobStorageChildren h) (containerChildren h)
    | LBlobStorage =>
        mkHierarchy (accounts h)
                    (pushChild (accountChildren h) (accountUrlOf (connection asset)) asset)
                    (<[connection asset := []]> (blobStorageChildren h))
                    (containerChildren h)
    | LContainer =>
        mkHierarchy (accounts h) (accountChildren h)
                    (pushChild (blobStorageChildren h) (parentUrl (connection asset)) asset)
                    (<[connection asset := []]> (containerChildren h))
    | LFile =>
        mkHierarchy (accounts h) (accountChildren h) (blobStorageChildren h)
                    (pushChild (containerChildren h) (parentUrl (connection asset)) asset)
    | LOther => h
    end.
Proof.
  unfold placeAsset, levelOf.
  destruct (String.eqb (assetType asset) "Azure Storage Account"); [done|].
  destruct (String.eqb (assetType asset) "Azure Blob Storage"); [done|].
  destruct (String.eqb (assetType asset) "Azure Blob Container"); [done|].
  by destruct (JsString.includes (assetType asset) "File"
               || String.eqb (assetType asset) "Azure Blob").
Qed.

(** One step of the loop, seen from the map of the level [lv] and the key
    [k]: an asset of level [lv] with path [k] empties the entry, an asset
    one level below with parent path [k] is appended to it, any other
    asset leaves it alone. *)
Lemma childrenAt_placeAsset (lv : Level) (h : StorageHierarchy) (x : Asset)
    (k : string) :
  levelRank lv <= 2 ->
  childrenAt (childMapOf lv (placeAsset h x)) k =
    if decide (levelOf x = lv /\ connection x = k) then []
    else if decide (levelRank (levelOf x) = S (levelRank lv) /\
                    parentPathOf x = Some k)
         then childrenAt (childMapOf lv h) k ++ [x]
         else childrenAt (childMapOf lv h) k.
Proof.
  intros Hlv. rewrite placeAsset_level. unfold parentPathOf.
  destruct lv, (levelOf x) eqn:Hx; simpl in Hlv |- *; try lia;
    rewrite ?childrenAt_insert, ?childrenAt_pushChild;
    repeat case_decide; try done; naive_solver.
Qed.

Lemma accounts_placeAsset (h : StorageHierarchy) (x : Asset) :
  accounts (placeAsset h x) =
    accounts h ++ (if decide (levelOf x = LAccount) then [x] else []).
Proof.
  rewrite placeAsset_level. destruct (levelOf x); simpl; by rewrite ?app_nil_r.
Qed.

Lemma buildStorageHierarchy_snoc (l : list Asset) (x : Asset) :
  buildStorageHierarchy (l ++ [x]) = placeAsset (buildStorageHierarchy l) x.
Proof. unfold buildStorageHierarchy. by rewrite fold_left_app. Qed.

Lemma build_accounts (l : list Asset) :
  accounts (buildStorageHierarchy l) = ofLevel LAccount l.
Proof.
  induction l as [|x l IH] using rev_ind; [done|].
  rewrite buildStorageHierarchy_snoc, accounts_placeAsset, IH.
  unfold ofLevel. rewrite filter_app. by f_equal.
Qed.

(** Whatever the order of the input, an entry of a map holds only assets
    of the input that are one level below and have the key as parent
    path. *)
Lemma build_children_sound (l : list Asset) (lv : Level) (k : string) (x : Asset) :
  x ∈ childrenAt (childMapOf lv (buildStorageHierarchy l)) k ->
  x ∈ childrenIn l lv k.
Proof.
  destruct (decide (levelRank lv <= 2)) as [Hlv|Hlv].
  2:{ destruct lv; simpl in Hlv; try lia; simpl; rewrite childrenAt_empty;
      by intros ?%elem_of_nil. }
  revert x. induction l as [|y l IH] using rev_ind; intros x.
  - destruct lv; simpl; rewrite childrenAt_empty; by intros ?%elem_of_nil.
  - rewrite buildStorageHierarchy_snoc, childrenAt_placeAsset by done.
    unfold childrenIn. rewrite filter_app, elem_of_app.
    repeat case_decide.
    + by intros ?%elem_of_nil.
    + rewrite elem_of_app. intros [Hx | ->%list_elem_of_singleton].
      * left. by apply IH.
      * right. rewrite filter_cons_True by done. by left.
    + intros Hx. left. by apply IH.
Qed.

(** As long as no asset of level [lv] with path [k] is in the input, the
    entry under [k] is never emptied: it holds every asset filed there. *)
Lemma build_children_unclaimed (l : list Asset) (lv : Level) (k : string) :
  levelRank lv <= 2 ->
  (forall y, y ∈ l -> ~ (levelOf y = lv /\ connection y = k)) ->
  childrenAt (childMapOf lv (buildStorageHierarchy l)) k = childrenIn l lv k.
Proof.
  intros Hlv. induction l as [|y l IH] using rev_ind; intros Hno.
  - destruct lv; simpl; by rewrite childrenAt_empty.
  - rewrite buildStorageHierarchy_snoc, childrenAt_placeAsset by done.
    unfold childrenIn. rewrite filter_app.
    assert (childrenAt (childMapOf lv (buildStorageHierarchy l)) k
            = childrenIn l lv k) as Hl.
    { apply IH. intros z Hz. apply Hno, elem_of_app. by left. }
    case_decide as Hy.
    + exfalso. apply (Hno y); [|done]. apply elem_of_app. right. by left.
    + case_decide.
      * rewrite filter_cons_True by done. by rewrite Hl.
      * rewrite filter_cons_False by done. by rewrite Hl, app_nil_r.
Qed.

(** With parents before children, an entry holds exactly the assets filed
    under its key. *)
Lemma build_children_ordered (l : list Asset) (lv : Level) (k : string) :
  levelRank lv <= 2 -> kindOrdered l ->
  childrenAt (childMapOf lv (buildStorageHierarchy l)) k = childrenIn l lv k.
Proof.
  intros Hlv. induction l as [|y l IH] using rev_ind; intros Hord.
  - destruct lv; simpl; by rewrite childrenAt_empty.
  - apply StronglySorted_app in Hord as (Hbefore & Hl & _).
    rewrite buildStorageHierarchy_snoc, childrenAt_placeAsset by done.
    unfold childrenIn. rewrite filter_app. fold (childrenIn l lv k).
    rewrite <- (IH Hl).
    case_decide as Hy.
    + destruct Hy as [Hy _].
      rewrite filter_cons_False by (rewrite Hy; lia).
      rewrite app_nil_r, (IH Hl). symmetry. apply elem_of_nil_inv.
      intros z [[Hz _] Hin]%list_elem_of_filter.
      specialize (Hbefore z y Hin). rewrite Hy in Hbefore.
      assert (y ∈ [y]) as Hyy by by left. specialize (Hbefore Hyy). lia.
    + case_decide.
      * by rewrite filter_cons_True.
      * rewrite filter_cons_False by done. by rewrite app_nil_r.
Qed.

End HierarchyMaps.

Lemma NoDup_fmap_inj_on {A B : Type} (f : A -> B) (l : list A) (x y : A) :
  NoDup (f <$> l) -> x ∈ l -> y ∈ l -> f x = f y -> x = y.
Proof.
  intros Hnd Hx Hy Hxy.
  induction l as [|z zs IH]; [by apply elem_of_nil in Hx|].
  rewrite fmap_cons in Hnd. apply NoDup_cons in Hnd as [Hz Hnd].
  apply elem_of_cons in Hx as [->|Hx]; apply elem_of_cons in Hy as [->|Hy].
  - done.
  - exfalso. apply Hz. rewrite Hxy. by apply list_elem_of_fmap_2.
  - exfalso. apply Hz. rewrite <- Hxy. by apply list_elem_of_fmap_2.
  - by apply IH.
Qed.

Section ParentChains.

Variable l : list Asset.

Lemma under_trans (a b e : Asset) : under l a b -> under l b e -> under l a e.
Proof.
  intros Hab Hbe. induction Hbe as [|p e _ IH Hpe]; [done|].
  by apply (under_child l a p e).
Qed.

Lemma under_elem (a e : Asset) : a ∈ l -> under l a e -> e ∈ l.
Proof. intros Ha [|p e' _ (_ & He & _)]; done. Qed.

Lemma under_rank (a e : Asset) :
  under l a e ->
  levelRank (levelOf a) <= levelRank (levelOf e) /\
  (levelRank (levelOf a) = levelRank (levelOf e) -> a = e).
Proof.
  induction 1 as [|p e _ [IHle _] (_ & _ & _ & Hrank)]; [done|].
  split; lia.
Qed.

(** A child has a level at most three: it is a blob storage, a container
    or a file. *)
Lemma parentIn_rank (p e : Asset) :
  parentIn l p e -> levelRank (levelOf p) <= 2.
Proof.
  intros (_ & _ & Hpath & Hrank). unfold parentPathOf in Hpath.
  destruct (levelOf e); simpl in Hrank; try done; lia.
Qed.

Lemma under_rank_bound (a e : Asset) :
  under l a e -> levelOf a = LAccount -> levelRank (levelOf e) <= 3.
Proof.
  intros [|p e' _ Hpe] Ha.
  - rewrite Ha. simpl. lia.
  - pose proof (parentIn_rank _ _ Hpe). destruct Hpe as (_ & _ & _ & Hrank). lia.
Qed.

Lemma childrenIn_parentIn (p e : Asset) :
  p ∈ l -> e ∈ childrenIn l (levelOf p) (connection p) -> parentIn l p e.
Proof. intros Hp [[Hrank Hpath] He]%list_elem_of_filter. by repeat split. Qed.

Lemma parentIn_childrenIn (p e : Asset) :
  parentIn l p e -> e ∈ childrenIn l (levelOf p) (connection p).
Proof. intros (_ & He & Hpath & Hrank). by apply list_elem_of_filter. Qed.

Hypothesis distinct : distinctParentPaths l.

Lemma parentIn_unique (p p' e : Asset) :
  parentIn l p e -> parentIn l p' e -> p = p'.
Proof.
  intros Hp Hp'. pose proof (parentIn_rank _ _ Hp) as Hbound.
  destruct Hp as (Hin & _ & Hpath & Hrank).
  destruct Hp' as (Hin' & _ & Hpath' & Hrank').
  assert (levelOf p' = levelOf p) as Hlevel by (apply levelRank_inj; lia).
  assert (connection p' = connection p) as Hconn by congruence.
  assert (NoDup (connection <$> ofLevel (levelOf p) l)) as Hnd.
  { destruct distinct as (HA & HB & HC).
    destruct (levelOf p); simpl in Hbound; try done; lia. }
  assert (p ∈ ofLevel (levelOf p) l) as Hp by by apply list_elem_of_filter.
  assert (p' ∈ ofLevel (levelOf p) l) as Hp' by by apply list_elem_of_filter.
  symmetry. by apply (NoDup_fmap_inj_on connection (ofLevel (levelOf p) l)).
Qed.

(** Two assets of one level above the same asset are one. *)
Lemma under_unique (a1 a2 e : Asset) :
  under l a1 e -> under l a2 e ->
  levelRank (levelOf a1) = levelRank (levelOf a2) -> a1 = a2.
Proof.
  intros H1. revert a2. induction H1 as [|p e H1 IH Hpe]; intros a2 H2 Hrank.
  - symmetry. by apply (under_rank a2 a1).
  - destruct H2 as [|p' e H2 Hpe'].
    + pose proof (under_rank _ _ H1) as [Hle _].
      destruct Hpe as (_ & _ & _ & Hr). lia.
    + rewrite <- (parentIn_unique _ _ _ Hpe Hpe') in H2. by apply IH.
Qed.

End ParentChains.

Section ForestFacts.

Variable l : list Asset.

Let h := buildStorageHierarchy l.

(** The assets drawn at and below [a], [d] levels deep. *)
Let subtree (d : nat) (a : Asset) : list Asset :=
  nodeAssets (renderStorageNode d h a (childChildrenOf h a)).

Lemma nodeAsset_render (d : nat) (a : Asset) (cs : list Asset) :
  nodeAsset (renderStorageNode d h a cs) = a.
Proof. by destruct d. Qed.

Lemma nodeAssets_render (d : nat) (a : Asset) (cs : list Asset) :
  nodeAssets (renderStorageNode (S d) h a cs) = a :: (cs ≫= subtree d).
Proof. simpl. f_equal. by rewrite list_fmap_bind. Qed.

Lemma subtree_O (a : Asset) : subtree 0 a = [a].
Proof. done. Qed.

Lemma subtree_S (d : nat) (a : Asset) :
  subtree (S d) a = a :: (childChildrenOf h a ≫= subtree d).
Proof. apply nodeAssets_render. Qed.

Lemma subtree_head (d : nat) (a : Asset) : a ∈ subtree d a.
Proof. destruct d; [rewrite subtree_O | rewrite subtree_S]; by left. Qed.

Lemma account_children (a : Asset) :
  a ∈ accounts h ->
  childrenAt (accountChildren h) (connection a) = childChildrenOf h a.
Proof.
  unfold h. rewrite build_accounts. intros [Ha _]%list_elem_of_filter.
  by rewrite childChildrenOf_level, Ha.
Qed.

Lemma forestAssets_forestAt (d : nat) :
  forestAssets (forestAt d h) = accounts h ≫= subtree d.
Proof.
  unfold forestAssets, forestAt. rewrite list_fmap_bind.
  apply Forall_bind_ext, Forall_forall. intros a Ha. simpl.
  by rewrite account_children.
Qed.

(** The children drawn below an asset of the input are its children in
    the input. *)
Lemma child_parentIn (p c : Asset) :
  p ∈ l -> c ∈ childChildrenOf h p -> parentIn l p c.
Proof.
  intros Hp Hc. rewrite childChildrenOf_level in Hc.
  apply build_children_sound in Hc. by apply childrenIn_parentIn.
Qed.

Lemma subtree_under (d : nat) (a e : Asset) :
  a ∈ l -> e ∈ subtree d a -> under l a e.
Proof.
  revert a. induction d as [|d IH]; intros a Ha.
  - rewrite subtree_O. intros ->%list_elem_of_singleton. constructor.
  - rewrite subtree_S. intros [->|He]%elem_of_cons; [constructor|].
    apply list_elem_of_bind in He as (c & He & Hc).
    pose proof (child_parentIn a c Ha Hc) as Hac.
    apply (under_trans l a c e).
    + by apply (under_child l a a c); [constructor|].
    + apply IH; [|done]. by destruct Hac as (_ & ? & _).
Qed.

Lemma subtree_child (d : nat) (a p e : Asset) :
  p ∈ subtree d a -> e ∈ childChildrenOf h p -> e ∈ subtree (S d) a.
Proof.
  revert a. induction d as [|d IH]; intros a Hp He.
  - rewrite subtree_O in Hp. apply list_elem_of_singleton in Hp as ->.
    rewrite subtree_S. right. apply list_elem_of_bind. exists e.
    split; [apply subtree_head | done].
  - rewrite subtree_S in Hp. apply elem_of_cons in Hp as [->|Hp].
    + rewrite subtree_S. right. apply list_elem_of_bind. exists e.
      split; [apply subtree_head | done].
    + apply list_elem_of_bind in Hp as (c & Hp & Hc).
      rewrite subtree_S. right. apply list_elem_of_bind. exists c.
      split; [by apply IH | done].
Qed.

(** Below a file (or an asset of no storage kind) nothing is drawn. *)
Lemma no_children_below_files (a : Asset) :
  3 <= levelRank (levelOf a) -> childChildrenOf h a = [].
Proof.
  intros Hrank. rewrite childChildrenOf_level.
  destruct (levelOf a); simpl in Hrank; try lia; apply childrenAt_empty.
Qed.

Lemma render_depth (d d' : nat) (a : Asset) :
  a ∈ l ->
  3 <= levelRank (levelOf a) + d -> 3 <= levelRank (levelOf a) + d' ->
  renderStorageNode d h a (childChildrenOf h a)
  = renderStorageNode d' h a (childChildrenOf h a).
Proof.
  revert d' a. induction d as [|d IH]; intros d' a Ha Hd Hd'.
  - rewrite no_children_below_files by lia. by destruct d'.
  - destruct d' as [|d'].
    + rewrite no_children_below_files by lia. done.
    + simpl. f_equal. apply Forall_fmap_ext_1, Forall_forall. intros c Hc.
      destruct (child_parentIn a c Ha Hc) as (_ & Hcl & _ & Hrank).
      apply IH; [done | lia | lia].
Qed.

(** Three levels below the accounts are all there is to draw. *)
Lemma forestAt_depth (d : nat) : 3 <= d -> forestAt d h = forestAt 3 h.
Proof.
  intros Hd. unfold forestAt. apply Forall_fmap_ext_1, Forall_forall.
  intros a Ha. rewrite account_children by done.
  apply render_depth; [|lia..].
  unfold h in Ha. rewrite build_accounts in Ha. by apply list_elem_of_filter in Ha as [_ ?].
Qed.

(** Every drawn asset is an asset of the input whose chain of parents
    leads up to an account, whatever the order of the input. *)
Lemma forest_sound (e : Asset) :
  e ∈ forestAssets (storageForest l) -> e ∈ l /\ attached l e.
Proof.
  unfold storageForest. fold h. rewrite forestAssets_forestAt.
  intros (a & He & Ha)%list_elem_of_bind.
  unfold h in Ha. rewrite build_accounts in Ha.
  apply list_elem_of_filter in Ha as [Hlevel Ha].
  pose proof (subtree_under 3 a e Ha He) as Hunder.
  split; [by apply (under_elem l a) | by exists a].
Qed.

Hypothesis ordered : kindOrdered l.

Lemma parentIn_child (p e : Asset) :
  parentIn l p e -> e ∈ childChildrenOf h p.
Proof.
  intros Hpe. rewrite childChildrenOf_level. unfold h.
  rewrite build_children_ordered; [|by apply (parentIn_rank l p e)|done].
  by apply parentIn_childrenIn.
Qed.

Lemma under_subtree (a e : Asset) :
  under l a e ->
  forall d, levelRank (levelOf e) <= levelRank (levelOf a) + d -> e ∈ subtree d a.
Proof.
  induction 1 as [|p e Hap IH Hpe]; intros d Hd; [apply subtree_head|].
  pose proof Hpe as (_ & _ & _ & Hrank).
  destruct d as [|d].
  - pose proof (under_rank l a p Hap) as [Hle _]. lia.
  - apply (subtree_child d a p e); [apply IH; lia | by apply parentIn_child].
Qed.

(** With parents before children, every asset of the input whose chain of
    parents leads up to an account is drawn. *)
Lemma forest_complete (e : Asset) :
  attached l e -> e ∈ forestAssets (storageForest l).
Proof.
  intros (a & Ha & Hlevel & Hunder).
  unfold storageForest. fold h. rewrite forestAssets_forestAt.
  apply list_elem_of_bind. exists a. split.
  - apply under_subtree; [done|].
    pose proof (under_rank_bound l a e Hunder Hlevel). lia.
  - unfold h. rewrite build_accounts. by apply list_elem_of_filter.
Qed.

Hypothesis distinct : distinctParentPaths l.
Hypothesis nodup : NoDup l.

Lemma children_NoDup (a : Asset) : NoDup (childChildrenOf h a).
Proof.
  rewrite childChildrenOf_level.
  destruct (decide (levelRank (levelOf a) <= 2)) as [Hrank|Hrank].
  - unfold h. rewrite build_children_ordered by done. by apply NoDup_filter.
  - destruct (levelOf a); simpl in Hrank; try lia; simpl;
      rewrite childrenAt_empty; constructor.
Qed.

Lemma subtree_NoDup (d : nat) (a : Asset) : a ∈ l -> NoDup (subtree d a).
Proof.
  revert a. induction d as [|d IH]; intros a Ha.
  - rewrite subtree_O. apply NoDup_singleton.
  - rewrite subtree_S. apply NoDup_cons. split.
    + intros (c & Hin & Hc)%list_elem_of_bind.
      destruct (child_parentIn a c Ha Hc) as (_ & Hcl & _ & Hrank).
      pose proof (subtree_under d c a Hcl Hin) as Hunder.
      apply under_rank in Hunder as [Hle _]. lia.
    + apply NoDup_bind.
      * intros c1 c2 e Hc1 Hc2 He1 He2.
        destruct (child_parentIn a c1 Ha Hc1) as (_ & Hl1 & _ & Hr1).
        destruct (child_parentIn a c2 Ha Hc2) as (_ & Hl2 & _ & Hr2).
        apply (under_unique l distinct c1 c2 e);
          [by apply (subtree_under d) | by apply (subtree_under d) | lia].
      * intros c Hc. apply IH.
        by destruct (child_parentIn a c Ha Hc) as (_ & ? & _).
      * apply children_NoDup.
Qed.

(** With parents before children and no path shared by two parents, no
    asset is drawn twice. *)
Lemma forest_NoDup : NoDup (forestAssets (storageForest l)).
Proof.
  unfold storageForest. fold h. rewrite forestAssets_forestAt.
  assert (forall a, a ∈ accounts h -> a ∈ l /\ levelOf a = LAccount) as Hacc.
  { intros a. unfold h. rewrite build_accounts.
    by intros [? ?]%list_elem_of_filter. }
  apply NoDup_bind.
  - intros a1 a2 e Ha1 Ha2 He1 He2.
    destruct (Hacc a1 Ha1) as [Hl1 Hv1]. destruct (Hacc a2 Ha2) as [Hl2 Hv2].
    apply (under_unique l distinct a1 a2 e);
      [by apply (subtree_under 3) | by apply (subtree_under 3) | by rewrite Hv1, Hv2].
  - intros a Ha. apply subtree_NoDup. by apply Hacc.
  - unfold h. rewrite build_accounts. by apply NoDup_filter.
Qed.

End ForestFacts.

(** ** The list the page hands to the hierarchy *)

Section PageGroups.

Lemma groupOf_groupPush (acc : list (string * list Asset)) (t t' : string) (a : Asset) :
  groupOf (groupPush acc t a) t' =
    if String.eqb t t' then groupOf acc t' ++ [a] else groupOf acc t'.
Proof.
  induction acc as [|[t0 g] acc IH]; simpl.
  - by destruct (String.eqb t t').
  - destruct (String.eqb_spec t0 t) as [->|Hne]; simpl.
    + by destruct (String.eqb t t').
    + rewrite IH. destruct (String.eqb_spec t0 t') as [->|Hne'].
      * by destruct (String.eqb_spec t t').
      * done.
Qed.

Lemma hasGroup_groupPush (acc : list (string * list Asset)) (t t' : string) (a : Asset) :
  hasGroup (groupPush acc t a) t' = hasGroup acc t' || String.eqb t t'.
Proof.
  unfold hasGroup. induction acc as [|[t0 g] acc IH]; simpl.
  - by rewrite orb_false_r.
  - destruct (String.eqb_spec t0 t) as [->|Hne]; simpl.
    + destruct (String.eqb t t'); simpl; [done | by rewrite orb_false_r].
    + rewrite IH. by rewrite orb_assoc.
Qed.

Lemma groupPush_elem (acc : list (string * list Asset)) (t : string) (a : Asset)
    (t' : string) (g' : list Asset) :
  (t', g') ∈ groupPush acc t a ->
  (t', g') ∈ acc \/
  (t' = t /\ (g' = [a] \/ exists g, (t, g) ∈ acc /\ g' = g ++ [a])).
Proof.
  induction acc as [|[t0 g] acc IH]; simpl.
  - intros [= -> ->]%list_elem_of_singleton. right. split; [done | by left].
  - destruct (String.eqb_spec t0 t) as [->|Hne].
    + intros [[= -> ->]|Hin]%elem_of_cons.
      * right. split; [done|]. right. exists g. split; [by left | done].
      * left. by right.
    + intros [[= -> ->]|Hin]%elem_of_cons; [left; by left|].
      destruct (IH Hin) as [Hacc | (-> & [-> | (g0 & Hg0 & ->)])].
      * left. by right.
      * right. split; [done | by left].
      * right. split; [done|]. right. exists g0. split; [by right | done].
Qed.

Lemma assetsByType_snoc (fa : list Asset) (a : Asset) :
  assetsByType (fa ++ [a]) = groupPush (assetsByType fa) (assetType a) a.
Proof. unfold assetsByType. by rewrite fold_left_app. Qed.

(** A group holds the assets of its type, in the order of the input. *)
Lemma groupOf_assetsByType (fa : list Asset) (t : string) :
  groupOf (assetsByType fa) t = filter (fun a => assetType a = t) fa.
Proof.
  induction fa as [|a fa IH] using rev_ind; [done|].
  rewrite assetsByType_snoc, groupOf_groupPush, filter_app, IH.
  destruct (String.eqb_spec (assetType a) t) as [Heq|Hne].
  - by rewrite filter_cons_True.
  - rewrite filter_cons_False by done. by rewrite app_nil_r.
Qed.

Lemma hasGroup_assetsByType (fa : list Asset) (t : string) (a : Asset) :
  a ∈ fa -> assetType a = t -> hasGroup (assetsByType fa) t = true.
Proof.
  induction fa as [|b fa IH] using rev_ind; [by intros ?%elem_of_nil|].
  rewrite assetsByType_snoc, hasGroup_groupPush.
  intros [Hin | ->%list_elem_of_singleton]%elem_of_app Ht.
  - by rewrite IH.
  - apply orb_true_iff. right. by apply String.eqb_eq.
Qed.

Lemma assetsByType_elem (fa : list Asset) (t : string) (g : list Asset) (a : Asset) :
  (t, g) ∈ assetsByType fa -> a ∈ g -> assetType a = t /\ a ∈ fa.
Proof.
  revert t g a. induction fa as [|b fa IH] using rev_ind; intros t g a.
  - by intros ?%elem_of_nil.
  - rewrite assetsByType_snoc. intros Hin Ha. rewrite elem_of_app.
    destruct (groupPush_elem _ _ _ _ _ Hin) as [Hacc | (-> & [-> | (g0 & Hg0 & ->)])].
    + destruct (IH t g a Hacc Ha) as [? ?]. by split; [|left].
    + apply list_elem_of_singleton in Ha as ->. split; [done | right; by left].
    + apply elem_of_app in Ha as [Ha | ->%list_elem_of_singleton].
      * destruct (IH _ g0 a Hg0 Ha) as [? ?]. by split; [|left].
      * split; [done | right; by left].
Qed.

Lemma levelOf_assetType (a b : Asset) : assetType a = assetType b -> levelOf a = levelOf b.
Proof. unfold levelOf. by intros ->. Qed.

Lemma kindOrdered_level (l : list Asset) (lv : Level) :
  Forall (fun a => levelOf a = lv) l -> kindOrdered l.
Proof.
  unfold kindOrdered. induction 1 as [|a l Ha Hl IH]; constructor; [done|].
  apply Forall_forall. intros b Hb. rewrite Forall_forall in Hl.
  by rewrite Ha, (Hl b Hb).
Qed.

Lemma kindOrdered_app (l1 l2 : list Asset) (r : nat) :
  kindOrdered l1 -> kindOrdered l2 ->
  Forall (fun a => levelRank (levelOf a) <= r) l1 ->
  Forall (fun a => r <= levelRank (levelOf a)) l2 ->
  kindOrdered (l1 ++ l2).
Proof.
  intros H1 H2 Hle Hge. apply StronglySorted_app. split_and!; [|done..].
  intros a b Ha Hb. rewrite Forall_forall in Hle, Hge.
  pose proof (Hle a Ha). pose proof (Hge b Hb). lia.
Qed.

Lemma group_level (fa : list Asset) (t : string) (lv : Level) :
  levelOf (mkAsset "" "" "" t "") = lv ->
  Forall (fun a => levelOf a = lv) (groupOf (assetsByType fa) t).
Proof.
  intros Hlv. rewrite groupOf_assetsByType. apply Forall_forall.
  intros a [Ht _]%list_elem_of_filter. rewrite <- Hlv.
  by apply levelOf_assetType.
Qed.

Lemma includes_File_level (a : Asset) :
  JsString.includes (assetType a) "File" = true -> levelOf a = LFile.
Proof.
  intros Hinc. unfold levelOf.
  destruct (String.eqb_spec (assetType a) "Azure Storage Account") as [E|_];
    [by rewrite E in Hinc|].
  destruct (String.eqb_spec (assetType a) "Azure Blob Storage") as [E|_];
    [by rewrite E in Hinc|].
  destruct (String.eqb_spec (assetType a) "Azure Blob Container") as [E|_];
    [by rewrite E in Hinc|].
  by rewrite Hinc.
Qed.

Lemma otherFiles_level (fa : list Asset) :
  Forall (fun a => levelOf a = LFile)
         (filter (fun tg => otherFileType (fst tg) = true) (assetsByType fa) ≫= snd).
Proof.
  apply Forall_forall. intros a ([t g] & Ha & [Hother Hin]%list_elem_of_filter)%list_elem_of_bind.
  simpl in Ha, Hother.
  destruct (assetsByType_elem fa t g a Hin Ha) as [<- _].
  apply includes_File_level.
  unfold otherFileType in Hother. by apply andb_true_iff in Hother as [? _].
Qed.

(** [allStorageAssets] lists parents before children. *)
Lemma allStorageAssets_kindOrdered (fa : list Asset) :
  kindOrdered (allStorageAssets (assetsByType fa)).
Proof.
  unfold allStorageAssets.
  pose proof (group_level fa "Azure Storage Account" LAccount eq_refl) as H0.
  pose proof (group_level fa "Azure Blob Storage" LBlobStorage eq_refl) as H1.
  pose proof (group_level fa "Azure Blob Container" LContainer eq_refl) as H2.
  pose proof (group_level fa "Azure Blob" LFile eq_refl) as H3.
  pose proof (group_level fa "CSV File" LFile eq_refl) as H4.
  pose proof (group_level fa "JSON File" LFile eq_refl) as H5.
  pose proof (group_level fa "PARQUET File" LFile eq_refl) as H6.
  pose proof (group_level fa "TXT File" LFile eq_refl) as H7.
  pose proof (group_level fa "XML File" LFile eq_refl) as H8.
  pose proof (otherFiles_level fa) as H9.
  assert (forall (l : list Asset) lv r,
            Forall (fun a => levelOf a = lv) l -> levelRank lv = r ->
            Forall (fun a => levelRank (levelOf a) <= r) l /\
            Forall (fun a => r <= levelRank (levelOf a)) l) as Hrank.
  { intros l lv r Hl <-. split; eapply Forall_impl; try exact Hl;
      intros a ->; lia. }
  set (files := groupOf (assetsByType fa) "Azure Blob" ++ _).
  assert (Forall (fun a => levelOf a = LFile) files) as Hfiles.
  { subst files. by repeat (apply Forall_app; split). }
  apply (kindOrdered_app _ _ 0);
    [by apply (kindOrdered_level _ LAccount) | | by apply (Hrank _ LAccount) |].
  2:{ apply Forall_app. split; [|apply Forall_app; split].
      - eapply Forall_impl; [exact H1|]. intros a ->. simpl. lia.
      - eapply Forall_impl; [exact H2|]. intros a ->. simpl. lia.
      - eapply Forall_impl; [exact Hfiles|]. intros a ->. simpl. lia. }
  apply (kindOrdered_app _ _ 1);
    [by apply (kindOrdered_level _ LBlobStorage) | | by apply (Hrank _ LBlobStorage) |].
  2:{ apply Forall_app. split.
      - eapply Forall_impl; [exact H2|]. intros a ->. simpl. lia.
      - eapply Forall_impl; [exact Hfiles|]. intros a ->. simpl. lia. }
  apply (kindOrdered_app _ _ 2);
    [by apply (kindOrdered_level _ LContainer)
    | by apply (kindOrdered_level _ LFile)
    | by apply (Hrank _ LContainer)
    | eapply Forall_impl; [exact Hfiles|]; intros a ->; simpl; lia].
Qed.

End PageGroups.

Lemma filter_all {A : Type} (P : A -> Prop) `{!forall x, Decision (P x)} (l : list A) :
  (forall x, x ∈ l -> P x) -> filter P l = l.
Proof.
  induction l as [|x l IH]; [done|]. intros Hall.
  rewrite filter_cons_True by (apply Hall; by left).
  f_equal. apply IH. intros y Hy. apply Hall. by right.
Qed.

(** ** The render pass: when it completes, and what it then gives *)

Section RenderFacts.

Lemma forEach_Done {S A : Type} (body : S -> A -> Render.Run S) (f : S -> A -> S)
    (l : list A) (s s' : S) :
  (forall s x s1, body s x = Render.Done s1 -> s1 = f s x) ->
  Render.forEach body l s = Render.Done s' -> s' = fold_left f l s.
Proof.
  intros Hbody. revert s. induction l as [|x l IH]; intros s; simpl.
  - by intros [= <-].
  - destruct (body s x) as [s1| |] eqn:Hb; simpl; [|done..].
    intros Hrun. apply Hbody in Hb as ->. by apply IH.
Qed.

Lemma forEach_completes {S A : Type} (body : S -> A -> Render.Run S) (P : A -> Prop)
    (l : list A) (s : S) :
  (forall s x, P x -> exists s1, body s x = Render.Done s1) ->
  Forall P l -> exists s', Render.forEach body l s = Render.Done s'.
Proof.
  intros Hbody Hall. revert s. induction Hall as [|x l Hx _ IH]; intros s; simpl.
  - by eexists.
  - destruct (Hbody s x Hx) as (s1 & ->). simpl. apply IH.
Qed.

Lemma pushChild_Done (m m' : gmap string (list Asset)) (k : string) (a : Asset) :
  Render.pushChild m k a = Render.Done m' -> m' = pushChild m k a.
Proof.
  unfold Render.pushChild, pushChild, childrenAt.
  destruct (m !! k) as [g|]; simpl; [by intros [= <-]|].
  destruct (Render.inherited k); [done|]. by intros [= <-].
Qed.

Lemma pushChild_completes (m : gmap string (list Asset)) (k : string) (a : Asset) :
  Render.inherited k = false -> exists m', Render.pushChild m k a = Render.Done m'.
Proof.
  intros Hk. unfold Render.pushChild. rewrite Hk. destruct (m !! k); by eexists.
Qed.

Lemma assignEmpty_Done (m m' : gmap string (list Asset)) (k : string) :
  Render.assignEmpty m k = Render.Done m' -> m' = <[k := []]> m.
Proof.
  unfold Render.assignEmpty. destruct (String.eqb k "__proto__"); [done|].
  by intros [= <-].
Qed.

(** When the body of the loop completes, the maps hold what [placeAsset]
    stores. *)
Lemma placeAsset_Done (h h' : StorageHierarchy) (a : Asset) :
  Render.placeAsset h a = Render.Done h' -> h' = placeAsset h a.
Proof.
  unfold Render.placeAsset, placeAsset.
  destruct (String.eqb (assetType a) "Azure Storage Account").
  { destruct (Render.assignEmpty _ _) as [ac| |] eqn:E1; simpl; [|done..].
    apply assignEmpty_Done in E1 as ->. by intros [= <-]. }
  destruct (String.eqb (assetType a) "Azure Blob Storage").
  { cbv zeta.
    destruct (Render.pushChild _ _ _) as [ac| |] eqn:E1; simpl; [|done..].
    destruct (Render.assignEmpty _ _) as [bc| |] eqn:E2; simpl; [|done..].
    apply pushChild_Done in E1 as ->. apply assignEmpty_Done in E2 as ->.
    by intros [= <-]. }
  destruct (String.eqb (assetType a) "Azure Blob Container").
  { cbv zeta.
    destruct (Render.pushChild _ _ _) as [bc| |] eqn:E1; simpl; [|done..].
    destruct (Render.assignEmpty _ _) as [cc| |] eqn:E2; simpl; [|done..].
    apply pushChild_Done in E1 as ->. apply assignEmpty_Done in E2 as ->.
    by intros [= <-]. }
  destruct (JsString.includes (assetType a) "File"
            || String.eqb (assetType a) "Azure Blob").
  { cbv zeta.
    destruct (Render.pushChild _ _ _) as [cc| |] eqn:E1; simpl; [|done..].
    apply pushChild_Done in E1 as ->. by intros [= <-]. }
  by intros [= <-].
Qed.

Lemma buildStorageHierarchy_Done (l : list Asset) (h : StorageHierarchy) :
  Render.buildStorageHierarchy l = Render.Done h -> h = buildStorageHierarchy l.
Proof. apply forEach_Done. intros s x s1. apply placeAsset_Done. Qed.

Lemma placeAsset_completes (h : StorageHierarchy) (a : Asset) :
  Render.ordinaryPath a = true -> exists h', Render.placeAsset h a = Render.Done h'.
Proof.
  unfold Render.ordinaryPath, parentPathOf, levelOf, Render.placeAsset,
    Render.assignEmpty.
  destruct (String.eqb (assetType a) "Azure Storage Account").
  { simpl. intros ->%negb_true_iff. by eexists. }
  destruct (String.eqb (assetType a) "Azure Blob Storage").
  { simpl. intros [Hk ->%negb_true_iff]%andb_true_iff.
    apply negb_true_iff in Hk.
    destruct (pushChild_completes (accountChildren h) _ a Hk) as (ac & ->).
    by eexists. }
  destruct (String.eqb (assetType a) "Azure Blob Container").
  { simpl. intros [Hk ->%negb_true_iff]%andb_true_iff.
    apply negb_true_iff in Hk.
    destruct (pushChild_completes (blobStorageChildren h) _ a Hk) as (bc & ->).
    by eexists. }
  destruct (JsString.includes (assetType a) "File"
            || String.eqb (assetType a) "Azure Blob").
  { simpl. intros [Hk _]%andb_true_iff. apply negb_true_iff in Hk.
    destruct (pushChild_completes (containerChildren h) _ a Hk) as (cc & ->).
    by eexists. }
  intros _. by eexists.
Qed.

(** The loop completes when every key it reads through a guard is an
    ordinary one. *)
Lemma buildStorageHierarchy_completes (l : list Asset) :
  Render.ordinaryPaths l = true ->
  Render.buildStorageHierarchy l = Render.Done (buildStorageHierarchy l).
Proof.
  intros Hall.
  destruct (forEach_completes Render.placeAsset
              (fun a => Render.ordinaryPath a = true) l emptyHierarchy)
    as (h & Hrun).
  - intros s x. apply placeAsset_completes.
  - apply Forall_forall. intros a Ha%list_elem_of_In.
    unfold Render.ordinaryPaths in Hall. rewrite forallb_forall in Hall. by apply Hall.
  - unfold Render.buildStorageHierarchy. rewrite Hrun. f_equal.
    by apply buildStorageHierarchy_Done.
Qed.

Lemma pushOwn_Some (acc acc' : list (string * list Asset)) (t : string) (a : Asset) :
  Render.pushOwn acc t a = Some acc' ->
  hasGroup acc t = true /\ acc' = groupPush acc t a.
Proof.
  revert acc'. induction acc as [|[t' g] acc IH]; intros acc'; [done|].
  unfold hasGroup in *. cbn [Render.pushOwn groupPush existsb fst].
  destruct (String.eqb t' t); [by intros [= <-]|].
  destruct (Render.pushOwn acc t a) as [acc1|]; [|done].
  intros [= <-]. destruct (IH acc1 eq_refl) as [-> ->]. done.
Qed.

Lemma pushOwn_None (acc : list (string * list Asset)) (t : string) (a : Asset) :
  Render.pushOwn acc t a = None ->
  hasGroup acc t = false /\ groupPush acc t a = acc ++ [(t, [a])].
Proof.
  induction acc as [|[t' g] acc IH]; [done|].
  unfold hasGroup in *. cbn [Render.pushOwn groupPush existsb fst].
  destruct (String.eqb t' t); [done|].
  destruct (Render.pushOwn acc t a) as [acc1|]; [done|].
  intros _. destruct (IH eq_refl) as [-> ->]. done.
Qed.

Lemma groupPush_Done (acc acc' : list (string * list Asset)) (t : string) (a : Asset) :
  Render.groupPush acc t a = Render.Done acc' -> acc' = groupPush acc t a.
Proof.
  unfold Render.groupPush.
  destruct (Render.pushOwn acc t a) as [acc1|] eqn:Hown.
  - intros [= <-]. by apply pushOwn_Some in Hown as [_ ->].
  - apply pushOwn_None in Hown as [_ ->].
    destruct (Render.inherited t); [done|]. by intros [= <-].
Qed.

(** When the reduction completes, the groups are those of [assetsByType]. *)
Lemma assetsByType_Done (fa : list Asset) (groups : list (string * list Asset)) :
  Render.assetsByType fa = Render.Done groups -> groups = assetsByType fa.
Proof.
  apply (forEach_Done _ (fun acc asset => groupPush acc (assetType asset) asset)).
  intros s x s1. apply groupPush_Done.
Qed.

Lemma assetsByType_completes (fa : list Asset) :
  Render.ordinaryTypes fa = true ->
  Render.assetsByType fa = Render.Done (assetsByType fa).
Proof.
  intros Hall.
  destruct (forEach_completes
              (fun acc asset => Render.groupPush acc (assetType asset) asset)
              (fun a => Render.inherited (assetType a) = false) fa [])
    as (groups & Hrun).
  - intros s x Hx. unfold Render.groupPush. rewrite Hx.
    destruct (Render.pushOwn s (assetType x) x); by eexists.
  - apply Forall_forall. intros a Ha%list_elem_of_In.
    unfold Render.ordinaryTypes in Hall. rewrite forallb_forall in Hall.
    apply negb_true_iff. by apply Hall.
  - unfold Render.assetsByType. rewrite Hrun. f_equal.
    by apply assetsByType_Done.
Qed.

(** The first asset whose type names an inherited member ends the
    reduction with a TypeError. *)
Lemma assetsByType_throws (fa : list Asset) :
  Render.ordinaryTypes fa = false -> Render.assetsByType fa = Render.TypeError.
Proof.
  unfold Render.assetsByType, Render.ordinaryTypes.
  assert (forall t, hasGroup [] t = true -> Render.inherited t = false) as Hinv by done.
  revert Hinv. generalize (@nil (string * list Asset)).
  induction fa as [|x fa IH]; intros acc Hinv; [done|].
  cbn [forallb Render.forEach]. unfold Render.groupPush at 1.
  destruct (Render.inherited (assetType x)) eqn:Hx; cbn [negb andb].
  - intros _. destruct (Render.pushOwn acc (assetType x) x) as [acc1|] eqn:Hown; [|done].
    apply pushOwn_Some in Hown as [Hhas _]. apply Hinv in Hhas. congruence.
  - intros Hrest.
    assert (exists acc1, match Render.pushOwn acc (assetType x) x with
                         | Some acc' => Render.Done acc'
                         | None => Render.Done (acc ++ [(assetType x, [x])])
                         end = Render.Done acc1 /\ acc1 = groupPush acc (assetType x) x)
      as (acc1 & -> & ->).
    { destruct (Render.pushOwn acc (assetType x) x) as [acc1|] eqn:Hown.
      - exists acc1. split; [done|]. by apply pushOwn_Some in Hown as [_ ->].
      - eexists. split; [done|]. by apply pushOwn_None in Hown as [_ ->]. }
    simpl. apply IH; [|done].
    intros t. rewrite hasGroup_groupPush.
    intros [Hhas | <-%String.eqb_eq]%orb_true_iff; [by apply Hinv | done].
Qed.

Lemma insertByIndex_Permutation (i : N) (e : string * list Asset)
    (sorted : list (N * (string * list Asset))) :
  Render.insertByIndex i e sorted ≡ₚ (i, e) :: sorted.
Proof.
  induction sorted as [|[j e'] rest IH]; [done|]. simpl.
  destruct (i <? j)%N; [done|]. rewrite IH. apply Permutation_swap.
Qed.

(** [Object.entries] lists every own key once. *)
Lemma objectEntries_Permutation (own : list (string * list Asset)) :
  Render.objectEntries own ≡ₚ own.
Proof.
  unfold Render.objectEntries.
  rewrite <- (filter_app_complement (fun e => Render.arrayIndex (fst e) = None) own) at 3.
  rewrite (Permutation_app_comm (filter _ own)).
  apply Permutation_app_tail.
  induction own as [|e own IH]; [done|]. cbn [foldr].
  destruct (Render.arrayIndex (fst e)) as [i|] eqn:He.
  - rewrite insertByIndex_Permutation, fmap_cons. cbn [snd].
    rewrite filter_cons_True by (rewrite He; by intros [=]).
    by rewrite IH.
  - rewrite filter_cons_False by (rewrite He; by intros Hn). exact IH.
Qed.

Lemma objectEntries_plain (own : list (string * list Asset)) :
  (forall e, e ∈ own -> Render.arrayIndex (fst e) = None) ->
  Render.objectEntries own = own.
Proof.
  intros Hplain. unfold Render.objectEntries.
  rewrite filter_all by done.
  assert (foldr (fun e sorted =>
                   match Render.arrayIndex (fst e) with
                   | Some i => Render.insertByIndex i e sorted
                   | None => sorted
                   end) [] own = []) as ->; [|done].
  induction own as [|e own IH]; [done|]. cbn [foldr].
  rewrite (Hplain e) by by left. apply IH. intros e' He'. apply Hplain. by right.
Qed.

Lemma mapRun_Done {A B : Type} (f : A -> Render.Run B) (g : A -> B)
    (l : list A) (ys : list B) :
  (forall x y, f x = Render.Done y -> y = g x) ->
  Render.mapRun f l = Render.Done ys -> ys = g <$> l.
Proof.
  intros Hf. revert ys. induction l as [|x l IH]; intros ys; simpl.
  - by intros [= <-].
  - destruct (f x) as [y| |] eqn:Hx; simpl; [|done..].
    destruct (Render.mapRun f l) as [ys'| |]; simpl; [|done..].
    intros [= <-]. apply Hf in Hx as ->. by rewrite (IH ys').
Qed.

Lemma mapRun_completes {A B : Type} (f : A -> Render.Run B) (l : list A) :
  (forall x, x ∈ l -> exists y, f x = Render.Done y) ->
  exists ys, Render.mapRun f l = Render.Done ys.
Proof.
  induction l as [|x l IH]; intros Hf; simpl; [by eexists|].
  destruct (Hf x) as (y & ->); [by left|].
  destruct IH as (ys & ->); [intros x' Hx'; apply Hf; by right|].
  by eexists.
Qed.

End RenderFacts.

(** ** What the storage forest holds *)

(** With parents before children, an asset filed under the path of an asset
    of the input is drawn as its child. *)
Lemma child_drawn_under_account (l : list Asset) (a b : Asset) :
  kindOrdered l -> a ∈ l -> b ∈ l ->
  levelOf a = LAccount -> levelOf b = LBlobStorage ->
  accountUrlOf (connection b) = connection a ->
  exists children,
    mkNode a children ∈ storageForest l /\ b ∈ nodeAsset <$> children.
Proof.
  intros Hord Ha Hb Hla Hlb Hurl.
  set (h := buildStorageHierarchy l).
  exists ((fun child => renderStorageNode 2 h child (childChildrenOf h child))
            <$> childrenAt (accountChildren h) (connection a)).
  split.
  - unfold storageForest, forestAt. fold h.
    apply (list_elem_of_fmap_2'
             (fun account =>
                renderStorageNode 3 h account
                  (childrenAt (accountChildren h) (connection account))) _ a);
      [|done].
    unfold h. rewrite build_accounts. by apply list_elem_of_filter.
  - rewrite <- list_fmap_compose.
    rewrite (Forall_fmap_ext_1 _ (fun c : Asset => c)).
    2:{ apply Forall_forall. intros c _. simpl. by destruct c. }
    rewrite list_fmap_id.
    change (accountChildren h) with (childMapOf LAccount h).
    unfold h. rewrite build_children_ordered; [|simpl; lia|done].
    apply list_elem_of_filter. split; [|done]. split.
    + by rewrite Hlb.
    + unfold parentPathOf. by rewrite Hlb, Hurl.
Qed.

(** C1. A page that shows a storage account together with a blob storage
    and a container of another account completes its render; the hierarchy
    card is handed all three assets and counts three; yet the only section
    drawn is the storage tree with the account alone, without children. The
    blob storage and the container are skipped from the type cards (as shown
    in the hierarchy, says the code) and are in no node of the forest. *)
Theorem stray_storage_assets_in_no_node :
  let shown := [Sample.account; Sample.strayBlobStorage; Sample.strayContainer] in
  Render.assetsByType shown = Render.Done (assetsByType shown) /\
  allStorageAssets (assetsByType shown) = shown /\
  length (allStorageAssets (assetsByType shown)) = 3 /\
  Render.page shown = Render.Done [StorageSection [mkNode Sample.account []]] /\
  forestAssets [mkNode Sample.account []] = [Sample.account].
Proof. cbv zeta. split_and!; by vm_compute. Qed.

(** A complete chain is drawn whole, each asset once. *)
Example complete_chain_drawn :
  storageForest [Sample.account; Sample.blobStorage; Sample.container; Sample.csvFile]
  = [mkNode Sample.account
       [mkNode Sample.blobStorage
          [mkNode Sample.container [mkNode Sample.csvFile []]]]].
Proof. by vm_compute. Qed.

(** Two accounts sharing a path are both drawn with the same blob storage
    below them. *)
Example shared_account_path_draws_twice :
  let twin := mkAsset "guid-9" "acct" "azure_storage_account"
                      "Azure Storage Account" "acct.core.windows.net" in
  forestAssets (storageForest [Sample.account; twin; Sample.blobStorage])
  = [Sample.account; Sample.blobStorage; twin; Sample.blobStorage].
Proof. by vm_compute. Qed.

(** An account listed after its blob storage empties the entry the blob
    storage was filed in. *)
Example late_account_loses_children :
  forestAssets (storageForest [Sample.blobStorage; Sample.account]) = [Sample.account].
Proof. by vm_compute. Qed.

(** What the forest holds when the loop completes, for an input that lists
    parents before children (as the page builds it), whose assets have
    distinct ids and in which no two accounts, no two blob storages and no
    two containers share a path: an asset is drawn exactly when it is an
    asset of the input whose chain of parent paths leads up to a storage
    account of the input, and no id is drawn twice. *)
Lemma forest_draws_attached_once (l : list Asset) (h : StorageHierarchy) :
  Render.buildStorageHierarchy l = Render.Done h ->
  kindOrdered l -> NoDup (id <$> l) -> distinctParentPaths l ->
  NoDup (id <$> forestAssets (forestAt 3 h)) /\
  (forall e, e ∈ forestAssets (forestAt 3 h) <-> e ∈ l /\ attached l e).
Proof.
  intros ->%buildStorageHierarchy_Done Hord Hids Hpaths.
  change (forestAt 3 (buildStorageHierarchy l)) with (storageForest l).
  assert (NoDup l) as Hnd by by apply (NoDup_fmap_1 id).
  split.
  - apply NoDup_fmap_2_strong; [|by apply forest_NoDup].
    intros x y Hx Hy Hxy.
    apply (NoDup_fmap_inj_on id l); [done| | |done].
    + by apply forest_sound in Hx as [? _].
    + by apply forest_sound in Hy as [? _].
  - intros e. split; [apply forest_sound|].
    intros [_ Hatt]. by apply forest_complete.
Qed.

(** C2. A page that shows a storage account and a container whose parent
    path (its path without the last segment) is the path of no asset shown:
    the loop completes and keeps the container in the map of the blob
    storages' children, under that parent path; but the forest holds the
    account alone, so the container is no top-level node and no node at all,
    and the only section of the page is that tree. *)
Theorem unmatched_container_is_no_node :
  let shown := [Sample.account; Sample.container] in
  parentPathOf Sample.container = Some "acct.blob.core.windows.net" /\
  Forall (fun p => connection p <> "acct.blob.core.windows.net") shown /\
  Render.buildStorageHierarchy shown = Render.Done (buildStorageHierarchy shown) /\
  childrenAt (blobStorageChildren (buildStorageHierarchy shown))
             "acct.blob.core.windows.net" = [Sample.container] /\
  forestAt 3 (buildStorageHierarchy shown) = [mkNode Sample.account []] /\
  Render.page shown = Render.Done [StorageSection [mkNode Sample.account []]].
Proof.
  cbv zeta. split_and!; try by vm_compute.
  repeat constructor; by vm_compute.
Qed.

(** When the loop completes, whatever the order of the input: an asset whose
    computed parent path is the path of no asset of the input is kept in the
    lookup map under that parent path, no node is drawn for it, and the
    top-level nodes of the forest are the storage accounts of the input. *)
Lemma unmatched_parent_kept_but_not_drawn (l : list Asset) (h : StorageHierarchy)
    (e : Asset) (k : string) :
  Render.buildStorageHierarchy l = Render.Done h ->
  e ∈ l ->
  parentPathOf e = Some k ->
  (forall p, p ∈ l -> connection p <> k) ->
  e ∈ childrenAt (childMapOf (parentLevelOf e) h) k /\
  ~ (e ∈ forestAssets (forestAt 3 h)) /\
  nodeAsset <$> forestAt 3 h = ofLevel LAccount l.
Proof.
  intros ->%buildStorageHierarchy_Done He Hpath Hnone.
  change (forestAt 3 (buildStorageHierarchy l)) with (storageForest l).
  split_and!.
  - assert (levelRank (parentLevelOf e) <= 2 /\
            levelRank (levelOf e) = S (levelRank (parentLevelOf e))) as [Hle Hrank].
    { unfold parentLevelOf, parentPathOf in *.
      destruct (levelOf e); simpl; try done; lia. }
    rewrite build_children_unclaimed; [|done|].
    + by apply list_elem_of_filter.
    + intros y Hy [_ Hk]. by apply (Hnone y).
  - intros Hdrawn. apply forest_sound in Hdrawn as [_ (a & Ha & Hlevel & Hunder)].
    destruct Hunder as [|p e _ (Hp & _ & Hpe & _)].
    + unfold parentPathOf in Hpath. by rewrite Hlevel in Hpath.
    + apply (Hnone p Hp). congruence.
  - unfold storageForest, forestAt. rewrite <- list_fmap_compose.
    rewrite (Forall_fmap_ext_1 _ (fun a : Asset => a)).
    + by rewrite list_fmap_id, build_accounts.
    + apply Forall_forall. by intros a _.
Qed.


(** * Further properties of the code *)

(** ** The selection set, over sequences of mutations *)

Section SelectionMoreFacts.
Import Selection.

Lemma hasId_app (i : string) (l1 l2 : list SelectedAsset) :
  hasId i (l1 ++ l2) = hasId i l1 || hasId i l2.
Proof. unfold hasId. apply existsb_app. Qed.

Lemma hasId_addAsset (j : string) (asset : SelectedAsset) (prev : list SelectedAsset) :
  hasId j (addAsset asset prev) = hasId j prev || String.eqb (id asset) j.
Proof.
  unfold addAsset. destruct (hasId (id asset) prev) eqn:Hhas.
  - destruct (String.eqb_spec (id asset) j) as [<-|Hne].
    + rewrite Hhas. done.
    + by rewrite orb_false_r.
  - rewrite hasId_app. simpl. by rewrite orb_false_r.
Qed.

Lemma hasId_removeAsset (j i : string) (prev : list SelectedAsset) :
  hasId j (removeAsset i prev) = hasId j prev && negb (String.eqb i j).
Proof.
  unfold removeAsset. induction prev as [|a prev IH]; [done|].
  destruct (decide (id a = i)) as [Heq|Hne].
  - rewrite filter_cons_False by (intros Hn; by apply Hn).
    rewrite IH. simpl. rewrite Heq.
    destruct (String.eqb i j); simpl; [by rewrite andb_false_r | done].
  - rewrite filter_cons_True by done. simpl. rewrite IH.
    destruct (String.eqb_spec (id a) j) as [Haj|Haj]; simpl; [|done].
    subst j. apply String.eqb_neq in Hne. rewrite String.eqb_sym in Hne.
    by rewrite Hne.
Qed.

Lemma removeAsset_absent (i : string) (prev : list SelectedAsset) :
  hasId i prev = false -> removeAsset i prev = prev.
Proof.
  intros Hno. unfold removeAsset.
  induction prev as [|a prev IH]; [done|].
  simpl in Hno. apply orb_false_iff in Hno as [Ha Hprev].
  apply String.eqb_neq in Ha.
  rewrite filter_cons_True by done. f_equal. by apply IH.
Qed.

Lemma removeAsset_guids_NoDup (i : string) (prev : list SelectedAsset) :
  NoDup (getGuids prev) -> NoDup (getGuids (removeAsset i prev)).
Proof.
  intros Hnd. eapply sublist_NoDup; [exact Hnd|].
  unfold getGuids, removeAsset. apply fmap_sublist, sublist_filter.
Qed.

End SelectionMoreFacts.

(** X1. Whatever sequence of [addAsset], [removeAsset] and [clearAll]
    calls the pages make, a selection that holds no id twice (the empty one,
    or one restored from storage in that state) never comes to hold an id
    twice: the guid list sent to the server names each asset once. *)
Theorem selection_ids_stay_distinct :
  forall (initial : list Selection.SelectedAsset) (ops : list SelectionOp),
    NoDup (Selection.getGuids initial) ->
    NoDup (Selection.getGuids (afterOps initial ops)).
Proof.
  intros initial ops. revert initial.
  induction ops as [|op ops IH]; intros initial Hnd; [done|].
  simpl. apply IH. destruct op as [asset|i|]; simpl.
  - by apply addAsset_guids_NoDup.
  - by apply removeAsset_guids_NoDup.
  - constructor.
Qed.

Lemma selection_ids_stay_distinct_witness :
  NoDup (Selection.getGuids
           (afterOps [Selection.mkSelected "a" "A" "file" None]
                     [OpAdd (Selection.mkSelected "b" "B" "file" None);
                      OpAdd (Selection.mkSelected "a" "A2" "table" None);
                      OpRemove "b";
                      OpAdd (Selection.mkSelected "b" "B" "file" None)])).
Proof.
  apply selection_ids_stay_distinct.
  apply (bool_decide_unpack _). vm_compute. reflexivity.
Defined.

(** X2. Removing an asset right after adding it gives back the selection as
    it was, provided its id was not selected before. The other order does not
    undo itself: for every selection, adding after removing leaves the other
    records in their order and puts the new record last, wherever a record
    with that id stood before and whatever it held. *)
Theorem removeAsset_undoes_addAsset :
  forall (asset : Selection.SelectedAsset) (prev : list Selection.SelectedAsset),
    (Selection.isSelected prev (Selection.id asset) = false ->
     Selection.removeAsset (Selection.id asset) (Selection.addAsset asset prev) = prev) /\
    Selection.addAsset asset (Selection.removeAsset (Selection.id asset) prev)
      = Selection.removeAsset (Selection.id asset) prev ++ [asset] /\
    Selection.removeAsset (Selection.id asset)
      (Selection.addAsset asset (Selection.removeAsset (Selection.id asset) prev))
      = Selection.removeAsset (Selection.id asset) prev.
Proof.
  intros asset prev.
  assert (Hgone : Selection.hasId (Selection.id asset)
                    (Selection.removeAsset (Selection.id asset) prev) = false).
  { rewrite hasId_removeAsset, String.eqb_refl. apply andb_false_r. }
  assert (Hundo : forall l, Selection.hasId (Selection.id asset) l = false ->
            Selection.removeAsset (Selection.id asset) (Selection.addAsset asset l) = l).
  { intros l Hno. unfold Selection.addAsset. rewrite Hno.
    unfold Selection.removeAsset. rewrite filter_app.
    rewrite filter_cons_False by (intros Hn; by apply Hn).
    rewrite filter_nil, app_nil_r. by apply removeAsset_absent. }
  split_and!.
  - apply Hundo.
  - unfold Selection.addAsset at 1. by rewrite Hgone.
  - by apply Hundo.
Qed.

Lemma removeAsset_undoes_addAsset_witness :
  let first := Selection.mkSelected "a" "A" "file" None in
  let second := Selection.mkSelected "b" "B" "file" None in
  let renamed := Selection.mkSelected "a" "A2" "table" None in
  Selection.addAsset renamed (Selection.removeAsset "a" [first; second])
    = [second; renamed].
Proof.
  intros first second renamed.
  destruct (removeAsset_undoes_addAsset renamed [first; second]) as (_ & Hmoved & _).
  exact Hmoved.
Defined.

(** X3. [removeAsset] takes out every record with the given id (also when a
    restored selection holds the id more than once), keeps every other record
    in place, and a removal of an id that is not selected changes nothing. *)
Theorem removeAsset_removes_exactly_that_id :
  forall (i : string) (prev : list Selection.SelectedAsset),
    Selection.isSelected (Selection.removeAsset i prev) i = false /\
    (forall a, a ∈ Selection.removeAsset i prev <-> a ∈ prev /\ Selection.id a <> i) /\
    Selection.removeAsset i prev `sublist_of` prev /\
    (Selection.isSelected prev i = false -> Selection.removeAsset i prev = prev).
Proof.
  intros i prev. split_and!.
  - unfold Selection.isSelected. rewrite hasId_removeAsset.
    rewrite String.eqb_refl. apply andb_false_r.
  - intros a. unfold Selection.removeAsset. rewrite list_elem_of_filter. tauto.
  - apply sublist_filter.
  - apply removeAsset_absent.
Qed.

(** ** Clicks on a tree node and on an asset card *)

(** X4. How a click on a node of the storage tree moves the membership of
    ids: the id of a node drawn without children flips (selected becomes
    unselected and back), every other id stays as it was, and a second click
    on a leaf that was not selected restores the selection. *)
Theorem handleSelect_flips_leaf_membership :
  forall (asset : Asset) (children : list Asset)
         (selectedAssets : list Selection.SelectedAsset) (j : string),
    Selection.isSelected (handleSelect asset [] selectedAssets) (id asset)
      = negb (Selection.isSelected selectedAssets (id asset)) /\
    (j <> id asset ->
       Selection.isSelected (handleSelect asset children selectedAssets) j
         = Selection.isSelected selectedAssets j) /\
    (Selection.isSelected selectedAssets (id asset) = false ->
       handleSelect asset [] (handleSelect asset [] selectedAssets) = selectedAssets).
Proof.
  intros asset children sel j.
  assert (Hflip : Selection.isSelected (handleSelect asset [] sel) (id asset)
                  = negb (Selection.isSelected sel (id asset))).
  { rewrite handleSelect_leaf. unfold Selection.isSelected.
    destruct (Selection.hasId (id asset) sel) eqn:Hhas.
    - rewrite hasId_removeAsset, String.eqb_refl. apply andb_false_r.
    - rewrite hasId_addAsset. simpl. rewrite String.eqb_refl. apply orb_true_r. }
  split_and!; [exact Hflip| |].
  - intros Hne. destruct children as [|c cs]; [|done].
    rewrite handleSelect_leaf. unfold Selection.isSelected.
    assert (String.eqb (id asset) j = false) as Hb.
    { apply String.eqb_neq. congruence. }
    destruct (Selection.hasId (id asset) sel).
    + rewrite hasId_removeAsset, Hb. apply andb_true_r.
    + rewrite hasId_addAsset. simpl. rewrite Hb. apply orb_false_r.
  - intros Hno. rewrite (handleSelect_leaf asset (handleSelect asset [] sel)).
    rewrite Hflip, Hno. cbn [negb].
    rewrite handleSelect_leaf, Hno.
    unfold Selection.isSelected in Hno.
    unfold Selection.addAsset. cbn [Selection.id]. rewrite Hno.
    unfold Selection.removeAsset. rewrite filter_app.
    rewrite filter_cons_False by (simpl; intros Hn; by apply Hn).
    rewrite filter_nil, app_nil_r. by apply removeAsset_absent.
Qed.

(** X5. The select button of an asset card does nothing when the card has
    no id (missing or empty); otherwise it flips the membership of the card's
    id and of no other id, whatever the asset is: the card has no leaf
    test. *)
Theorem assetCard_handleSelect_toggles :
  forall (props : AssetCard.Props) (selectedAssets : list Selection.SelectedAsset),
    (AssetCard.noId props = true ->
       AssetCard.handleSelect props selectedAssets = selectedAssets) /\
    (forall i, AssetCard.id props = Some i -> i <> "" ->
       Selection.isSelected (AssetCard.handleSelect props selectedAssets) i
         = negb (Selection.isSelected selectedAssets i) /\
       forall j, j <> i ->
         Selection.isSelected (AssetCard.handleSelect props selectedAssets) j
           = Selection.isSelected selectedAssets j).
Proof.
  intros props sel. unfold AssetCard.noId, AssetCard.handleSelect. split.
  - destruct (AssetCard.id props) as [i|]; [|done]. by intros ->.
  - intros i -> Hne. apply String.eqb_neq in Hne. rewrite Hne.
    unfold Selection.isSelected.
    destruct (Selection.hasId i sel) eqn:Hhas; split.
    + rewrite hasId_removeAsset, String.eqb_refl. apply andb_false_r.
    + intros j Hj. rewrite hasId_removeAsset.
      assert (String.eqb i j = false) as -> by (apply String.eqb_neq; congruence).
      apply andb_true_r.
    + rewrite hasId_addAsset. simpl. rewrite String.eqb_refl. apply orb_true_r.
    + intros j Hj. rewrite hasId_addAsset. simpl.
      assert (String.eqb i j = false) as -> by (apply String.eqb_neq; congruence).
      apply orb_false_r.
Qed.

(** X6. For an asset with an id, a click on its card and a click on its node
    in the storage tree, when the node is drawn without children, leave the
    same selection: the same record is added, or the same id removed. *)
Theorem card_and_leaf_click_agree :
  forall (asset : Asset) (selectedAssets : list Selection.SelectedAsset),
    id asset <> "" ->
    AssetCard.handleSelect (cardPropsOf asset) selectedAssets
      = handleSelect asset [] selectedAssets.
Proof.
  intros asset sel Hne. rewrite handleSelect_leaf.
  unfold AssetCard.handleSelect, cardPropsOf. simpl.
  apply String.eqb_neq in Hne. by rewrite Hne.
Qed.

Lemma card_and_leaf_click_agree_witness :
  AssetCard.handleSelect (cardPropsOf Sample.csvFile) [Sample.selected]
    = handleSelect Sample.csvFile [] [Sample.selected].
Proof.
  apply card_and_leaf_click_agree. vm_compute. discriminate.
Defined.

(** ** Normalising tags and classifications *)

Lemma keptString_Some (t : JsValue) (s : string) :
  keptString t = Some s <-> t = JsStr s /\ s <> "".
Proof.
  destruct t as [s'|items|b]; simpl; [|split; [done|by intros [? _]]..].
  destruct (String.eqb_spec s' "") as [->|Hne]; simpl.
  - split; [done|]. intros [[= ->] Hs]. done.
  - split; [by intros [= ->]|]. by intros [[= ->] _].
Qed.

(** X7. [parseArray] returns non-empty strings only, whatever the raw value
    is; from an array it keeps the non-empty strings in their order and drops
    everything else; and parsing its own result again changes nothing. *)
Theorem parseArray_keeps_nonempty_strings :
  forall (data : JsValue),
    Forall (fun s => s <> "") (parseArray data) /\
    (forall items, data = JsArr items ->
       (JsStr <$> parseArray data) `sublist_of` items /\
       forall s, s ∈ parseArray data <-> JsStr s ∈ items /\ s <> "") /\
    parseArray (JsArr (JsStr <$> parseArray data)) = parseArray data.
Proof.
  intros data.
  assert (Hne : Forall (fun s => s <> "") (parseArray data)).
  { unfold parseArray. destruct data as [s|items|b]; simpl.
    - destruct (String.eqb_spec s ""); simpl; [constructor|].
      by repeat constructor.
    - apply Forall_forall. intros s Hs.
      apply list_elem_of_omap in Hs as (t & _ & Ht).
      by apply keptString_Some in Ht as [_ Hs].
    - destruct b; constructor. }
  split_and!; [exact Hne| |].
  - intros items ->. clear Hne. unfold parseArray. simpl. split.
    + induction items as [|t items IH]; [done|]. simpl.
      destruct (keptString t) as [s|] eqn:Ht.
      * apply keptString_Some in Ht as [-> _]. apply sublist_skip, IH.
      * apply sublist_cons, IH.
    + intros s. rewrite list_elem_of_omap. split.
      * intros (t & Hin & Ht). apply keptString_Some in Ht as [-> Hs]. done.
      * intros [Hin Hs]. exists (JsStr s). split; [done|].
        by apply keptString_Some.
  - unfold parseArray at 1. simpl.
    induction Hne as [|s l Hs Hl IH]; [done|]. simpl.
    apply String.eqb_neq in Hs. rewrite Hs. simpl. by f_equal.
Qed.

(** ** The recent assets shown on the dashboard *)

Section RecentAssets.
Context {A : Type} (idOf : A -> string).

Lemma findById_Some (assets : list A) (i : string) (a : A) :
  findById idOf assets i = Some a -> a ∈ assets /\ idOf a = i.
Proof.
  unfold findById. intros Hf. apply find_some in Hf as [Hin Heq].
  split; [by apply list_elem_of_In | by apply String.eqb_eq].
Qed.

Lemma found_ids_sublist (assets : list A) (ids : list string) :
  (idOf <$> omap (findById idOf assets) ids) `sublist_of` ids.
Proof.
  induction ids as [|i ids IH]; [done|]. simpl.
  destruct (findById idOf assets i) as [a|] eqn:Hf.
  - apply findById_Some in Hf as [_ <-]. simpl. by constructor.
  - by constructor.
Qed.

End RecentAssets.

(** X8. The dashboard shows at most four recent assets; each is a loaded
    asset; their ids are recent ids, in the order of the recent list (ids
    whose asset is no longer loaded are passed over, not shown as gaps); no
    asset is shown twice when the recent list holds no id twice; and nothing
    is shown while the assets are not loaded. *)
Theorem recentAssets_shown :
  forall {A : Type} (idOf : A -> string) (recentAssetIds : list string)
         (assets : option (list A)),
    let shown := recentAssets idOf recentAssetIds assets in
    length shown <= 4 /\
    (forall a, a ∈ shown -> exists loaded, assets = Some loaded /\ a ∈ loaded) /\
    (idOf <$> shown) `sublist_of` recentAssetIds /\
    (NoDup recentAssetIds -> NoDup (idOf <$> shown)) /\
    (assets = None -> shown = []).
Proof.
  intros A idOf ids assets shown. subst shown. unfold recentAssets.
  destruct assets as [loaded|];
    [|split_and!; try done; [simpl; lia | by intros a Ha%elem_of_nil | apply sublist_nil_l | constructor]].
  destruct (Nat.ltb 0 (length ids));
    [|split_and!; try done; [simpl; lia | by intros a Ha%elem_of_nil | apply sublist_nil_l | constructor]].
  assert (Hsub : (idOf <$> take 4 (omap (findById idOf loaded) ids)) `sublist_of` ids).
  { etrans; [|apply (found_ids_sublist idOf loaded ids)].
    apply fmap_sublist, sublist_take. }
  split_and!.
  - rewrite length_take. lia.
  - intros a Ha. exists loaded. split; [done|].
    apply elem_of_take in Ha as (k & Ha & _).
    apply list_elem_of_lookup_2 in Ha.
    apply list_elem_of_omap in Ha as (i & _ & Hf).
    by apply findById_Some in Hf as [Hin _].
  - exact Hsub.
  - intros Hnd. by eapply sublist_NoDup.
  - done.
Qed.

(** X9. A click on the dashboard shows up at once: if the clicked id belongs
    to a loaded asset, the first of the recent assets shown after the click
    is the first loaded asset with that id, whatever the slot held before. *)
Theorem clicked_asset_shown_first :
  forall {A : Type} (idOf : A -> string) (assetId : string)
         (stored : StoredRecent) (loaded : list A) (a : A),
    findById idOf loaded assetId = Some a ->
    head (recentAssets idOf (readRecent (handleAssetClick assetId stored)) (Some loaded))
      = Some a.
Proof.
  intros A idOf assetId stored loaded a Hf.
  unfold handleAssetClick, recentAssets. simpl. rewrite Hf. done.
Qed.

Lemma clicked_asset_shown_first_witness :
  head (recentAssets id
          (readRecent (handleAssetClick "guid-4" (SlotList ["guid-1"; "guid-4"])))
          (Some [Sample.account; Sample.csvFile]))
    = Some Sample.csvFile.
Proof.
  apply clicked_asset_shown_first. reflexivity.
Defined.

(** ** The browse-by-type page: the groups, their order, the sections *)

Section GroupFacts.

Lemma groupPush_keys (acc : list (string * list Asset)) (t : string) (a : Asset) :
  fst <$> groupPush acc t a
  = if hasGroup acc t then fst <$> acc else (fst <$> acc) ++ [t].
Proof.
  induction acc as [|[t' g] acc IH]; [done|].
  unfold hasGroup in *. cbn [groupPush existsb fst].
  destruct (String.eqb_spec t' t); cbn [orb].
  - by rewrite !fmap_cons.
  - rewrite !fmap_cons, IH. cbn [fst]. by destruct (existsb _ acc).
Qed.

Lemma hasGroup_keys (groups : list (string * list Asset)) (t : string) :
  hasGroup groups t = true <-> t ∈ fst <$> groups.
Proof.
  unfold hasGroup. rewrite existsb_exists, list_elem_of_fmap. split.
  - intros (tg & Hin & Heq). exists tg. apply String.eqb_eq in Heq.
    split; [done | by apply list_elem_of_In].
  - intros (tg & -> & Hin). exists tg.
    split; [by apply list_elem_of_In | apply String.eqb_refl].
Qed.

Lemma assetsByType_keys_NoDup (fa : list Asset) : NoDup (fst <$> assetsByType fa).
Proof.
  induction fa as [|a fa IH] using rev_ind; [constructor|].
  rewrite assetsByType_snoc, groupPush_keys.
  destruct (hasGroup (assetsByType fa) (assetType a)) eqn:E; [done|].
  apply NoDup_app. split_and!; [done| |apply NoDup_singleton].
  intros t Ht ->%list_elem_of_singleton. apply hasGroup_keys in Ht. congruence.
Qed.

Lemma groupOf_elem (groups : list (string * list Asset)) (t : string) (g : list Asset) :
  NoDup (fst <$> groups) -> (t, g) ∈ groups -> groupOf groups t = g.
Proof.
  induction groups as [|[t' g'] groups IH]; [by intros _ ?%elem_of_nil|].
  rewrite fmap_cons.
  intros [Hnotin Hnd]%NoDup_cons [[= <- <-]|Hin]%elem_of_cons; simpl.
  - by rewrite String.eqb_refl.
  - destruct (String.eqb_spec t' t) as [->|Hne]; [|by apply IH].
    exfalso. apply Hnotin. apply list_elem_of_fmap. by exists (t, g).
Qed.

Lemma assetsByType_nonempty (fa : list Asset) (t : string) (g : list Asset) :
  (t, g) ∈ assetsByType fa -> g <> [].
Proof.
  revert t g. induction fa as [|a fa IH] using rev_ind;
    [by intros t g ?%elem_of_nil|].
  intros t g. rewrite assetsByType_snoc. intros Hin.
  destruct (groupPush_elem _ _ _ _ _ Hin) as [Hacc | (-> & [-> | (g0 & Hg0 & ->)])].
  - by eapply IH.
  - done.
  - by destruct g0.
Qed.

Lemma assetsByType_group (fa : list Asset) (t : string) (g : list Asset) :
  (t, g) ∈ assetsByType fa <-> g <> [] /\ g = filter (fun a => assetType a = t) fa.
Proof.
  split.
  - intros Hin. split; [by eapply assetsByType_nonempty|].
    rewrite <- groupOf_assetsByType. symmetry.
    apply groupOf_elem; [apply assetsByType_keys_NoDup | done].
  - intros [Hne ->].
    destruct (filter (fun a => assetType a = t) fa) as [|a rest] eqn:Hf; [done|].
    assert (a ∈ filter (fun a => assetType a = t) fa) as Ha by (rewrite Hf; by left).
    apply list_elem_of_filter in Ha as [Ht Ha].
    pose proof (hasGroup_assetsByType fa t a Ha Ht) as Hhas.
    apply hasGroup_keys, list_elem_of_fmap in Hhas as ([t' g'] & Heq & Hin).
    simpl in Heq. subst t'.
    assert (g' = a :: rest) as <-; [|done].
    rewrite <- Hf, <- groupOf_assetsByType. symmetry.
    apply groupOf_elem; [apply assetsByType_keys_NoDup | done].
Qed.

Context (P : string -> Prop) `{!forall t, Decision (P t)}.

Lemma groupPush_filter_bind (acc : list (string * list Asset)) (t : string) (a : Asset) :
  filter (fun tg => P (fst tg)) (groupPush acc t a) ≫= snd
  ≡ₚ (filter (fun tg => P (fst tg)) acc ≫= snd) ++ (if decide (P t) then [a] else []).
Proof.
  induction acc as [|[t' g] acc IH]; simpl.
  - destruct (decide (P t)).
    + rewrite filter_cons_True by done. by rewrite filter_nil.
    + rewrite filter_cons_False by done. by rewrite filter_nil.
  - destruct (String.eqb_spec t' t) as [->|Hne].
    + destruct (decide (P t)).
      * rewrite !filter_cons_True by done. rewrite !bind_cons. simpl.
        rewrite <- !app_assoc. apply Permutation_app_head, Permutation_app_comm.
      * rewrite !filter_cons_False by done. by rewrite app_nil_r.
    + destruct (decide (P t')).
      * rewrite !filter_cons_True by done. rewrite !bind_cons, IH. simpl.
        by rewrite <- app_assoc.
      * rewrite !filter_cons_False by done. apply IH.
Qed.

Lemma assetsByType_filter_bind (fa : list Asset) :
  filter (fun tg => P (fst tg)) (assetsByType fa) ≫= snd
  ≡ₚ filter (fun a => P (assetType a)) fa.
Proof.
  induction fa as [|a fa IH] using rev_ind; [done|].
  rewrite assetsByType_snoc, groupPush_filter_bind, filter_app, IH.
  apply Permutation_app_head.
  destruct (decide (P (assetType a))).
  - by rewrite filter_cons_True.
  - by rewrite filter_cons_False.
Qed.

End GroupFacts.

(** X10. The reduction that groups the assets by type ends in a TypeError
    when some asset's type names a member of [Object.prototype]. Otherwise
    it completes, and its groups split the assets: no type has two groups,
    no group is empty, the group of a type holds exactly the assets of that
    type in the order of the input, and the groups together hold every asset
    as often as the input does. *)
Theorem assetsByType_partitions :
  forall (filteredAssets : list Asset),
    (Render.ordinaryTypes filteredAssets = false ->
       Render.assetsByType filteredAssets = Render.TypeError) /\
    (Render.ordinaryTypes filteredAssets = true ->
       exists groups,
         Render.assetsByType filteredAssets = Render.Done groups /\
         NoDup (fst <$> groups) /\
         (forall t g, (t, g) ∈ groups <->
                      g <> [] /\ g = filter (fun a => assetType a = t) filteredAssets) /\
         groups ≫= snd ≡ₚ filteredAssets).
Proof.
  intros fa. split; [apply assetsByType_throws|].
  intros Hplain. exists (assetsByType fa). split_and!.
  - by apply assetsByType_completes.
  - apply assetsByType_keys_NoDup.
  - apply assetsByType_group.
  - pose proof (assetsByType_filter_bind (fun _ => True) fa) as Hperm.
    cbn beta in Hperm. by rewrite !filter_all in Hperm.
Qed.

Section SortedTypes.

(** The order of the page: an entry never has fewer assets than a later
    one. *)
Let byCount (e e' : string * list Asset) : Prop :=
  length (snd e') <= length (snd e).

Lemma insertByCount_Permutation (e : string * list Asset)
    (sorted : list (string * list Asset)) :
  insertByCount e sorted ≡ₚ e :: sorted.
Proof.
  induction sorted as [|e' rest IH]; [done|]. simpl.
  destruct (Nat.ltb (length (snd e)) (length (snd e'))); [|done].
  rewrite IH. apply Permutation_swap.
Qed.

Lemma insertByCount_sorted (e : string * list Asset)
    (sorted : list (string * list Asset)) :
  StronglySorted byCount sorted -> StronglySorted byCount (insertByCount e sorted).
Proof.
  induction sorted as [|e' rest IH]; intros Hs; simpl.
  - by repeat constructor.
  - apply StronglySorted_cons in Hs as [Hall Hrest].
    destruct (Nat.ltb_spec (length (snd e)) (length (snd e'))) as [Hlt|Hge].
    + apply StronglySorted_cons. split; [|by apply IH].
      rewrite insertByCount_Permutation. constructor; [|done].
      unfold byCount. lia.
    + apply StronglySorted_cons. split; [|by apply StronglySorted_cons].
      constructor; [done|].
      eapply Forall_impl; [exact Hall|]. unfold byCount. intros x Hx. simpl in *. lia.
Qed.

Lemma insertByCount_filter (n : nat) (e : string * list Asset)
    (sorted : list (string * list Asset)) :
  filter (fun x => length (snd x) = n) (insertByCount e sorted)
  = filter (fun x => length (snd x) = n) (e :: sorted).
Proof.
  induction sorted as [|e' rest IH]; [done|]. simpl.
  destruct (Nat.ltb_spec (length (snd e)) (length (snd e'))) as [Hlt|Hge]; [|done].
  destruct (decide (length (snd e') = n)) as [He'|He'].
  - rewrite (filter_cons_True _ e') by done. rewrite IH.
    rewrite !(filter_cons_False _ e) by lia.
    by rewrite filter_cons_True.
  - rewrite (filter_cons_False _ e') by done. rewrite IH.
    destruct (decide (length (snd e) = n)).
    + rewrite !(filter_cons_True _ e) by done. by rewrite filter_cons_False.
    + rewrite !(filter_cons_False _ e) by done. by rewrite filter_cons_False.
Qed.

Lemma sortedTypes_Permutation (groups : list (string * list Asset)) :
  sortedTypes groups ≡ₚ groups.
Proof.
  induction groups as [|e groups IH]; [done|]. unfold sortedTypes in *. simpl.
  by rewrite insertByCount_Permutation, IH.
Qed.

Lemma sortedTypes_sorted (groups : list (string * list Asset)) :
  StronglySorted byCount (sortedTypes groups).
Proof.
  induction groups as [|e groups IH]; [constructor|].
  unfold sortedTypes in *. simpl. by apply insertByCount_sorted.
Qed.

Lemma sortedTypes_stable (n : nat) (groups : list (string * list Asset)) :
  filter (fun x => length (snd x) = n) (sortedTypes groups)
  = filter (fun x => length (snd x) = n) groups.
Proof.
  induction groups as [|e groups IH]; [done|].
  unfold sortedTypes in *. simpl. rewrite insertByCount_filter.
  destruct (decide (length (snd e) = n)).
  - rewrite !(filter_cons_True _ e) by done. by rewrite IH.
  - rewrite !(filter_cons_False _ e) by done. by rewrite IH.
Qed.

End SortedTypes.

(** X11. The page lists the same groups that the grouping made, each once;
    a group never has fewer assets than a group listed after it; and groups
    with the same number of assets stay in the order in which their types
    first occur in the input. *)
Theorem sortedTypes_by_descending_count :
  forall (groups : list (string * list Asset)),
    sortedTypes groups ≡ₚ groups /\
    StronglySorted (fun e e' => length (snd e') <= length (snd e)) (sortedTypes groups) /\
    (forall n, filter (fun x => length (snd x) = n) (sortedTypes groups)
               = filter (fun x => length (snd x) = n) groups).
Proof.
  intros groups. split_and!.
  - apply sortedTypes_Permutation.
  - apply sortedTypes_sorted.
  - intros n. apply sortedTypes_stable.
Qed.

Section PageSections.

Lemma cardAssets_sections (groups sorted : list (string * list Asset)) :
  cardAssets (omap (sectionOf groups) sorted)
  = filter (fun tg => isStorageType (fst tg) = false) sorted ≫= snd.
Proof.
  induction sorted as [|[t g] sorted IH]; [done|].
  cbn [omap list_omap]. unfold sectionOf at 1. cbn [fst snd].
  destruct (isStorageType t) eqn:Hst; cbn [andb].
  - rewrite filter_cons_False by (cbn [fst]; congruence).
    destruct (String.eqb t "Azure Storage Account"); [|exact IH].
    unfold cardAssets in *. rewrite bind_cons. exact IH.
  - rewrite filter_cons_True by done.
    unfold cardAssets in *. rewrite !bind_cons. cbn [snd]. by rewrite <- IH.
Qed.

Lemma typeSection_elem (groups sorted : list (string * list Asset))
    (t : string) (g : list Asset) :
  TypeSection t g ∈ omap (sectionOf groups) sorted
  <-> (t, g) ∈ sorted /\ isStorageType t = false.
Proof.
  rewrite list_elem_of_omap. split.
  - intros ([t' g'] & Hin & Hs). unfold sectionOf in Hs. cbn [fst snd] in Hs.
    destruct (isStorageType t') eqn:Hst; cbn [andb] in Hs.
    + by destruct (String.eqb t' "Azure Storage Account").
    + by injection Hs as -> ->.
  - intros [Hin Hst]. exists (t, g). split; [done|].
    unfold sectionOf. cbn [fst snd]. by rewrite Hst.
Qed.

Lemma storageSection_elem (groups sorted : list (string * list Asset))
    (forest : list Node) :
  StorageSection forest ∈ omap (sectionOf groups) sorted
  <-> hasGroup sorted "Azure Storage Account" = true /\
      forest = storageForest (allStorageAssets groups).
Proof.
  rewrite list_elem_of_omap, hasGroup_keys, list_elem_of_fmap. split.
  - intros ([t' g'] & Hin & Hs). unfold sectionOf in Hs. cbn [fst snd] in Hs.
    destruct (isStorageType t') eqn:Hst; cbn [andb] in Hs; [|done].
    destruct (String.eqb_spec t' "Azure Storage Account") as [->|Hne]; [|done].
    injection Hs as <-. split; [|done]. by exists ("Azure Storage Account", g').
  - intros [([t' g'] & Heq & Hin) ->]. cbn [fst] in Heq. subst t'.
    exists ("Azure Storage Account", g'). split; [done|]. reflexivity.
Qed.

End PageSections.

(** X13. A storage asset whose type is not a file type is drawn in no type
    card; so when the assets hold no storage account, a blob storage or a
    container among them is drawn nowhere on the page. *)
Theorem storage_types_without_account_not_drawn :
  forall (filteredAssets : list Asset) (e : Asset),
    (forall a, a ∈ filteredAssets -> assetType a <> "Azure Storage Account") ->
    isStorageType (assetType e) = true ->
    forall s, s ∈ pageSections filteredAssets ->
      exists t g, s = TypeSection t g /\ ~ (e ∈ g).
Proof.
  intros fa e Hno Hst s Hs. destruct s as [forest|t g].
  - exfalso. unfold pageSections in Hs. cbn zeta in Hs.
    apply storageSection_elem in Hs as [Hhas _].
    apply hasGroup_keys, list_elem_of_fmap in Hhas as ([t g] & Heq & Hin).
    cbn [fst] in Heq. subst t. rewrite sortedTypes_Permutation in Hin.
    destruct g as [|a g]; [by eapply assetsByType_nonempty|].
    destruct (assetsByType_elem fa _ _ a Hin) as [Ht Ha]; [by left|].
    by apply (Hno a).
  - exists t, g. split; [done|]. intros He.
    unfold pageSections in Hs. cbn zeta in Hs.
    apply typeSection_elem in Hs as [Hin Hnst].
    rewrite sortedTypes_Permutation in Hin.
    destruct (assetsByType_elem fa _ _ e Hin He) as [Ht _]. congruence.
Qed.

Lemma storage_types_without_account_not_drawn_witness :
  exists t g, TypeSection "CSV File" [Sample.csvFile] = TypeSection t g /\
              ~ (Sample.container ∈ g).
Proof.
  apply (storage_types_without_account_not_drawn
           [Sample.container; Sample.csvFile] Sample.container).
  - intros a Ha. apply elem_of_cons in Ha as [->|Ha]; [discriminate|].
    apply list_elem_of_singleton in Ha as ->. discriminate.
  - reflexivity.
  - vm_compute. apply list_elem_of_here.
Defined.

Lemma filter_app_disjoint {A : Type} (P Q : A -> Prop)
    `{!forall x, Decision (P x)} `{!forall x, Decision (Q x)} (l : list A) :
  (forall x, P x -> Q x -> False) ->
  filter P l ++ filter Q l ≡ₚ filter (fun x => P x \/ Q x) l.
Proof.
  intros Hdis. induction l as [|x l IH]; [done|].
  destruct (decide (P x)) as [Hp|Hp]; destruct (decide (Q x)) as [Hq|Hq].
  - by destruct (Hdis x).
  - rewrite (filter_cons_True P), (filter_cons_False Q) by done.
    rewrite (filter_cons_True (fun x => P x \/ Q x)) by by left.
    simpl. by rewrite IH.
  - rewrite (filter_cons_False P), (filter_cons_True Q) by done.
    rewrite (filter_cons_True (fun x => P x \/ Q x)) by by right.
    rewrite <- Permutation_middle. by rewrite IH.
  - rewrite (filter_cons_False P), (filter_cons_False Q) by done.
    rewrite (filter_cons_False (fun x => P x \/ Q x)) by tauto.
    exact IH.
Qed.

Lemma storage_kind_types (a : Asset) :
  (assetType a = "Azure Storage Account" \/
   assetType a = "Azure Blob Storage" \/
   assetType a = "Azure Blob Container" \/
   assetType a = "Azure Blob" \/
   assetType a = "CSV File" \/
   assetType a = "JSON File" \/
   assetType a = "PARQUET File" \/
   assetType a = "TXT File" \/
   assetType a = "XML File" \/
   otherFileType (assetType a) = true)
  <-> levelOf a <> LOther.
Proof.
  split.
  - intros H.
    repeat (destruct H as [H|H];
            [unfold levelOf; rewrite H; by vm_compute|]).
    unfold otherFileType in H. apply andb_true_iff in H as [H _].
    by rewrite (includes_File_level a H).
  - unfold levelOf, otherFileType.
    destruct (String.eqb_spec (assetType a) "Azure Storage Account"); [tauto|].
    destruct (String.eqb_spec (assetType a) "Azure Blob Storage"); [tauto|].
    destruct (String.eqb_spec (assetType a) "Azure Blob Container"); [tauto|].
    destruct (String.eqb_spec (assetType a) "Azure Blob"); [tauto|].
    rewrite orb_false_r.
    destruct (JsString.includes (assetType a) "File"); [|done].
    intros _. unfold namedFileTypes. cbn [existsb andb].
    destruct (String.eqb_spec (assetType a) "CSV File"); [tauto|].
    destruct (String.eqb_spec (assetType a) "JSON File"); [tauto|].
    destruct (String.eqb_spec (assetType a) "PARQUET File"); [tauto|].
    destruct (String.eqb_spec (assetType a) "TXT File"); [tauto|].
    destruct (String.eqb_spec (assetType a) "XML File"); [tauto|].
    do 9 right. reflexivity.
Qed.

(** [allStorageAssets] of the groups of [fa] holds the assets of [fa] that
    [placeAsset] has a branch for, each as often as [fa] does. *)
Lemma allStorageAssets_Permutation (fa : list Asset) :
  allStorageAssets (assetsByType fa) ≡ₚ filter (fun a => levelOf a <> LOther) fa.
Proof.
  unfold allStorageAssets. rewrite !groupOf_assetsByType.
  pose proof (assetsByType_filter_bind (fun t => otherFileType t = true) fa) as Hother.
  cbn beta in Hother. rewrite Hother. clear Hother.
  rewrite <- (list_filter_iff _ _ fa (storage_kind_types)).
  repeat (rewrite filter_app_disjoint;
          [|intros x Hp Hq;
            repeat (destruct Hq as [Hq|Hq]; [rewrite Hp in Hq; discriminate Hq|]);
            rewrite Hp in Hq; (discriminate Hq || (by vm_compute in Hq))]).
  done.
Qed.

(** X14. When the grouping completes, the list the page hands to
    [buildStorageHierarchy] holds exactly the assets that the hierarchy has
    a place for (accounts, blob storages, containers, blobs and files of any
    file type), each as often as the input has it, and lists parents before
    children. *)
Theorem allStorageAssets_are_the_placeable_assets :
  forall (filteredAssets : list Asset) (groups : list (string * list Asset)),
    Render.assetsByType filteredAssets = Render.Done groups ->
    allStorageAssets groups ≡ₚ filter (fun a => levelOf a <> LOther) filteredAssets /\
    kindOrdered (allStorageAssets groups).
Proof.
  intros fa groups ->%assetsByType_Done.
  split; [apply allStorageAssets_Permutation | apply allStorageAssets_kindOrdered].
Qed.

Lemma allStorageAssets_are_the_placeable_assets_witness :
  let shown := [Sample.csvFile; Sample.container; Sample.account; Sample.blobStorage] in
  let listed := [Sample.account; Sample.blobStorage; Sample.container; Sample.csvFile] in
  listed ≡ₚ filter (fun a => levelOf a <> LOther) shown /\ kindOrdered listed.
Proof.
  intros shown listed.
  apply (allStorageAssets_are_the_placeable_assets shown
           [("CSV File", [Sample.csvFile]);
            ("Azure Blob Container", [Sample.container]);
            ("Azure Storage Account", [Sample.account]);
            ("Azure Blob Storage", [Sample.blobStorage])]).
  reflexivity.
Defined.

(** ** One render of the page *)

Section PageRuns.

Lemma mapRun_Done_each {A B : Type} (f : A -> Render.Run B) (l : list A) (ys : list B) :
  Render.mapRun f l = Render.Done ys ->
  forall x, x ∈ l -> exists y, f x = Render.Done y.
Proof.
  revert ys. induction l as [|x l IH]; intros ys; simpl.
  - by intros _ x' ?%elem_of_nil.
  - destruct (f x) as [y| |] eqn:Hx; simpl; [|done..].
    destruct (Render.mapRun f l) as [ys'| |] eqn:Hl; simpl; [|done..].
    intros _ x' [->|Hx']%elem_of_cons; [by exists y | by eapply IH].
Qed.

Lemma sectionOf_Done (groups : list (string * list Asset)) (entry : string * list Asset)
    (drawn : option PageSection) :
  Render.sectionOf groups entry = Render.Done drawn -> drawn = sectionOf groups entry.
Proof.
  unfold Render.sectionOf, sectionOf. cbv zeta.
  destruct (isStorageType (fst entry) && String.eqb (fst entry) "Azure Storage Account").
  - destruct (Render.buildStorageHierarchy (allStorageAssets groups)) as [h| |] eqn:Hb;
      simpl; [|done..].
    apply buildStorageHierarchy_Done in Hb as ->. by intros [= <-].
  - destruct (isStorageType (fst entry)); by intros [= <-].
Qed.

Lemma omap_id_fmap {A B : Type} (f : A -> option B) (l : list A) :
  omap (fun s => s) (f <$> l) = omap f l.
Proof.
  induction l as [|x l IH]; [done|]. cbn [fmap list_fmap omap list_omap].
  destruct (f x); by rewrite <- IH.
Qed.

(** When the render completes, the sections are those of [pageSections], in
    the order in which [Object.entries] and the sort put the groups. *)
Lemma page_Done (fa : list Asset) (sections : list PageSection) :
  Render.page fa = Render.Done sections ->
  Render.assetsByType fa = Render.Done (assetsByType fa) /\
  sections = omap (sectionOf (assetsByType fa))
                  (sortedTypes (Render.objectEntries (assetsByType fa))) /\
  sections ≡ₚ pageSections fa.
Proof.
  unfold Render.page.
  destruct (Render.assetsByType fa) as [groups| |] eqn:Hg; simpl; [|done..].
  apply assetsByType_Done in Hg as ->.
  destruct (Render.mapRun _ _) as [drawn| |] eqn:Hm; simpl; [|done..].
  intros [= <-].
  apply (mapRun_Done _ (sectionOf (assetsByType fa))) in Hm;
    [|intros x y; apply sectionOf_Done].
  subst drawn. rewrite omap_id_fmap. split_and!; [done..|].
  unfold pageSections. cbv zeta.
  by rewrite !sortedTypes_Permutation, objectEntries_Permutation.
Qed.

Lemma allStorageAssets_elem (fa : list Asset) (a : Asset) :
  a ∈ allStorageAssets (assetsByType fa) -> a ∈ fa.
Proof.
  rewrite allStorageAssets_Permutation. by intros [_ ?]%list_elem_of_filter.
Qed.

(** The render completes when no type and no key read through a guard
    names an inherited member. *)
Lemma page_completes (fa : list Asset) :
  Render.ordinaryTypes fa = true -> Render.ordinaryPaths fa = true ->
  exists sections, Render.page fa = Render.Done sections.
Proof.
  intros Htypes Hpaths. unfold Render.page.
  rewrite (assetsByType_completes fa Htypes). simpl.
  destruct (mapRun_completes (Render.sectionOf (assetsByType fa))
              (sortedTypes (Render.objectEntries (assetsByType fa))))
    as (drawn & ->); [|by eexists].
  intros entry _. unfold Render.sectionOf. cbv zeta.
  destruct (isStorageType (fst entry) && String.eqb (fst entry) "Azure Storage Account").
  - rewrite buildStorageHierarchy_completes; [by eexists|].
    unfold Render.ordinaryPaths in *. rewrite forallb_forall in Hpaths |- *.
    intros a Ha%list_elem_of_In. apply Hpaths.
    by apply list_elem_of_In, allStorageAssets_elem.
  - destruct (isStorageType (fst entry)); by eexists.
Qed.

(** The storage slot of a completed render called [buildStorageHierarchy],
    and it completed. *)
Lemma page_Done_build (fa : list Asset) (sections : list PageSection) :
  Render.page fa = Render.Done sections ->
  hasGroup (assetsByType fa) "Azure Storage Account" = true ->
  Render.buildStorageHierarchy (allStorageAssets (assetsByType fa))
  = Render.Done (buildStorageHierarchy (allStorageAssets (assetsByType fa))).
Proof.
  intros Hpage Hhas. unfold Render.page in Hpage.
  destruct (page_Done fa sections Hpage) as (Hg & _ & _). rewrite Hg in Hpage.
  simpl in Hpage.
  destruct (Render.mapRun _ _) as [drawn| |] eqn:Hm; simpl in Hpage; [|done..].
  apply hasGroup_keys, list_elem_of_fmap in Hhas as ([t g] & Heq & Hin).
  cbn [fst] in Heq. subst t.
  destruct (mapRun_Done_each _ _ _ Hm ("Azure Storage Account", g)) as (y & Hy).
  { by rewrite sortedTypes_Permutation, objectEntries_Permutation. }
  unfold Render.sectionOf in Hy. cbn in Hy.
  destruct (Render.buildStorageHierarchy _) as [h| |] eqn:Hb; [|done..].
  f_equal. by apply buildStorageHierarchy_Done.
Qed.

End PageRuns.

(** X12. What the browse-by-type page draws. The render completes when no
    asset's type, and no key under which an asset is filed, names a member of
    [Object.prototype] (and no parent's path is [__proto__]). When it
    completes: the type cards hold exactly the assets whose type name
    contains neither "Azure Storage" nor "Azure Blob", each as often as the
    input has it, so a file of a type such as "CSV File" has its card whether
    or not it is also in the storage tree; the cards are the groups of those
    types; and the storage tree is a section of the page exactly when there
    is a group of storage accounts, and is then the forest of the hierarchy
    built from the storage assets. *)
Theorem page_cards_and_tree :
  forall (filteredAssets : list Asset),
    (Render.ordinaryTypes filteredAssets = true ->
     Render.ordinaryPaths filteredAssets = true ->
     exists sections, Render.page filteredAssets = Render.Done sections) /\
    (forall sections,
       Render.page filteredAssets = Render.Done sections ->
       exists groups,
         Render.assetsByType filteredAssets = Render.Done groups /\
         cardAssets sections
           ≡ₚ filter (fun a => isStorageType (assetType a) = false) filteredAssets /\
         (forall t g, TypeSection t g ∈ sections <->
                      (t, g) ∈ groups /\ isStorageType t = false) /\
         (forall forest, StorageSection forest ∈ sections <->
            hasGroup groups "Azure Storage Account" = true /\
            exists h, Render.buildStorageHierarchy (allStorageAssets groups) = Render.Done h /\
                      forest = forestAt 3 h)).
Proof.
  intros fa. split; [apply page_completes|].
  intros sections Hpage. exists (assetsByType fa).
  destruct (page_Done fa sections Hpage) as (Hgroups & _ & Hperm).
  split_and!; [done| | |].
  - transitivity (cardAssets (pageSections fa));
      [unfold cardAssets; by rewrite Hperm|].
    unfold pageSections. cbv zeta.
    rewrite cardAssets_sections, sortedTypes_Permutation.
    pose proof (assetsByType_filter_bind (fun t => isStorageType t = false) fa) as Hcards.
    exact Hcards.
  - intros t g. rewrite Hperm. unfold pageSections. cbv zeta.
    rewrite typeSection_elem. by rewrite sortedTypes_Permutation.
  - intros forest. rewrite Hperm. unfold pageSections. cbv zeta.
    rewrite storageSection_elem.
    assert (hasGroup (sortedTypes (assetsByType fa)) "Azure Storage Account"
            = hasGroup (assetsByType fa) "Azure Storage Account") as ->.
    { apply eq_true_iff_eq. rewrite !hasGroup_keys.
      by rewrite sortedTypes_Permutation. }
    split.
    + intros [Hhas ->]. split; [done|].
      exists (buildStorageHierarchy (allStorageAssets (assetsByType fa))).
      split; [by eapply page_Done_build | done].
    + intros [Hhas (h & Hb & ->)]. split; [done|].
      by apply buildStorageHierarchy_Done in Hb as ->.
Qed.

(** When the render completes, with a storage account whose path is
    [acct.core.windows.net] and a blob storage whose path is
    [acct.blob.core.windows.net] among the assets shown, the storage tree is
    drawn and the blob storage is a child of the account's node: the blob
    storage's path, its suffix rewritten, is the key under which the
    account's children are kept. *)
Lemma blobStorage_drawn_under_storageAccount (fa : list Asset)
    (sections : list PageSection) (account blobStorage : Asset) :
  Render.page fa = Render.Done sections ->
  account ∈ fa -> blobStorage ∈ fa ->
  assetType account = "Azure Storage Account" ->
  connection account = "acct.core.windows.net" ->
  assetType blobStorage = "Azure Blob Storage" ->
  connection blobStorage = "acct.blob.core.windows.net" ->
  exists forest children,
    StorageSection forest ∈ sections /\
    mkNode account children ∈ forest /\
    blobStorage ∈ nodeAsset <$> children.
Proof.
  intros Hpage Ha Hb Hta Hca Htb Hcb.
  destruct (page_Done fa sections Hpage) as (_ & _ & Hperm).
  set (l := allStorageAssets (assetsByType fa)).
  assert (account ∈ l) as Hal.
  { subst l. unfold allStorageAssets. apply elem_of_app. left.
    rewrite groupOf_assetsByType. by apply list_elem_of_filter. }
  assert (blobStorage ∈ l) as Hbl.
  { subst l. unfold allStorageAssets. apply elem_of_app. right.
    apply elem_of_app. left.
    rewrite groupOf_assetsByType. by apply list_elem_of_filter. }
  destruct (child_drawn_under_account l account blobStorage)
    as (children & Hnode & Hchild).
  - apply allStorageAssets_kindOrdered.
  - done.
  - done.
  - unfold levelOf. by rewrite Hta.
  - unfold levelOf. by rewrite Htb.
  - by rewrite Hcb, Hca.
  - exists (storageForest l), children. split_and!; [|done..].
    rewrite Hperm. unfold pageSections. cbv zeta. apply storageSection_elem.
    split; [|done]. apply hasGroup_keys. rewrite sortedTypes_Permutation.
    apply hasGroup_keys. by apply (hasGroup_assetsByType fa _ account).
Qed.

(** ** The nodes of the storage tree *)

Lemma childrenIn_below_files (l : list Asset) (lv : Level) (k : string) :
  3 <= levelRank lv -> childrenIn l lv k = [].
Proof.
  intros Hrank. apply elem_of_nil_inv. intros x Hx.
  apply list_elem_of_filter in Hx as [[Hr Hp] _].
  unfold parentPathOf in Hp.
  destruct (levelOf x), lv; simpl in *; try lia; done.
Qed.

Section DrawnNodes.

Variable l : list Asset.

Let h := buildStorageHierarchy l.

(** Every node drawn at or below [a] is the drawing of an asset [b] of the
    input, with as many levels left to draw as [b] is above the deepest
    level reached from [a]. *)
Lemma subnodes_render (d : nat) (a : Asset) (n : Node) :
  a ∈ l ->
  n ∈ subnodes (renderStorageNode d h a (childChildrenOf h a)) ->
  exists d' b, n = renderStorageNode d' h b (childChildrenOf h b) /\
    b ∈ l /\ levelRank (levelOf b) + d' = levelRank (levelOf a) + d.
Proof.
  revert a. induction d as [|d IH]; intros a Ha Hn.
  - simpl in Hn. apply list_elem_of_singleton in Hn as ->. by exists 0, a.
  - cbn [renderStorageNode subnodes] in Hn. apply elem_of_cons in Hn as [->|Hn].
    + by exists (S d), a.
    + apply list_elem_of_bind in Hn as (cn & Hn & Hcn).
      apply list_elem_of_fmap in Hcn as (c & -> & Hc).
      pose proof (child_parentIn l a c Ha Hc) as (_ & Hcl & _ & Hrank).
      destruct (IH c Hcl Hn) as (d' & b & -> & Hb & Hd').
      exists d', b. split_and!; [done..|]. lia.
Qed.

Lemma render_children (d : nat) (a : Asset) (cs : list Asset) :
  nodeAsset <$> nodeChildren (renderStorageNode (S d) h a cs) = cs.
Proof.
  cbn [renderStorageNode nodeChildren]. rewrite <- list_fmap_compose.
  rewrite <- (list_fmap_id cs) at 2. apply list_fmap_ext.
  intros i c _. simpl. by destruct d.
Qed.

(** A drawn node shows an asset of the input, and below it what the maps
    hold for that asset. *)
Lemma drawn_node (n : Node) :
  n ∈ storageForest l ≫= subnodes ->
  nodeAsset n ∈ l /\
  nodeAsset <$> nodeChildren n = childChildrenOf h (nodeAsset n).
Proof.
  intros Hn. apply list_elem_of_bind in Hn as (root & Hn & Hroot).
  unfold storageForest, forestAt in Hroot.
  apply list_elem_of_fmap in Hroot as (acct & -> & Hacct).
  rewrite (account_children l acct Hacct) in Hn.
  rewrite build_accounts in Hacct.
  apply list_elem_of_filter in Hacct as [Hlevel Hacct].
  destruct (subnodes_render 3 acct n Hacct Hn) as (d' & b & -> & Hb & Hd').
  rewrite Hlevel in Hd'. simpl in Hd'.
  destruct d' as [|d'].
  - simpl. split; [done|]. symmetry. apply (no_children_below_files l). lia.
  - rewrite render_children. split; [|done]. by destruct d'.
Qed.

Section Expanded.

Variable expandedNodes : gset string.

Lemma renderVisible_all (d : nat) (a : Asset) (cs : list Asset) :
  (forall x, x ∈ l -> id x ∈ expandedNodes) ->
  a ∈ l -> (forall c, c ∈ cs -> c ∈ l) ->
  renderVisible expandedNodes d h a cs = renderStorageNode d h a cs.
Proof.
  intros Hall. revert a cs. induction d as [|d IH]; intros a cs Ha Hcs; [done|].
  cbn [renderVisible renderStorageNode].
  rewrite bool_decide_eq_true_2 by by apply Hall.
  f_equal. apply list_fmap_ext. intros i c Hc.
  apply list_elem_of_lookup_2 in Hc. apply IH; [by apply Hcs|].
  intros c' Hc'. by destruct (child_parentIn l c c' (Hcs c Hc) Hc') as (_ & ? & _).
Qed.

Lemma nodeAssets_renderVisible (d : nat) (a : Asset) (cs : list Asset) :
  nodeAssets (renderVisible expandedNodes d h a cs)
    `sublist_of` nodeAssets (renderStorageNode d h a cs).
Proof.
  revert a cs. induction d as [|d IH]; intros a cs; [done|].
  cbn [renderVisible renderStorageNode nodeAssets]. apply sublist_skip.
  destruct (bool_decide (id a ∈ expandedNodes)); [|apply sublist_nil_l].
  induction cs as [|c cs IHcs]; [done|].
  rewrite !fmap_cons, !bind_cons. by apply sublist_app.
Qed.

Lemma renderVisible_collapsed (d : nat) (a : Asset) (cs : list Asset) (n : Node) :
  n ∈ subnodes (renderVisible expandedNodes d h a cs) ->
  ~ (id (nodeAsset n) ∈ expandedNodes) -> nodeChildren n = [].
Proof.
  revert a cs. induction d as [|d IH]; intros a cs Hn Hcollapsed.
  - simpl in Hn. by apply list_elem_of_singleton in Hn as ->.
  - cbn [renderVisible subnodes] in Hn. apply elem_of_cons in Hn as [->|Hn].
    + simpl in *. by rewrite bool_decide_eq_false_2.
    + destruct (bool_decide (id a ∈ expandedNodes)); [|by apply elem_of_nil in Hn].
      apply list_elem_of_bind in Hn as (cn & Hn & Hcn).
      apply list_elem_of_fmap in Hcn as (c & -> & Hc).
      by eapply IH.
Qed.

End Expanded.

End DrawnNodes.

(** X15. Whatever the order of the input, every node of the storage tree
    shows an asset of the input, and every node drawn directly below it shows
    an asset filed under that asset's path, one level further down: the tree
    draws no link that the qualified paths do not give. *)
Theorem drawn_links_are_parent_links :
  forall (l : list Asset) (n c : Node),
    n ∈ storageForest l ≫= subnodes ->
    c ∈ nodeChildren n ->
    nodeAsset n ∈ l /\ parentIn l (nodeAsset n) (nodeAsset c).
Proof.
  intros l n c Hn Hc. destruct (drawn_node l n Hn) as [Hin Hchildren].
  split; [done|]. apply child_parentIn; [done|].
  rewrite <- Hchildren. apply list_elem_of_fmap. by exists c.
Qed.

Lemma drawn_links_are_parent_links_witness :
  let l := [Sample.account; Sample.blobStorage; Sample.container; Sample.csvFile] in
  let file := mkNode Sample.csvFile [] in
  let folder := mkNode Sample.container [file] in
  nodeAsset folder ∈ l /\ parentIn l (nodeAsset folder) (nodeAsset file).
Proof.
  intros l file folder.
  apply (drawn_links_are_parent_links l folder file).
  - vm_compute. do 2 apply list_elem_of_further. apply list_elem_of_here.
  - vm_compute. apply list_elem_of_here.
Defined.

(** X16. When the input lists parents before children (as the page's list
    does), the nodes drawn directly below a node are exactly the assets filed
    under its path, in the order of the input. *)
Theorem drawn_children_in_input_order :
  forall (l : list Asset) (n : Node),
    kindOrdered l ->
    n ∈ storageForest l ≫= subnodes ->
    nodeAsset <$> nodeChildren n
      = childrenIn l (levelOf (nodeAsset n)) (connection (nodeAsset n)).
Proof.
  intros l n Hord Hn. destruct (drawn_node l n Hn) as [_ ->].
  rewrite childChildrenOf_level.
  destruct (decide (levelRank (levelOf (nodeAsset n)) <= 2)) as [Hle|Hgt].
  - by apply build_children_ordered.
  - rewrite childrenIn_below_files by lia.
    destruct (levelOf (nodeAsset n)); simpl in Hgt; try lia; apply childrenAt_empty.
Qed.

Lemma drawn_children_in_input_order_witness :
  let l := [Sample.account; Sample.blobStorage; Sample.container; Sample.csvFile] in
  let folder := mkNode Sample.container [mkNode Sample.csvFile []] in
  nodeAsset <$> nodeChildren folder
    = childrenIn l (levelOf (nodeAsset folder)) (connection (nodeAsset folder)).
Proof.
  intros l folder. apply (drawn_children_in_input_order l folder).
  - apply (bool_decide_unpack _). vm_compute. reflexivity.
  - vm_compute. do 2 apply list_elem_of_further. apply list_elem_of_here.
Defined.

(** X17. Three levels below the accounts are all that the recursion of
    [renderStorageNode] ever reaches: drawing with any greater depth gives
    the same forest. *)
Theorem storageForest_needs_no_deeper_recursion :
  forall (l : list Asset) (d : nat),
    3 <= d -> forestAt d (buildStorageHierarchy l) = storageForest l.
Proof.
  intros l d Hd. by apply forestAt_depth.
Qed.

Lemma storageForest_needs_no_deeper_recursion_witness :
  forestAt 7 (buildStorageHierarchy
                [Sample.account; Sample.blobStorage; Sample.container; Sample.csvFile])
  = storageForest [Sample.account; Sample.blobStorage; Sample.container; Sample.csvFile].
Proof.
  apply storageForest_needs_no_deeper_recursion. lia.
Defined.

(** ** Expanding and collapsing *)

Lemma toggleNode_elem (nodeId : string) (prev : gset string) (j : string) :
  j ∈ toggleNode nodeId prev <->
  (j = nodeId /\ ~ (nodeId ∈ prev)) \/ (j <> nodeId /\ j ∈ prev).
Proof.
  unfold toggleNode. destruct (decide (nodeId ∈ prev)) as [Hin|Hnotin].
  - rewrite elem_of_difference, elem_of_singleton. naive_solver.
  - rewrite elem_of_union, elem_of_singleton.
    destruct (decide (j = nodeId)); naive_solver.
Qed.

(** X18. With the storage card open, the tree that is visible for a set of
    expanded nodes is a part of the fully expanded tree, in its order; it is
    the fully expanded tree when every asset is expanded; a node that is not
    expanded has nothing drawn below it; and, when the loop of
    [buildStorageHierarchy] completes, with nothing expanded (the state the
    page starts in) what is drawn is the accounts of the hierarchy, which
    are the storage accounts of the input. *)
Theorem visibleForest_within_storageForest :
  forall (expandedNodes : gset string) (l : list Asset),
    forestAssets (visibleForest expandedNodes l)
      `sublist_of` forestAssets (storageForest l) /\
    ((forall a, a ∈ l -> id a ∈ expandedNodes) ->
       visibleForest expandedNodes l = storageForest l) /\
    (forall n, n ∈ visibleForest expandedNodes l ≫= subnodes ->
               ~ (id (nodeAsset n) ∈ expandedNodes) -> nodeChildren n = []) /\
    (forall h, Render.buildStorageHierarchy l = Render.Done h ->
               forestAssets (visibleForest ∅ l) = accounts h /\
               accounts h = ofLevel LAccount l).
Proof.
  intros E l. split_and!.
  - unfold visibleForest, storageForest, forestAt, forestAssets. cbn zeta.
    induction (accounts (buildStorageHierarchy l)) as [|a accts IH]; [done|].
    rewrite !fmap_cons, !bind_cons. apply sublist_app; [|exact IH].
    apply nodeAssets_renderVisible.
  - intros Hall. unfold visibleForest, storageForest, forestAt. cbn zeta.
    apply list_fmap_ext. intros i a Ha. apply list_elem_of_lookup_2 in Ha.
    rewrite (account_children l a Ha).
    rewrite build_accounts in Ha. apply list_elem_of_filter in Ha as [_ Ha].
    apply renderVisible_all; [done..|].
    intros c Hc. by destruct (child_parentIn l a c Ha Hc) as (_ & ? & _).
  - intros n Hn Hcollapsed.
    apply list_elem_of_bind in Hn as (root & Hn & Hroot).
    unfold visibleForest in Hroot. cbn zeta in Hroot.
    apply list_elem_of_fmap in Hroot as (a & -> & _).
    by eapply renderVisible_collapsed.
  - intros h ->%buildStorageHierarchy_Done. split; [|apply build_accounts].
    unfold visibleForest, forestAssets. cbn zeta.
    induction (accounts (buildStorageHierarchy l)) as [|a accts IH]; [done|].
    rewrite fmap_cons, bind_cons, IH. cbn [renderVisible nodeAssets].
    rewrite bool_decide_eq_false_2 by set_solver. done.
Qed.

(** X19. [toggleNode] (and [toggleType], the same updater) flips the
    membership of the given id and of no other; toggling twice restores the
    set; and once an expanded node is toggled, nothing is drawn below it. *)
Theorem toggleNode_flips_one_id :
  forall (nodeId : string) (prev : gset string),
    (forall j, j ∈ toggleNode nodeId prev <->
               (j = nodeId /\ ~ (nodeId ∈ prev)) \/ (j <> nodeId /\ j ∈ prev)) /\
    toggleNode nodeId (toggleNode nodeId prev) = prev /\
    (nodeId ∈ prev ->
     forall l n, n ∈ visibleForest (toggleNode nodeId prev) l ≫= subnodes ->
                 id (nodeAsset n) = nodeId -> nodeChildren n = []).
Proof.
  intros nodeId prev. split_and!.
  - apply toggleNode_elem.
  - apply set_eq. intros j. rewrite !toggleNode_elem.
    destruct (decide (j = nodeId)); destruct (decide (nodeId ∈ prev)); naive_solver.
  - intros Hin l n Hn Hid.
    apply list_elem_of_bind in Hn as (root & Hn & Hroot).
    unfold visibleForest in Hroot. cbn zeta in Hroot.
    apply list_elem_of_fmap in Hroot as (a & -> & _).
    eapply renderVisible_collapsed; [exact Hn|].
    rewrite Hid, toggleNode_elem. naive_solver.
Qed.

(** X30. When the grouping completes, [expandAll] opens exactly the types
    that some asset of the page has: every asset's type is among the
    expanded ones, and nothing else is. *)
Theorem expandAll_opens_every_type :
  forall (filteredAssets : list Asset) (groups : list (string * list Asset)) (t : string),
    Render.assetsByType filteredAssets = Render.Done groups ->
    (t ∈ expandAll (sortedTypes (Render.objectEntries groups)) <->
     exists a, a ∈ filteredAssets /\ assetType a = t).
Proof.
  intros fa groups t ->%assetsByType_Done. unfold expandAll.
  rewrite elem_of_list_to_set, sortedTypes_Permutation, objectEntries_Permutation.
  rewrite <- hasGroup_keys. split.
  - intros Hhas. apply hasGroup_keys, list_elem_of_fmap in Hhas as ([t' g] & Heq & Hin).
    cbn [fst] in Heq. subst t'.
    destruct g as [|a g]; [by apply assetsByType_nonempty in Hin|].
    exists a. destruct (assetsByType_elem fa t (a :: g) a Hin) as [Ht Ha]; [by left|].
    done.
  - intros (a & Ha & Ht). by eapply hasGroup_assetsByType.
Qed.

Lemma expandAll_opens_every_type_witness :
  "CSV File" ∈ expandAll
                 (sortedTypes
                    (Render.objectEntries
                       [("Azure Storage Account", [Sample.account]);
                        ("CSV File", [Sample.csvFile])])) <->
  exists a, a ∈ [Sample.account; Sample.csvFile] /\ assetType a = "CSV File".
Proof.
  apply (expandAll_opens_every_type [Sample.account; Sample.csvFile]).
  reflexivity.
Defined.

(** ** From catalog records to assets *)

Lemma orElse_nonempty (x : option string) (fallback : string) :
  fallback <> "" -> orElse x fallback <> "".
Proof.
  intros Hf. unfold orElse. destruct x as [s|]; [|done].
  by destruct (String.eqb_spec s "").
Qed.

(** X20. The assets made from the catalog records never have an empty
    name, type, asset type or path, whatever the record lacks; and an asset
    that the storage hierarchy places at the file level always carries the
    type "file" (so does the record a click on it puts into the
    selection). *)
Theorem mapAsset_fields :
  forall (toLowerCase : string -> string) (asset : RawAsset),
    let mapped := mapAsset toLowerCase asset in
    name mapped <> "" /\ type mapped <> "" /\
    assetType mapped <> "" /\ connection mapped <> "" /\
    (levelOf mapped = LFile -> type mapped = "file").
Proof.
  intros toLowerCase asset mapped. subst mapped. unfold mapAsset. cbn [name type assetType connection].
  split_and!.
  - by apply orElse_nonempty.
  - unfold getAssetType. cbn zeta.
    destruct (_ || _); [done|]. by apply orElse_nonempty.
  - apply orElse_nonempty. by apply orElse_nonempty.
  - by apply orElse_nonempty.
  - unfold levelOf, getAssetType. cbn [assetType]. cbn zeta.
    destruct (String.eqb _ "Azure Storage Account"); [done|].
    destruct (String.eqb _ "Azure Blob Storage"); [done|].
    destruct (String.eqb _ "Azure Blob Container"); [done|].
    assert (orElse (rawAssetType asset) (orElse (rawEntityType asset) "Unknown")
            = orElse (rawAssetType asset) (orElse (rawEntityType asset) "")
            \/ orElse (rawAssetType asset) (orElse (rawEntityType asset) "Unknown")
               = "Unknown") as [-> | ->].
    { unfold orElse. destruct (rawAssetType asset) as [s|].
      - destruct (String.eqb s ""); [|by left].
        destruct (rawEntityType asset) as [e|]; [|by right].
        destruct (String.eqb e ""); [by right | by left].
      - destruct (rawEntityType asset) as [e|]; [|by right].
        destruct (String.eqb e ""); [by right | by left]. }
    + by destruct (_ || _).
    + by vm_compute.
Qed.

(** ** The curation handlers: how a run ends *)

Section HandlerRuns.
Import Curate CuratePage.

Lemma tryCatchFinally_settles (body : M unit) (handler : string -> M unit)
    (last : M unit) (w : World) :
  (forall msg w1, exists w2, handler msg w1 = (Returned tt, w2)) ->
  (forall w1, exists w2, last w1 = (Returned tt, w2) /\ isSubmitting w2 = false) ->
  settles (tryCatchFinally body handler last) w.
Proof.
  intros Hhandler Hlast. unfold settles, tryCatchFinally.
  destruct (body w) as [[[]|msg] w1].
  - destruct (Hlast w1) as (w2 & -> & Hs). by exists tt, w2.
  - destruct (Hhandler msg w1) as (w2 & ->).
    destruct (Hlast w2) as (w3 & -> & Hs). by exists tt, w3.
Qed.

Lemma tryCatchFinallyWith_settles {A : Type} (body : M A) (handler : string -> M A)
    (last : M unit) (w : World) :
  (forall msg w1, exists a w2, handler msg w1 = (Returned a, w2)) ->
  (forall w1, exists w2, last w1 = (Returned tt, w2) /\ isSubmitting w2 = false) ->
  settles (tryCatchFinallyWith body handler last) w.
Proof.
  intros Hhandler Hlast. unfold settles, tryCatchFinallyWith.
  destruct (body w) as [[a|msg] w1].
  - destruct (Hlast w1) as (w2 & -> & Hs). by exists a, w2.
  - destruct (Hhandler msg w1) as (a & w2 & ->).
    destruct (Hlast w2) as (w3 & -> & Hs). by exists a, w3.
Qed.

Lemma removeContactBlock_settles (selectedAssets : list Selection.SelectedAsset)
    (contactType lower who : string) (w : World) :
  settles (removeContactBlock selectedAssets contactType lower who) w.
Proof.
  unfold removeContactBlock, bind at 1 2. simpl.
  apply tryCatchFinally_settles.
  - intros msg w1. by eexists.
  - intros w1. by eexists.
Qed.

Lemma guarded_settles (selectedAssets : list Selection.SelectedAsset)
    (quiet confirmed : bool) (contactType lower who : string) (w : World) :
  isSubmitting w = false ->
  settles
    (if isEmpty selectedAssets then (if quiet then ret tt else toast noAssetsToast)
     else if negb confirmed then ret tt
     else removeContactBlock selectedAssets contactType lower who) w.
Proof.
  intros Hw. destruct (isEmpty selectedAssets).
  - destruct quiet; by eexists _, _.
  - destruct confirmed; simpl; [apply removeContactBlock_settles|by eexists _, _].
Qed.

End HandlerRuns.

(** X21. No error escapes a curation handler and none leaves the submit
    buttons locked: started with the buttons released, each of the handlers
    for tags, owners and experts comes to an end normally with
    [isSubmitting] false, whatever the server answers, whether a request
    fails in transit, is refused, or returns a body that does not parse. *)
Theorem curation_handlers_settle :
  forall (selectedAssets : list Selection.SelectedAsset) (existingTags : list string)
         (confirmed : bool) (contactId displayName input : string)
         (trim : string -> string) (w : Curate.World),
    Curate.isSubmitting w = false ->
    CuratePage.settles (Curate.handleRemoveAllTags selectedAssets existingTags confirmed) w /\
    CuratePage.settles (Curate.handleRemoveOwner selectedAssets confirmed) w /\
    CuratePage.settles (Curate.handleRemoveExpert selectedAssets confirmed) w /\
    CuratePage.settles
      (Curate.handleRemoveSpecificOwner contactId displayName selectedAssets confirmed) w /\
    CuratePage.settles
      (Curate.handleRemoveSpecificExpert contactId displayName selectedAssets confirmed) w /\
    CuratePage.settles (CuratePage.handleAddTag trim selectedAssets input) w /\
    CuratePage.settles (CuratePage.handleRemoveTag trim selectedAssets input) w.
Proof.
  intros sel tags confirmed contactId displayName input trim w Hw. split_and!.
  - unfold Curate.handleRemoveAllTags.
    destruct (Curate.isEmpty sel); [by eexists _, _|].
    destruct (Curate.isEmpty tags); [by eexists _, _|].
    destruct confirmed; simpl; [|by eexists _, _].
    unfold Curate.bind at 1 2. simpl.
    apply tryCatchFinally_settles.
    + intros msg w1. by eexists.
    + intros w1. by eexists.
  - by apply (guarded_settles sel false).
  - by apply (guarded_settles sel false).
  - by apply (guarded_settles sel true).
  - by apply (guarded_settles sel true).
  - unfold CuratePage.handleAddTag.
    destruct (String.eqb (trim input) ""); [by eexists _, _|].
    destruct (Curate.isEmpty sel); [by eexists _, _|].
    unfold Curate.bind at 1 2. simpl.
    apply tryCatchFinallyWith_settles.
    + intros msg w1. by eexists _, _.
    + intros w1. by eexists.
  - unfold CuratePage.handleRemoveTag.
    destruct (String.eqb (trim input) ""); [by eexists _, _|].
    destruct (Curate.isEmpty sel); [by eexists _, _|].
    unfold Curate.bind at 1 2. simpl.
    apply tryCatchFinallyWith_settles.
    + intros msg w1. by eexists _, _.
    + intros w1. by eexists.
Qed.

Lemma curation_handlers_settle_witness :
  CuratePage.settles
    (Curate.handleRemoveAllTags [Sample.selected] ["pii"; "gold"] true) Sample.flakyWorld /\
  CuratePage.settles (Curate.handleRemoveOwner [Sample.selected] true) Sample.flakyWorld /\
  CuratePage.settles (Curate.handleRemoveExpert [Sample.selected] true) Sample.flakyWorld /\
  CuratePage.settles
    (Curate.handleRemoveSpecificOwner "u1" "Ann" [Sample.selected] true) Sample.flakyWorld /\
  CuratePage.settles
    (Curate.handleRemoveSpecificExpert "u1" "Ann" [Sample.selected] true) Sample.flakyWorld /\
  CuratePage.settles
    (CuratePage.handleAddTag (fun s => s) [Sample.selected] "pii") Sample.flakyWorld /\
  CuratePage.settles
    (CuratePage.handleRemoveTag (fun s => s) [Sample.selected] "pii") Sample.flakyWorld.
Proof.
  apply (curation_handlers_settle [Sample.selected] ["pii"; "gold"] true "u1" "Ann" "pii"
           (fun s => s) Sample.flakyWorld).
  reflexivity.
Defined.

(** ** Removing owners and experts with one click *)

Section RemoveBoth.
Import Curate CuratePage.

Variable selectedAssets : list Selection.SelectedAsset.

Let guids := Selection.getGuids selectedAssets.

(** The world after the shared block: the request and, after a success,
    the refresh are added to the log; the server is the same. *)
Lemma removeContactBlock_run (contactType lower who : string) (w : World) :
  exists w',
    removeContactBlock selectedAssets contactType lower who w = (Returned tt, w') /\
    network w' = network w /\
    sent w' = sent w ++ removeContactRequest guids contactType
                        :: refreshAfter guids
                             (network w (sent w) (removeContactRequest guids contactType)).
Proof.
  unfold removeContactBlock, tryCatchFinally, bind, fetch, json, refreshAfter.
  simpl. fold guids.
  destruct (network w (sent w) (removeContactRequest guids contactType))
    as [[isOk [msg|d]]|msg]; simpl; try by eexists.
  destruct (isOk && success d); simpl; [|by eexists].
  eexists. split_and!; [done..|]. simpl. by rewrite <- app_assoc.
Qed.

Lemma guarded_run (confirmed : bool) (contactType lower who : string) (w : World) :
  selectedAssets <> [] ->
  exists w',
    (if isEmpty selectedAssets then toast noAssetsToast
     else if negb confirmed then ret tt
     else removeContactBlock selectedAssets contactType lower who) w = (Returned tt, w') /\
    network w' = network w /\
    sent w' = sent w ++
      (if confirmed
       then removeContactRequest guids contactType
            :: refreshAfter guids
                 (network w (sent w) (removeContactRequest guids contactType))
       else []).
Proof.
  intros Hsel.
  assert (isEmpty selectedAssets = false) as -> by by destruct selectedAssets.
  destruct confirmed; simpl.
  - apply removeContactBlock_run.
  - exists w. by rewrite app_nil_r.
Qed.

End RemoveBoth.

(** X22. With "both" picked, the remove button asks for the experts to be
    removed whatever became of the owners: the request for the owners (and
    the refresh that follows its success) is sent when the first dialog is
    confirmed, then the request for the experts when the second is, also
    after the first request failed or was refused. *)
Theorem remove_both_sends_expert_request_regardless :
  forall (selectedAssets : list Selection.SelectedAsset)
         (confirmedOwner confirmedExpert : bool) (w : Curate.World),
    let guids := Selection.getGuids selectedAssets in
    let ownerPart :=
      if confirmedOwner
      then Curate.removeContactRequest guids "Owner"
           :: Curate.refreshAfter guids
                (Curate.network w (Curate.sent w)
                   (Curate.removeContactRequest guids "Owner"))
      else [] in
    let expertPart :=
      if confirmedExpert
      then Curate.removeContactRequest guids "Expert"
           :: Curate.refreshAfter guids
                (Curate.network w (Curate.sent w ++ ownerPart)
                   (Curate.removeContactRequest guids "Expert"))
      else [] in
    selectedAssets <> [] ->
    Curate.requestsOf
      (CuratePage.handleRemoveContacts CuratePage.ChoiceBoth selectedAssets
         confirmedOwner confirmedExpert) w
    = ownerPart ++ expertPart.
Proof.
  intros sel confirmedOwner confirmedExpert w guids ownerPart expertPart Hsel.
  apply requestsOf_appended.
  unfold CuratePage.handleRemoveContacts, Curate.handleRemoveOwner,
    Curate.handleRemoveExpert, Curate.bind.
  destruct (guarded_run sel confirmedOwner "Owner" "owner" "Owner has been removed" w Hsel)
    as (w1 & -> & Hnet1 & Hsent1).
  destruct (guarded_run sel confirmedExpert "Expert" "expert" "Expert has been removed" w1 Hsel)
    as (w2 & -> & Hnet2 & Hsent2).
  simpl. rewrite Hsent2, Hnet1, Hsent1. by rewrite <- app_assoc.
Qed.

Lemma remove_both_sends_expert_request_regardless_witness :
  Curate.requestsOf
    (CuratePage.handleRemoveContacts CuratePage.ChoiceBoth [Sample.selected] true true)
    (Curate.mkWorld (fun _ _ => Curate.Rejected "Failed to fetch") [] [] false None)
  = [Curate.removeContactRequest ["guid-4"] "Owner"]
    ++ [Curate.removeContactRequest ["guid-4"] "Expert"].
Proof.
  apply (remove_both_sends_expert_request_regardless [Sample.selected] true true
           (Curate.mkWorld (fun _ _ => Curate.Rejected "Failed to fetch") [] [] false None)).
  discriminate.
Defined.

(** ** Adding and removing one tag *)

Section SingleTag.
Import Curate CuratePage.

Variable trim : string -> string.
Variable selectedAssets : list Selection.SelectedAsset.
Variable input : string.

Let guids := Selection.getGuids selectedAssets.

Lemma sentBy_appended {A : Type} (m : M A) (w : World) (added : list Request) :
  sent (snd (m w)) = sent w ++ added -> sentBy m w = added.
Proof. intros Hs. unfold sentBy. rewrite Hs. apply drop_app_length. Qed.

Lemma shownBy_appended {A : Type} (m : M A) (w : World) (added : list Toast) :
  toasts (snd (m w)) = toasts w ++ added -> shownBy m w = added.
Proof. intros Hs. unfold shownBy. rewrite Hs. apply drop_app_length. Qed.

(** Past the two guards, [handleAddTag] sends its one request and reports
    by the answer. *)
Lemma handleAddTag_run (w : World) :
  String.eqb (trim input) "" = false -> isEmpty selectedAssets = false ->
  let answer := network w (sent w) (addTagsRequest guids (trim input)) in
  exists t message,
    handleAddTag trim selectedAssets input w
    = (Returned (if accepted answer then "" else input),
       mkWorld (network w) (sent w ++ [addTagsRequest guids (trim input)])
               (toasts w ++ [t]) false (Some (accepted answer, message))) /\
    variant t = (if accepted answer then "success" else "destructive") /\
    (accepted answer = false ->
       description t = failureMessage answer "Failed to add tag").
Proof.
  intros Hinput Hsel answer. subst answer.
  unfold handleAddTag. rewrite Hinput, Hsel.
  unfold tryCatchFinallyWith, bind, fetch, json, accepted, failureMessage.
  simpl. fold guids.
  destruct (network w (sent w) (addTagsRequest guids (trim input)))
    as [[isOk [msg|d]]|msg]; simpl;
    try (eexists _, _; (split; [reflexivity|]); by split).
  destruct (isOk && success d); simpl;
    eexists _, _; (split; [reflexivity|]); by split.
Qed.

(** Past the two guards, [handleRemoveTag] sends its request, reports by
    the answer, and asks for the tags again. *)
Lemma handleRemoveTag_run (w : World) :
  String.eqb (trim input) "" = false -> isEmpty selectedAssets = false ->
  let answer := network w (sent w) (removeTagsRequest guids (trim input)) in
  exists t message,
    handleRemoveTag trim selectedAssets input w
    = (Returned (if accepted answer then "" else input),
       mkWorld (network w)
               (sent w ++ [removeTagsRequest guids (trim input); getTagsRequest guids])
               (toasts w ++ [t]) false (Some (accepted answer, message))) /\
    variant t = (if accepted answer then "success" else "destructive") /\
    (accepted answer = false ->
       description t = failureMessage answer "Failed to remove tag").
Proof.
  intros Hinput Hsel answer. subst answer.
  unfold handleRemoveTag. rewrite Hinput, Hsel.
  unfold tryCatchFinallyWith, bind, fetch, json, accepted, failureMessage,
    fetchExistingTags, fetchDetached.
  simpl. fold guids.
  destruct (network w (sent w) (removeTagsRequest guids (trim input)))
    as [[isOk [msg|d]]|msg]; simpl; rewrite <- ?app_assoc; simpl;
    try (eexists _, _; (split; [reflexivity|]); by split).
  destruct (isOk && success d); simpl; rewrite <- ?app_assoc; simpl;
    eexists _, _; (split; [reflexivity|]); by split.
Qed.

End SingleTag.

(** X23. A blank tag name or an empty selection stops both single-tag
    handlers before anything is sent. Otherwise [handleAddTag] sends one
    request, with the trimmed name, and does not ask for the tags again;
    [handleRemoveTag] sends its request and then always asks for the tags
    again, whether or not the removal succeeded. *)
Theorem single_tag_requests :
  forall (trim : string -> string) (selectedAssets : list Selection.SelectedAsset)
         (input : string) (w : Curate.World),
    let guids := Selection.getGuids selectedAssets in
    let passes := negb (String.eqb (trim input) "") && negb (Curate.isEmpty selectedAssets) in
    CuratePage.sentBy (CuratePage.handleAddTag trim selectedAssets input) w
      = (if passes then [CuratePage.addTagsRequest guids (trim input)] else []) /\
    CuratePage.sentBy (CuratePage.handleRemoveTag trim selectedAssets input) w
      = (if passes
         then [Curate.removeTagsRequest guids (trim input); Curate.getTagsRequest guids]
         else []).
Proof.
  intros trim sel input w guids passes. subst passes.
  destruct (String.eqb (trim input) "") eqn:Hinput; cbn [negb andb].
  { unfold CuratePage.handleAddTag, CuratePage.handleRemoveTag. rewrite Hinput.
    split; apply sentBy_appended; simpl; by rewrite app_nil_r. }
  destruct (Curate.isEmpty sel) eqn:Hsel; cbn [negb].
  { unfold CuratePage.handleAddTag, CuratePage.handleRemoveTag. rewrite Hinput, Hsel.
    split; apply sentBy_appended; simpl; by rewrite app_nil_r. }
  split; apply sentBy_appended.
  - destruct (handleAddTag_run trim sel input w Hinput Hsel) as (t & message & -> & _).
    done.
  - destruct (handleRemoveTag_run trim sel input w Hinput Hsel) as (t & message & -> & _).
    done.
Qed.

(** X24. The single-tag handlers read the server's answer: the write counts
    as done only when the response is ok and its body says success. Then the
    input field is cleared and the notice is a success; in every other case
    (transport failure, error status, unparsable body, [success] false) the
    input is kept, the result is recorded as a failure and the notice is
    destructive with the error's message. One notice is shown either way. *)
Theorem single_tag_write_reported :
  forall (trim : string -> string) (selectedAssets : list Selection.SelectedAsset)
         (input : string) (w : Curate.World),
    let guids := Selection.getGuids selectedAssets in
    let added := CuratePage.handleAddTag trim selectedAssets input in
    let removed := CuratePage.handleRemoveTag trim selectedAssets input in
    let answerAdd :=
      Curate.network w (Curate.sent w) (CuratePage.addTagsRequest guids (trim input)) in
    let answerRemove :=
      Curate.network w (Curate.sent w) (Curate.removeTagsRequest guids (trim input)) in
    trim input <> "" -> selectedAssets <> [] ->
    (fst (added w)
       = Curate.Returned (if CuratePage.accepted answerAdd then "" else input) /\
     fst <$> Curate.lastResult (snd (added w)) = Some (CuratePage.accepted answerAdd) /\
     exists t, CuratePage.shownBy added w = [t] /\
       Curate.variant t
         = (if CuratePage.accepted answerAdd then "success" else "destructive") /\
       (CuratePage.accepted answerAdd = false ->
          Curate.description t = CuratePage.failureMessage answerAdd "Failed to add tag")) /\
    (fst (removed w)
       = Curate.Returned (if CuratePage.accepted answerRemove then "" else input) /\
     fst <$> Curate.lastResult (snd (removed w)) = Some (CuratePage.accepted answerRemove) /\
     exists t, CuratePage.shownBy removed w = [t] /\
       Curate.variant t
         = (if CuratePage.accepted answerRemove then "success" else "destructive") /\
       (CuratePage.accepted answerRemove = false ->
          Curate.description t
            = CuratePage.failureMessage answerRemove "Failed to remove tag")).
Proof.
  intros trim sel input w guids added removed answerAdd answerRemove Hinput Hsel.
  apply String.eqb_neq in Hinput.
  assert (Curate.isEmpty sel = false) as Hempty by by destruct sel.
  split.
  - destruct (handleAddTag_run trim sel input w Hinput Hempty)
      as (t & message & Hrun & Hvariant & Hdescription).
    subst added. rewrite Hrun. split_and!; [done..|].
    exists t. split_and!; [|done..].
    apply shownBy_appended. by rewrite Hrun.
  - destruct (handleRemoveTag_run trim sel input w Hinput Hempty)
      as (t & message & Hrun & Hvariant & Hdescription).
    subst removed. rewrite Hrun. split_and!; [done..|].
    exists t. split_and!; [|done..].
    apply shownBy_appended. by rewrite Hrun.
Qed.

Lemma single_tag_write_reported_witness :
  let refusing :=
    Curate.mkWorld
      (fun _ _ =>
         Curate.Resolved
           (Curate.mkResponse false (inr (Curate.mkData false (Some "Forbidden")))))
      [] [] false None in
  fst (CuratePage.handleAddTag (fun s => s) [Sample.selected] "pii" refusing)
    = Curate.Returned "pii" /\
  fst (CuratePage.handleRemoveTag (fun s => s) [Sample.selected] "pii" Sample.steadyWorld)
    = Curate.Returned "".
Proof.
  intros refusing. split.
  - destruct (single_tag_write_reported (fun s => s) [Sample.selected] "pii" refusing)
      as [[Hadd _] _]; [discriminate..|]. exact Hadd.
  - destruct (single_tag_write_reported (fun s => s) [Sample.selected] "pii"
                Sample.steadyWorld)
      as [_ [Hremove _]]; [discriminate..|]. exact Hremove.
Defined.

(** ** Applying the column classifications *)

Section ApplyColumns.
Import Curate CuratePage.

Lemma size_nonempty (m : gmap string (list string)) (g : string) (v : list string) :
  m !! g = Some v -> Nat.eqb (size m) 0 = false.
Proof.
  intros Hg. apply Nat.eqb_neq. intros Hsize.
  apply map_size_empty_iff in Hsize. subst m. by rewrite lookup_empty in Hg.
Qed.

Lemma apply_nonempty (answer : FetchOutcome) (st : ClassifyState) :
  Nat.eqb (size (columnClassifications st)) 0 = false ->
  applyColumnClassifications answer st
  = if accepted answer
    then mkApplyRun (Some (columnClassifications st))
           (classificationsAppliedToast (size (columnClassifications st)))
           (mkClassifyState ∅ false (autoClassificationSuggestions st))
           true
    else mkApplyRun (Some (columnClassifications st))
           (applyErrorToast (failureMessage answer "Failed to apply classifications"))
           st
           false.
Proof. intros Hsize. unfold applyColumnClassifications. by rewrite Hsize. Qed.

End ApplyColumns.

(** X25. [applyColumnClassifications] sends the whole pending map, also the
    entries the user never touched. After a refused or failed write the
    pending map and the view are kept as they were, so a second click sends
    the same map again; after an accepted write the map is empty, the schema
    view is closed, the existing classifications are fetched again, and a
    second click sends nothing and shows the notice that nothing is
    selected. *)
Theorem apply_sends_pending_and_keeps_it_on_failure :
  forall (answer again : Curate.FetchOutcome) (st : Curate.ClassifyState)
         (g : string) (v : list string),
    Curate.columnClassifications st !! g = Some v ->
    let run := CuratePage.applyColumnClassifications answer st in
    let rerun := CuratePage.applyColumnClassifications again (CuratePage.applyState run) in
    CuratePage.applySent run = Some (Curate.columnClassifications st) /\
    (CuratePage.accepted answer = false ->
       CuratePage.applyState run = st /\
       CuratePage.applyRefetches run = false /\
       Curate.variant (CuratePage.applyNotice run) = "destructive" /\
       CuratePage.applySent rerun = Some (Curate.columnClassifications st)) /\
    (CuratePage.accepted answer = true ->
       Curate.columnClassifications (CuratePage.applyState run) = ∅ /\
       Curate.showSchemaView (CuratePage.applyState run) = false /\
       CuratePage.applyRefetches run = true /\
       CuratePage.applySent rerun = None /\
       CuratePage.applyNotice rerun = CuratePage.noClassificationsToast).
Proof.
  intros answer again st g v Hg run rerun. subst rerun run.
  pose proof (size_nonempty _ _ _ Hg) as Hsize.
  rewrite !(apply_nonempty answer st Hsize).
  destruct (CuratePage.accepted answer); simpl.
  - split_and!; [done| by intros [=] |].
    intros _. unfold CuratePage.applyColumnClassifications. simpl. done.
  - split_and!; [done| | by intros [=]].
    intros _. rewrite (apply_nonempty again st Hsize).
    split_and!; try done. by destruct (CuratePage.accepted again).
Qed.

Lemma apply_sends_pending_and_keeps_it_on_failure_witness :
  let st := Curate.mkClassifyState {[ "col-1" := ["MICROSOFT.PERSONAL.EMAIL"] ]} true None in
  CuratePage.applySent
    (CuratePage.applyColumnClassifications (Curate.Rejected "Failed to fetch") st)
  = Some (Curate.columnClassifications st).
Proof.
  intros st.
  destruct (apply_sends_pending_and_keeps_it_on_failure
              (Curate.Rejected "Failed to fetch") (Curate.Rejected "Failed to fetch")
              st "col-1" ["MICROSOFT.PERSONAL.EMAIL"]) as [Hsent _].
  - apply lookup_singleton_eq.
  - exact Hsent.
Defined.


(** ** Picking classifications *)

(** X27. [toggleClassificationSelection] flips whether the given name is
    picked and leaves every other name as it was; a newly picked name goes to
    the end of the list; a list without repeats stays without repeats; and
    toggling a name that was not picked twice gives the list back. *)
Theorem toggleClassificationSelection_flips :
  forall (classificationName : string) (prev : list string),
    let next := CuratePage.toggleClassificationSelection classificationName prev in
    (classificationName ∈ next <-> ~ (classificationName ∈ prev)) /\
    (forall c, c <> classificationName -> (c ∈ next <-> c ∈ prev)) /\
    (~ (classificationName ∈ prev) -> next = prev ++ [classificationName]) /\
    (NoDup prev -> NoDup next) /\
    (~ (classificationName ∈ prev) ->
       CuratePage.toggleClassificationSelection classificationName next = prev).
Proof.
  intros x prev next. subst next. unfold CuratePage.toggleClassificationSelection.
  destruct (decide (x ∈ prev)) as [Hin|Hnotin].
  - rewrite (bool_decide_eq_true_2 _ Hin). split_and!; try done.
    + rewrite list_elem_of_filter. tauto.
    + intros c Hc. rewrite list_elem_of_filter. tauto.
    + by apply NoDup_filter.
  - rewrite (bool_decide_eq_false_2 _ Hnotin). split_and!; try done.
    + split; [done|]. intros _. apply elem_of_app. right. by left.
    + intros c Hc. rewrite elem_of_app, list_elem_of_singleton. tauto.
    + intros Hnd. apply NoDup_app. split_and!; [done| |apply NoDup_singleton].
      by intros c Hc ->%list_elem_of_singleton.
    + intros _. rewrite bool_decide_eq_true_2 by (apply elem_of_app; right; by left).
      rewrite filter_app, filter_cons_False by (intros Hn; by apply Hn).
      rewrite filter_nil, app_nil_r. apply filter_all.
      intros c Hc ->. done.
Qed.

(** ** The pending column classifications *)

Section ColumnMaps.
Import Curate.













End ColumnMaps.




